(** * Drishyamitra: the upload classification pipeline and folder maintenance

    A shallow embedding of [service.py] (with the upload route of [routes.py]
    and the threshold of [config.py]) and the properties the specification
    states about it.

    Conventions of the model.
    - A Python [float] is a binary64 number: Rocq's primitive [float].
    - A Python [str] is a [string]; the model is exact on ASCII text (the
      classes [\w] and whitespace, and [lower], are the ASCII ones).
    - A Supabase table is the list of its rows, in the order the database
      returns them; [select] is a filter, [insert] appends, [delete] removes
      the matching rows.
    - The disk below [UPLOAD_BASE_FOLDER] is a finite map from
      (user id, folder name) to a directory, itself a finite map from file
      names to contents, together with the files saved directly in a user's
      upload root.
    - Code that may raise returns an [outcome]; stateful code is a function
      from the state to the new state and an outcome, so that what was
      written before an exception stays written, as in the source.
    - The random identifiers, the two models, the permissions of the disk
      and the mail server are inputs ([Env]).  The database itself never
      fails, and its [created_at] columns are left out: nothing in the
      service reads them back except to order a listing. *)

From Stdlib Require Import ZArith List Floats Lia Ascii String.
From stdpp Require Import gmap strings list sorting pretty.
Import ListNotations.

Set Warnings "-inexact-float".
Local Open Scope string_scope.
Local Open Scope list_scope.

(** ** Python strings *)

Definition chars_of (s : string) : list ascii := list_ascii_of_string s.
Definition str_of (l : list ascii) : string := string_of_list_ascii l.

Definition code (c : ascii) : N := N_of_ascii c.

Definition in_range (lo hi : N) (c : ascii) : bool :=
  (lo <=? code c)%N && (code c <=? hi)%N.

(** [str.lower] on one ASCII character. *)
Definition lower_char (c : ascii) : ascii :=
  if in_range 65 90 c then ascii_of_N (code c + 32) else c.

(** [str.isspace]: tab, line feed, vertical tab, form feed, carriage return,
    the four separators 0x1c..0x1f and the space. *)
Definition is_space (c : ascii) : bool :=
  in_range 9 13 c || in_range 28 31 c || (code c =? 32)%N.

(** The class [\w]: letters, digits and the underscore. *)
Definition is_word (c : ascii) : bool :=
  in_range 48 57 c || in_range 65 90 c || in_range 97 122 c || (code c =? 95)%N.

Definition underscore : ascii := "_"%char.
Definition is_underscore (c : ascii) : bool := (code c =? 95)%N.

Fixpoint lstrip_by (p : ascii -> bool) (l : list ascii) : list ascii :=
  match l with
  | [] => []
  | c :: l' => if p c then lstrip_by p l' else l
  end.

Definition rstrip_by (p : ascii -> bool) (l : list ascii) : list ascii :=
  reverse (lstrip_by p (reverse l)).

(** [s.strip()] with [p := is_space], [s.strip("_")] with [p := is_underscore]. *)
Definition strip_by (p : ascii -> bool) (l : list ascii) : list ascii :=
  rstrip_by p (lstrip_by p l).

Definition lower (s : string) : string := str_of (map lower_char (chars_of s)).
Definition strip (s : string) : string := str_of (strip_by is_space (chars_of s)).

(** [re.sub(r"[^\w]", "_", raw)]: every character outside [\w] becomes one
    underscore; the pattern has no repetition, so a run of [n] such
    characters becomes [n] underscores. *)
Definition sub_nonword (l : list ascii) : list ascii :=
  map (fun c => if is_word c then c else underscore) l.

(** [s.endswith(suffix)] and [s.endswith(tuple)]. *)
Fixpoint is_prefix (p l : list ascii) : bool :=
  match p, l with
  | [], _ => true
  | _ :: _, [] => false
  | a :: p', b :: l' => if Ascii.eqb a b then is_prefix p' l' else false
  end.

Definition endswith (s suffix : string) : bool :=
  is_prefix (reverse (chars_of suffix)) (reverse (chars_of s)).

Definition endswith_any (s : string) (suffixes : list string) : bool :=
  existsb (endswith s) suffixes.

(** [filename.rsplit(".", 1)[1]]: what follows the last dot, when there is
    one ([None] stands for [not "." in filename]). *)
Fixpoint after_last_dot (l : list ascii) : option (list ascii) :=
  match l with
  | [] => None
  | c :: l' =>
      match after_last_dot l' with
      | Some e => Some e
      | None => if Ascii.eqb c "."%char then Some l' else None
      end
  end.

(** ** config.py *)

Module Config.
Definition ALLOWED_EXTENSIONS : list string := ["png"; "jpg"; "jpeg"; "webp"; "gif"].
Definition DEEPFACE_DISTANCE_THRESHOLD : float := 0.40%float.
End Config.

Definition IMAGE_EXTS : list string := Config.ALLOWED_EXTENSIONS.

(** ** Helpers of service.py *)

Definition allowed_file (filename : string) : bool :=
  match after_last_dot (chars_of filename) with
  | Some ext => bool_decide (lower (str_of ext) ∈ Config.ALLOWED_EXTENSIONS)
  | None => false
  end.

(** ** Exceptions and outcomes *)

Inductive exn : Type :=
| ValueError          (* numpy: shapes not aligned *)
| FileNotFoundError
| SameFileError       (* shutil: source and destination are the same file *)
| OSError             (* disk full, permission denied *)
| SMTPException.

Inductive outcome (A : Type) : Type :=
| Ok (a : A)
| Raise (e : exn).
Arguments Ok {A} a.
Arguments Raise {A} e.

(** ** Cosine similarity (numpy on binary64) *)

Definition sum_products (a b : list float) : float :=
  fold_left (fun acc xy => (acc + fst xy * snd xy)%float) (combine a b) 0%float.

(** [np.dot] of two one-dimensional arrays: the sum of the products, and
    [ValueError] when the lengths differ.  The sum is taken left to right;
    numpy leaves the order of the additions to its BLAS kernel. *)
Definition np_dot (a b : list float) : outcome float :=
  if (List.length a =? List.length b)%nat then Ok (sum_products a b) else Raise ValueError.

(** [np.linalg.norm] of a one-dimensional array: [sqrt(dot(x, x))]. *)
Definition np_linalg_norm (a : list float) : float :=
  PrimFloat.sqrt (sum_products a a).

(** [return float(np.dot(a, b) / d) if d else 0.0]: the test [if d] is
    [d != 0], true of a NaN; the product is only computed when it holds. *)
Definition cosine_similarity (a b : list float) : outcome float :=
  let d := (np_linalg_norm a * np_linalg_norm b)%float in
  if (d =? 0)%float then Ok 0%float
  else match np_dot a b with
       | Ok x => Ok (x / d)%float
       | Raise e => Raise e
       end.

(** [re.sub(r"[^\w]", "_", raw)[:40].strip("_")] or ["uncategorised"], on
    [raw = content.strip().lower()]: the body of the [try] of
    [groq_describe_for_folder] once the model has replied [content]. *)
Definition slug_of_reply (content : string) : string :=
  let raw := lower (strip content) in
  let slug := str_of (strip_by is_underscore (take 40 (sub_nonword (chars_of raw)))) in
  if String.eqb slug "" then "uncategorised" else slug.

(** [str.upper] on one ASCII character, and [str.title]: the first letter of
    every run of letters in upper case, the others in lower case. *)
Definition upper_char (c : ascii) : ascii :=
  if in_range 97 122 c then ascii_of_N (code c - 32) else c.

Definition is_letter (c : ascii) : bool := in_range 65 90 c || in_range 97 122 c.

Fixpoint title_from (previous_is_cased : bool) (l : list ascii) : list ascii :=
  match l with
  | [] => []
  | c :: l' =>
      if is_letter c
      then (if previous_is_cased then lower_char c else upper_char c) :: title_from true l'
      else c :: title_from false l'
  end.

Definition title (s : string) : string := str_of (title_from false (chars_of s)).

(** [slug.replace("_", " ")]. *)
Definition underscores_to_spaces (s : string) : string :=
  str_of (map (fun c => if is_underscore c then " "%char else c) (chars_of s)).

(** ** Rows of the tables *)

Definition Bytes : Type := list Byte.byte.

(** The JSON stored in [persons.embedding]: a bare list, or an object that
    may hold the list under the key [vector]. *)
Inductive embedding_json : Type :=
| EmbList (v : list float)
| EmbDict (vector : option (list float)).

Record person : Type := Person {
  p_id : string;
  p_user_id : string;
  p_name : string;
  p_folder_name : string;
  p_embedding : option embedding_json
}.

Record photo : Type := Photo {
  ph_id : string;
  ph_user_id : string;
  ph_filename : string;
  ph_filepath : string
}.

Record photo_person : Type := PhotoPerson {
  pp_photo_id : string;
  pp_person_id : string
}.

Record delivery : Type := Delivery {
  d_user_id : string;
  d_person_id : string;
  d_recipient_email : string;
  d_photo_count : nat;
  d_status : string;
  d_message : string
}.

(** One element of what [DeepFace.represent] returns; [face.get("embedding", [])]
    reads it. *)
Record face : Type := Face { face_embedding : option (list float) }.

(** An entry of [result["persons"]]. *)
Record person_ref : Type := PersonRef {
  ref_name : string;
  ref_folder : string;
  ref_id : string
}.

Inductive method : Type := deepface | groq_vision.

(** The dictionary [process_uploaded_image] returns. *)
Record result : Type := Result {
  r_filename : string;
  r_faces_detected : nat;
  r_persons : list person_ref;
  r_photo_id : string;
  r_method : method
}.

(** A file of the multipart request ([werkzeug]'s [FileStorage]). *)
Record upload : Type := Upload { up_filename : string; up_content : Bytes }.

Inductive flash : Type :=
| FlashSkipped (filename : string)
| FlashUploaded (count faces : nat)
| FlashNoValidFiles.

(** The message handed to SMTP: the text part announces [len(files)] photos
    unless a custom message is given; the attachments follow. *)
Record email : Type := Email {
  e_to : string;
  e_person_name : string;
  e_custom_message : string;
  e_announced : nat;
  e_attachments : list (string * Bytes)
}.

(** What [send_photos_by_email] returns. *)
Inductive send_result : Type :=
| SendFailure (error : string)
| SendSuccess (photos_sent : nat).

(** ** Paths and the state *)

Inductive path : Type :=
| in_root (user_id name : string)                 (* user_root(user_id)/name *)
| in_folder (user_id folder_name name : string).  (* folder_disk(user_id, folder_name)/name *)

#[global] Instance path_eq_dec : EqDecision path.
Proof. solve_decision. Defined.

Record State : Type := MkState {
  persons : list person;
  photos : list photo;
  photo_persons : list photo_person;
  delivery_history : list delivery;
  folders : gmap (string * string) (gmap string Bytes);
  root_files : gmap (string * string) Bytes;
  uuid_drawn : nat;
  flashed : list flash;
  outbox : list email
}.

Definition set_persons (f : list person -> list person) (st : State) : State :=
  MkState (f (persons st)) (photos st) (photo_persons st) (delivery_history st)
          (folders st) (root_files st) (uuid_drawn st) (flashed st) (outbox st).
Definition set_photos (f : list photo -> list photo) (st : State) : State :=
  MkState (persons st) (f (photos st)) (photo_persons st) (delivery_history st)
          (folders st) (root_files st) (uuid_drawn st) (flashed st) (outbox st).
Definition set_photo_persons (f : list photo_person -> list photo_person) (st : State) : State :=
  MkState (persons st) (photos st) (f (photo_persons st)) (delivery_history st)
          (folders st) (root_files st) (uuid_drawn st) (flashed st) (outbox st).
Definition set_delivery_history (f : list delivery -> list delivery) (st : State) : State :=
  MkState (persons st) (photos st) (photo_persons st) (f (delivery_history st))
          (folders st) (root_files st) (uuid_drawn st) (flashed st) (outbox st).
Definition set_folders
  (f : gmap (string * string) (gmap string Bytes) -> gmap (string * string) (gmap string Bytes))
  (st : State) : State :=
  MkState (persons st) (photos st) (photo_persons st) (delivery_history st)
          (f (folders st)) (root_files st) (uuid_drawn st) (flashed st) (outbox st).
Definition set_root_files
  (f : gmap (string * string) Bytes -> gmap (string * string) Bytes) (st : State) : State :=
  MkState (persons st) (photos st) (photo_persons st) (delivery_history st)
          (folders st) (f (root_files st)) (uuid_drawn st) (flashed st) (outbox st).
Definition set_uuid_drawn (f : nat -> nat) (st : State) : State :=
  MkState (persons st) (photos st) (photo_persons st) (delivery_history st)
          (folders st) (root_files st) (f (uuid_drawn st)) (flashed st) (outbox st).
Definition set_flashed (f : list flash -> list flash) (st : State) : State :=
  MkState (persons st) (photos st) (photo_persons st) (delivery_history st)
          (folders st) (root_files st) (uuid_drawn st) (f (flashed st)) (outbox st).
Definition set_outbox (f : list email -> list email) (st : State) : State :=
  MkState (persons st) (photos st) (photo_persons st) (delivery_history st)
          (folders st) (root_files st) (uuid_drawn st) (flashed st) (f (outbox st)).

(** The files of a folder; a folder that does not exist has none. *)
Definition dir_of (st : State) (user_id folder_name : string) : gmap string Bytes :=
  default ∅ (folders st !! (user_id, folder_name)).

Definition read_file (st : State) (p : path) : option Bytes :=
  match p with
  | in_root u n => root_files st !! (u, n)
  | in_folder u f n => dir_of st u f !! n
  end.

(** [os.path.isfile] and, on the paths of the model, [os.path.exists]. *)
Definition isfile (st : State) (p : path) : bool := bool_decide (is_Some (read_file st p)).

Definition write_file (p : path) (b : Bytes) (st : State) : State :=
  match p with
  | in_root u n => set_root_files (insert (u, n) b) st
  | in_folder u f n => set_folders (insert (u, f) (<[n := b]> (dir_of st u f))) st
  end.

Definition unlink_file (p : path) (st : State) : State :=
  match p with
  | in_root u n => set_root_files (delete (u, n)) st
  | in_folder u f n => set_folders (insert (u, f) (delete n (dir_of st u f))) st
  end.

(** [sorted(f for f in os.listdir(folder_path) if f.lower().endswith(IMAGE_EXTS))],
    and [[]] when the folder does not exist. *)
Definition is_image_name (f : string) : bool := endswith_any (lower f) IMAGE_EXTS.

Definition list_images (st : State) (user_id folder_name : string) : list string :=
  merge_sort (fun a b => Is_true (String.leb a b))
             (filter (fun f => Is_true (is_image_name f))
                     (map_to_list (dir_of st user_id folder_name)).*1).

(** ** The state-and-exception monad *)

Definition M (A : Type) : Type := State -> State * outcome A.

#[global] Instance M_ret : MRet M := fun A a st => (st, Ok a).
#[global] Instance M_bind : MBind M := fun A B f m st =>
  match m st with
  | (st', Ok a) => f a st'
  | (st', Raise e) => (st', Raise e)
  end.

Definition gets {A : Type} (f : State -> A) : M A := fun st => (st, Ok (f st)).
Definition modify (f : State -> State) : M unit := fun st => (f st, Ok tt).

(** [try: m except Exception: handler] *)
Definition try_except {A : Type} (m : M A) (handler : exn -> M A) : M A := fun st =>
  match m st with
  | (st', Ok a) => (st', Ok a)
  | (st', Raise e) => handler e st'
  end.

(** ** What the service does not own

    The random identifiers, the two models, werkzeug's file-name sanitiser,
    the permissions of the disk and the mail server are inputs of the
    model: one record of functions, fixed for a run. *)
Record Env : Type := MkEnv {
  uuid_str : nat -> string;            (* str(uuid.uuid4()) at the n-th draw *)
  uuid_hex : nat -> string;            (* uuid.uuid4().hex at the n-th draw *)
  deepface_represent : Bytes -> outcome (list face);
  groq_reply : Bytes -> outcome string; (* resp.choices[0].message.content *)
  secure_filename : string -> string;
  may_write : path -> bool;            (* creating or overwriting the file succeeds *)
  may_remove : path -> bool;
  may_read : path -> bool;
  smtp_sendmail : email -> outcome unit
}.

Definition thresh : float := (1 - Config.DEEPFACE_DISTANCE_THRESHOLD)%float.

(** The vector [find_matching_person] compares with, after its two
    [if not emb: continue] tests; [None] when the row is skipped. *)
Definition stored_vector (p : person) : option (list float) :=
  match p_embedding p with
  | None => None
  | Some (EmbList []) => None
  | Some (EmbList v) => Some v
  | Some (EmbDict None) => None
  | Some (EmbDict (Some [])) => None
  | Some (EmbDict (Some v)) => Some v
  end.

(** The [for p in persons] loop of [find_matching_person], from the current
    [best] and [score]. *)
Fixpoint scan_persons (embedding : list float) (ps : list person)
  (best : option person) (score : float) : outcome (option person * float) :=
  match ps with
  | [] => Ok (best, score)
  | p :: rest =>
      match stored_vector p with
      | None => scan_persons embedding rest best score
      | Some emb =>
          match cosine_similarity embedding emb with
          | Raise e => Raise e
          | Ok s =>
              if (score <? s)%float
              then scan_persons embedding rest (Some p) s
              else scan_persons embedding rest best score
          end
      end
  end.

Definition best_match (ps : list person) (embedding : list float) : outcome (option person) :=
  match scan_persons embedding ps None (-1)%float with
  | Raise e => Raise e
  | Ok (best, score) => Ok (if (thresh <=? score)%float then best else None)
  end.

Definition person_ref_of (p : person) : person_ref :=
  PersonRef (p_name p) (p_folder_name p) (p_id p).

Section Service.
Variable env : Env.

Definition uuid4_str : M string := fun st =>
  (set_uuid_drawn S st, Ok (uuid_str env (uuid_drawn st))).
Definition uuid4_hex : M string := fun st =>
  (set_uuid_drawn S st, Ok (uuid_hex env (uuid_drawn st))).

(** [os.makedirs(p, exist_ok=True)] on the folder of a person. *)
Definition folder_disk (user_id folder_name : string) : M unit :=
  modify (fun st => match folders st !! (user_id, folder_name) with
                    | Some _ => st
                    | None => set_folders (insert (user_id, folder_name) ∅) st
                    end).

(** [shutil.copy2(src, dst)] *)
Definition shutil_copy2 (src dst : path) : M unit := fun st =>
  match read_file st src with
  | None => (st, Raise FileNotFoundError)
  | Some b =>
      if decide (src = dst) then (st, Raise SameFileError)
      else if may_write env dst then (write_file dst b st, Ok tt)
      else (st, Raise OSError)
  end.

(** [os.remove(p)] *)
Definition os_remove (p : path) : M unit := fun st =>
  match read_file st p with
  | None => (st, Raise FileNotFoundError)
  | Some _ => if may_remove env p then (unlink_file p st, Ok tt) else (st, Raise OSError)
  end.

Definition groq_describe_for_folder (user_id image_path : string) : M string :=
  gets (fun st =>
    match read_file st (in_root user_id image_path) with
    | None => "uncategorised"
    | Some b =>
        match groq_reply env b with
        | Ok content => slug_of_reply content
        | Raise _ => "uncategorised"
        end
    end).

Definition _find_or_create_scene_person (user_id slug : string) : M person :=
  res ← gets (fun st =>
    filter (fun p => p_user_id p = user_id ∧ p_folder_name p = slug) (persons st));
  match res with
  | p :: _ => mret p
  | [] =>
      pid ← uuid4_str;
      let row := Person pid user_id (title (underscores_to_spaces slug)) slug None in
      modify (set_persons (fun ps => ps ++ [row]));;
      folder_disk user_id slug;;
      mret row
  end.

Definition extract_embeddings (user_id image_path : string) : M (list face) :=
  gets (fun st =>
    match read_file st (in_root user_id image_path) with
    | None => []
    | Some b =>
        match deepface_represent env b with
        | Ok faces => faces
        | Raise _ => []
        end
    end).

Definition find_matching_person (user_id : string) (embedding : list float)
  : M (option person) := fun st =>
  (st, best_match (filter (fun p => p_user_id p = user_id) (persons st)) embedding).

Definition create_face_person (user_id : string) (embedding : list float) : M person :=
  pid ← uuid4_str;
  let fname := "person_" +:+ str_of (take 8 (chars_of pid)) in
  let row := Person pid user_id "Unknown" fname (Some (EmbDict (Some embedding))) in
  modify (set_persons (fun ps => ps ++ [row]));;
  folder_disk user_id fname;;
  mret row.

(** [find_matching_person(user_id, emb) or create_face_person(user_id, emb)]:
    a row is a non-empty dictionary, hence true. *)
Definition resolve_person (user_id : string) (emb : list float) : M person :=
  found ← find_matching_person user_id emb;
  match found with
  | Some p => mret p
  | None => create_face_person user_id emb
  end.

Definition _copy_to_folder (user_id folder_name src filename : string) : M unit :=
  folder_disk user_id folder_name;;
  present ← gets (fun st => isfile st (in_folder user_id folder_name filename));
  if present : bool then mret tt
  else shutil_copy2 (in_root user_id src) (in_folder user_id folder_name filename).

Definition _link (photo_id person_id : string) : M unit :=
  modify (set_photo_persons (fun l => l ++ [PhotoPerson photo_id person_id])).

(** The [for face in faces] loop of [process_uploaded_image], from the
    current [seen] and [result["persons"]]. *)
Fixpoint face_loop (user_id image_path filename photo_id : string) (faces : list face)
  (seen : gset string) (attached : list person_ref) : M (list person_ref) :=
  match faces with
  | [] => mret attached
  | f :: rest =>
      match default [] (face_embedding f) with
      | [] => face_loop user_id image_path filename photo_id rest seen attached
      | emb =>
          person ← resolve_person user_id emb;
          if decide (p_id person ∈ seen)
          then face_loop user_id image_path filename photo_id rest seen attached
          else
            _copy_to_folder user_id (p_folder_name person) image_path filename;;
            _link photo_id (p_id person);;
            face_loop user_id image_path filename photo_id rest
                      ({[p_id person]} ∪ seen) (attached ++ [person_ref_of person])
      end
  end.

(** [image_path] names the uploaded file inside the user's upload root,
    where the route saved it. *)
Definition process_uploaded_image (user_id image_path filename : string) : M result :=
  photo_id ← uuid4_str;
  modify (set_photos (fun l => l ++ [Photo photo_id user_id filename filename]));;
  faces ← extract_embeddings user_id image_path;
  match faces with
  | _ :: _ =>
      attached ← face_loop user_id image_path filename photo_id faces ∅ [];
      mret (Result filename (List.length faces) attached photo_id deepface)
  | [] =>
      slug ← groq_describe_for_folder user_id image_path;
      person ← _find_or_create_scene_person user_id slug;
      _copy_to_folder user_id (p_folder_name person) image_path filename;;
      _link photo_id (p_id person);;
      mret (Result filename 0 [person_ref_of person] photo_id groq_vision)
  end.

(** The loop [for pid in photo_ids] of [delete_folder]: a photo with no
    remaining link loses its row. *)
Fixpoint delete_unlinked (photo_ids : list string) : M unit :=
  match photo_ids with
  | [] => mret tt
  | pid :: rest =>
      remaining ← gets (fun st => filter (fun r => pp_photo_id r = pid) (photo_persons st));
      match remaining with
      | [] => modify (set_photos (filter (fun ph => ph_id ph ≠ pid)))
      | _ :: _ => mret tt
      end;;
      delete_unlinked rest
  end.

Definition delete_folder (person_id user_id : string) : M bool :=
  res ← gets (fun st =>
    filter (fun p => p_id p = person_id ∧ p_user_id p = user_id) (persons st));
  match res with
  | [] => mret false
  | p :: _ =>
      let fname := p_folder_name p in
      pp_rows ← gets (fun st => filter (fun r => pp_person_id r = person_id) (photo_persons st));
      let photo_ids := map pp_photo_id pp_rows in
      modify (set_photo_persons (filter (fun r => pp_person_id r ≠ person_id)));;
      delete_unlinked photo_ids;;
      modify (set_persons (filter (fun q => p_id q ≠ person_id)));;
      (* shutil.rmtree(..., ignore_errors=True) *)
      modify (set_folders (delete (user_id, fname)));;
      mret true
  end.

(** The loop [for ph in photos_rows] of [delete_photo_from_folder]. *)
Fixpoint unlink_photos (photos_rows : list photo) (person_id : string) : M unit :=
  match photos_rows with
  | [] => mret tt
  | ph :: rest =>
      modify (set_photo_persons
                (filter (fun r => ¬ (pp_photo_id r = ph_id ph ∧ pp_person_id r = person_id))));;
      remaining ← gets (fun st =>
        filter (fun r => pp_photo_id r = ph_id ph) (photo_persons st));
      match remaining with
      | [] => modify (set_photos (filter (fun q => ph_id q ≠ ph_id ph)))
      | _ :: _ => mret tt
      end;;
      unlink_photos rest person_id
  end.

Definition delete_photo_from_folder (person_id user_id filename : string) : M bool :=
  res ← gets (fun st =>
    filter (fun p => p_id p = person_id ∧ p_user_id p = user_id) (persons st));
  match res with
  | [] => mret false
  | p :: _ =>
      folder_disk user_id (p_folder_name p);;
      let fpath := in_folder user_id (p_folder_name p) filename in
      removed ← try_except
        (present ← gets (fun st => isfile st fpath);
         (if present : bool then os_remove fpath else mret tt);;
         mret true)
        (fun _ => mret false);
      if removed : bool then
        photos_rows ← gets (fun st =>
          filter (fun ph => ph_user_id ph = user_id ∧ ph_filename ph = filename) (photos st));
        unlink_photos photos_rows person_id;;
        mret true
      else mret false
  end.

Definition move_photo_to_folder (user_id src_person_id dest_person_id filename : string)
  (keep_in_source : bool) : M bool :=
  src_res ← gets (fun st =>
    filter (fun p => p_id p = src_person_id ∧ p_user_id p = user_id) (persons st));
  dest_res ← gets (fun st =>
    filter (fun p => p_id p = dest_person_id ∧ p_user_id p = user_id) (persons st));
  match src_res, dest_res with
  | src :: _, dest :: _ =>
      folder_disk user_id (p_folder_name src);;
      folder_disk user_id (p_folder_name dest);;
      let src_file := in_folder user_id (p_folder_name src) filename in
      let dst_file := in_folder user_id (p_folder_name dest) filename in
      present ← gets (fun st => isfile st src_file);
      if present : bool then
        shutil_copy2 src_file dst_file;;
        (if keep_in_source then mret tt else os_remove src_file);;
        found ← gets (fun st =>
          filter (fun ph => ph_user_id ph = user_id ∧ ph_filename ph = filename) (photos st));
        match found with
        | ph :: _ =>
            let pid := ph_id ph in
            linked ← gets (fun st =>
              filter (fun r => pp_photo_id r = pid ∧ pp_person_id r = dest_person_id)
                     (photo_persons st));
            match linked with
            | [] => modify (set_photo_persons (fun l => l ++ [PhotoPerson pid dest_person_id]))
            | _ :: _ => mret tt
            end;;
            (if keep_in_source then mret tt
             else modify (set_photo_persons
                    (filter (fun r => ¬ (pp_photo_id r = pid ∧ pp_person_id r = src_person_id)))));;
            mret true
        | [] => mret true
        end
      else mret false
  | _, _ => mret false
  end.

(** ** Email *)

Definition str_of_exn (e : exn) : string :=
  match e with
  | ValueError => "ValueError"
  | FileNotFoundError => "FileNotFoundError"
  | SameFileError => "SameFileError"
  | OSError => "OSError"
  | SMTPException => "SMTPException"
  end.

Definition _log_delivery (user_id person_id recipient : string) (count : nat)
  (status message : string) : M unit :=
  modify (set_delivery_history
            (fun l => l ++ [Delivery user_id person_id recipient count status message])).

(** The loop [for fp in files[:10]] of [send_photos_by_email], from the
    current message and [attached]; a file that cannot be read is skipped. *)
Fixpoint attach_files (st : State) (user_id folder_name : string) (files : list string)
  (msg : email) (attached : nat) : email * nat :=
  match files with
  | [] => (msg, attached)
  | f :: rest =>
      let fp := in_folder user_id folder_name f in
      match (if may_read env fp then read_file st fp else None) with
      | Some b =>
          attach_files st user_id folder_name rest
            (Email (e_to msg) (e_person_name msg) (e_custom_message msg) (e_announced msg)
                   (e_attachments msg ++ [(f, b)]))
            (S attached)
      | None => attach_files st user_id folder_name rest msg attached
      end
  end.

Definition send_photos_by_email (user_id person_id recipient_email custom_message : string)
  : M send_result :=
  res ← gets (fun st => filter (fun p => p_id p = person_id) (persons st));
  match res with
  | [] => mret (SendFailure "Person not found")
  | person :: _ =>
      folder_disk user_id (p_folder_name person);;
      files ← gets (fun st => list_images st user_id (p_folder_name person));
      match files with
      | [] => mret (SendFailure "No photos found")
      | _ :: _ =>
          let msg0 := Email recipient_email (p_name person) custom_message
                            (List.length files) [] in
          '(msg, attached) ← gets (fun st =>
             attach_files st user_id (p_folder_name person) (take 10 files) msg0 0);
          match smtp_sendmail env msg with
          | Raise e =>
              _log_delivery user_id person_id recipient_email attached "failed" (str_of_exn e);;
              mret (SendFailure (str_of_exn e))
          | Ok _ =>
              modify (set_outbox (fun l => l ++ [msg]));;
              _log_delivery user_id person_id recipient_email attached "sent" "";;
              mret (SendSuccess attached)
          end
      end
  end.

(** ** The upload route of routes.py *)

(** [file.save(temp)] *)
Definition save_upload (file : upload) (temp : path) : M unit := fun st =>
  if may_write env temp then (write_file temp (up_content file) st, Ok tt)
  else (st, Raise OSError).

(** The loop [for file in files] of [upload_photo], from the current
    [count] and [faces]. *)
Fixpoint upload_loop (uid : string) (files : list upload) (count faces : nat)
  : M (nat * nat) :=
  match files with
  | [] => mret (count, faces)
  | file :: rest =>
      if String.eqb (up_filename file) "" then upload_loop uid rest count faces
      else if negb (allowed_file (up_filename file)) then
        modify (set_flashed (fun l => l ++ [FlashSkipped (up_filename file)]));;
        upload_loop uid rest count faces
      else
        h ← uuid4_hex;
        let safe := h +:+ "_" +:+ secure_filename env (up_filename file) in
        save_upload file (in_root uid safe);;
        r ← process_uploaded_image uid safe safe;
        upload_loop uid rest (count + 1) (faces + r_faces_detected r)
  end.

Definition upload_photo (uid : string) (files : list upload) : M unit :=
  '(count, faces) ← upload_loop uid files 0 0;
  match count with
  | 0 => modify (set_flashed (fun l => l ++ [FlashNoValidFiles]))
  | _ => modify (set_flashed (fun l => l ++ [FlashUploaded count faces]))
  end.

End Service.

(** * The rest of service.py: names, listings, folders and the dashboard *)

(** ** Names *)

Definition is_hyphen (c : ascii) : bool := (code c =? 45)%N.

(** The class [[\w\s-]]: what the first substitution of [slugify] keeps. *)
Definition is_slug_source (c : ascii) : bool := is_word c || is_space c || is_hyphen c.

(** The class [[\s_-]]: whitespace, underscore and hyphen. *)
Definition is_separator (c : ascii) : bool := is_space c || is_underscore c || is_hyphen c.

(** [re.sub(r"[^\w\s-]", "", s)] *)
Definition drop_punctuation (l : list ascii) : list ascii := List.filter is_slug_source l.

(** [re.sub(r"[\s_-]+", "_", s)]: every maximal run of separators becomes
    one underscore; [in_run] tells that the previous character was one. *)
Fixpoint collapse_separators (in_run : bool) (l : list ascii) : list ascii :=
  match l with
  | [] => []
  | c :: l' =>
      if is_separator c
      then (if in_run then collapse_separators true l'
            else underscore :: collapse_separators true l')
      else c :: collapse_separators false l'
  end.

(** [slugify], with the ASCII classes of the model: what is stated of it
    is stated of ASCII text. *)
Definition slugify (text : string) : string :=
  let text1 := drop_punctuation (chars_of (strip (lower text))) in
  let slug := str_of (strip_by is_underscore (take 40 (collapse_separators false text1))) in
  if String.eqb slug "" then "folder" else slug.

Definition make_url (user_id folder_name filename : string) : string :=
  "/static/uploads/" +:+ user_id +:+ "/" +:+ folder_name +:+ "/" +:+ filename.

(** [filename.rsplit(".", 1)[-1]]: what follows the last dot, and the whole
    name when it has none. *)
Definition last_component (l : list ascii) : list ascii := default l (after_last_dot l).

Definition mime_types : gmap string string :=
  list_to_map [("jpg", "image/jpeg"); ("jpeg", "image/jpeg"); ("png", "image/png");
               ("webp", "image/webp"); ("gif", "image/gif")].

Definition _mime (filename : string) : string :=
  let ext := lower (str_of (last_component (chars_of filename))) in
  default "image/jpeg" (mime_types !! ext).

(** ** Sorting

    [list.sort(key=...)] and [ORDER BY] on a numeric key, as a stable
    insertion sort: elements of equal key keep their order. *)
Fixpoint insert_on {A : Type} (key : A -> Z) (x : A) (l : list A) : list A :=
  match l with
  | [] => [x]
  | y :: l' => if (key x <=? key y)%Z then x :: l else y :: insert_on key x l'
  end.

Definition sort_on {A : Type} (key : A -> Z) (l : list A) : list A :=
  foldr (insert_on key) [] l.

(** ** What the listings return *)

(** A row of [get_all_persons]: the selected columns with [photo_count] and
    [preview]. *)
Record person_card : Type := PersonCard {
  pc_id : string;
  pc_name : string;
  pc_folder_name : string;
  pc_photo_count : nat;
  pc_preview : option string
}.

(** An element of [get_person_photos]. *)
Record photo_entry : Type := PhotoEntry {
  pe_url : string;
  pe_filename : string;
  pe_person_name : string;
  pe_person_id : string;
  pe_folder_name : string
}.

(** An element of [all_imgs] in [get_dashboard_stats]. *)
Record recent_photo : Type := RecentPhoto {
  rp_filename : string;
  rp_url : string;
  rp_folder_name : string;
  rp_person_name : string;
  rp_mtime : Z
}.

Record dashboard_stats : Type := Stats {
  total_photos : nat;
  total_persons : nat;
  total_deliveries : nat;
  recent_photos : list recent_photo
}.

(** The clocks: the [created_at] the database gave the row of a group,
    by the id of the row, and [os.path.getmtime], [None] when it raises
    [OSError].  Times are integers that order as the time stamps do. *)
Record Clock : Type := MkClock {
  created_at : string -> Z;
  getmtime : path -> option Z
}.

(** [res.data] of the update in [rename_person]: the row with its new name. *)
Definition with_name (new_name : string) (p : person) : person :=
  Person (p_id p) (p_user_id p) new_name (p_folder_name p) (p_embedding p).

Section Management.
Variable env : Env.
Variable clock : Clock.

(** The loop [for p in rows] of [get_all_persons]. *)
Fixpoint fill_cards (user_id : string) (rows : list person) : M (list person_card) :=
  match rows with
  | [] => mret []
  | p :: rest =>
      folder_disk user_id (p_folder_name p);;
      imgs ← gets (fun st => list_images st user_id (p_folder_name p));
      let card := PersonCard (p_id p) (p_name p) (p_folder_name p) (List.length imgs)
                             (make_url user_id (p_folder_name p) <$> head imgs) in
      cards ← fill_cards user_id rest;
      mret (card :: cards)
  end.

Definition get_all_persons (user_id : string) : M (list person_card) :=
  rows ← gets (fun st =>
    sort_on (fun p => created_at clock (p_id p))
            (filter (fun p => p_user_id p = user_id) (persons st)));
  fill_cards user_id rows.

Definition get_person_photos (person_id user_id : string) : M (list photo_entry) :=
  res ← gets (fun st =>
    filter (fun p => p_id p = person_id ∧ p_user_id p = user_id) (persons st));
  match res with
  | [] => mret []
  | p :: _ =>
      folder_disk user_id (p_folder_name p);;
      imgs ← gets (fun st => list_images st user_id (p_folder_name p));
      mret (map (fun f => PhotoEntry (make_url user_id (p_folder_name p) f) f (p_name p)
                                     person_id (p_folder_name p)) imgs)
  end.

Definition rename_person (person_id user_id new_name : string) : M bool :=
  res ← gets (fun st =>
    map (with_name new_name)
        (filter (fun p => p_id p = person_id ∧ p_user_id p = user_id) (persons st)));
  modify (set_persons (map (fun p =>
    if decide (p_id p = person_id ∧ p_user_id p = user_id) then with_name new_name p else p)));;
  mret (bool_decide (res ≠ [])).

Definition create_folder (user_id display_name : string) : M person :=
  let slug0 := slugify display_name in
  taken ← gets (fun st =>
    filter (fun p => p_user_id p = user_id ∧ p_folder_name p = slug0) (persons st));
  slug ← match taken with
         | _ :: _ => h ← uuid4_hex env; mret (slug0 +:+ "_" +:+ str_of (take 4 (chars_of h)))
         | [] => mret slug0
         end;
  pid ← uuid4_str env;
  let row := Person pid user_id display_name slug None in
  modify (set_persons (fun ps => ps ++ [row]));;
  folder_disk user_id slug;;
  mret row.

(** The loop [for fname in list_images(fdir)] of [get_dashboard_stats], from
    the current [all_imgs] and [seen_filenames]. *)
Fixpoint scan_images (user_id : string) (p : person) (imgs : list string)
  (all_imgs : list recent_photo) (seen_filenames : gset string)
  : list recent_photo * gset string :=
  match imgs with
  | [] => (all_imgs, seen_filenames)
  | fname :: rest =>
      let mtime := default 0%Z (getmtime clock (in_folder user_id (p_folder_name p) fname)) in
      scan_images user_id p rest
        (all_imgs ++ [RecentPhoto fname (make_url user_id (p_folder_name p) fname)
                                  (p_folder_name p) (p_name p) mtime])
        ({[fname]} ∪ seen_filenames)
  end.

(** The loop [for p in persons] of [get_dashboard_stats]. *)
Fixpoint scan_folders (user_id : string) (ps : list person)
  (all_imgs : list recent_photo) (seen_filenames : gset string)
  : M (list recent_photo * gset string) :=
  match ps with
  | [] => mret (all_imgs, seen_filenames)
  | p :: rest =>
      folder_disk user_id (p_folder_name p);;
      imgs ← gets (fun st => list_images st user_id (p_folder_name p));
      let '(all_imgs', seen') := scan_images user_id p imgs all_imgs seen_filenames in
      scan_folders user_id rest all_imgs' seen'
  end.

Definition get_dashboard_stats (user_id : string) : M dashboard_stats :=
  n_persons ← gets (fun st =>
    List.length (filter (fun p => p_user_id p = user_id) (persons st)));
  n_deliveries ← gets (fun st =>
    List.length (filter (fun d => d_user_id d = user_id) (delivery_history st)));
  ps ← gets (fun st => filter (fun p => p_user_id p = user_id) (persons st));
  '(all_imgs, seen_filenames) ← scan_folders user_id ps [] ∅;
  (* all_imgs.sort(key=lambda x: x["mtime"], reverse=True) *)
  let sorted := sort_on (fun x => (- rp_mtime x)%Z) all_imgs in
  mret (Stats (size seen_filenames) n_persons n_deliveries (take 8 sorted)).

End Management.

(** * The assistant of service.py *)

(** An entry of [messages]: a role and a text. *)
Record message : Type := Message { msg_role : string; msg_content : string }.

(** What the assistant does not own: the language model, the JSON parser
    and the pattern matching of the database.  The text handed to
    [json.loads] begins with an opening brace, so what it parses is an
    object; the values of an action are taken to be strings, as the prompt
    asks for them. *)
Record Assistant : Type := MkAssistant {
  groq_chat : list message -> outcome string;   (* resp.choices[0].message.content *)
  json_loads : string -> outcome (gmap string string);
  ilike : string -> string -> bool              (* value ILIKE pattern *)
}.

(** The dictionary [chat_with_assistant] returns. *)
Record chat_response : Type := ChatResponse {
  cr_reply : string;
  cr_action : option (gmap string string);
  cr_photos : list photo_entry;
  cr_folders : list person_card
}.

Definition dq : string := String (ascii_of_nat 34) "".
Definition nl : string := String (ascii_of_nat 10) "".

(** [sep.join(lines)] *)
Fixpoint join (sep : string) (lines : list string) : string :=
  match lines with
  | [] => ""
  | [l] => l
  | l :: rest => l +:+ sep +:+ join sep rest
  end.

(** [a or b] on strings. *)
Definition or_str (a b : string) : string := if String.eqb a "" then b else a.

(** [s.rfind(c)] for a one-character [c]: the last index of [c] in [l],
    counted from [i], with the last one [found] so far. *)
Fixpoint rfind_from (c : ascii) (l : list ascii) (i : nat) (found : option nat) : option nat :=
  match l with
  | [] => found
  | x :: l' => rfind_from c l' (S i) (if Ascii.eqb x c then Some i else found)
  end.

Definition rfind (c : ascii) (l : list ascii) : option nat := rfind_from c l 0 None.

(** [history[-n:]] for a positive [n]. *)
Definition last_messages (n : nat) (history : list message) : list message :=
  drop (List.length history - n) history.

Definition prompt_line (p : person_card) : string :=
  "  • " +:+ dq +:+ pc_name p +:+ dq +:+ "  folder=" +:+ pc_folder_name p
  +:+ "  (" +:+ pretty (pc_photo_count p) +:+ " photos)".

Definition action_template (fields : list (string * string)) : string :=
  "{" +:+ join "," (map (fun kv => dq +:+ fst kv +:+ dq +:+ ":" +:+ dq +:+ snd kv +:+ dq) fields)
  +:+ "}".

Definition system_prompt (cards : list person_card) : string :=
  let lines := map prompt_line cards in
  let block := match lines with
               | [] => "  (no folders yet)"
               | _ :: _ => join nl lines
               end in
  join nl
    ["You are Drishyamitra AI, a smart photo management assistant.";
     "";
     "Current folders:";
     block;
     "";
     "ACTIONS — put JSON on the LAST line of your reply:";
     "";
     action_template [("action", "show_photos"); ("person_name", "<name>")];
     action_template [("action", "list_folders")];
     action_template [("action", "send_email"); ("person_name", "<n>");
                      ("recipient", "<email>")];
     action_template [("action", "rename_person"); ("old_name", "<n>");
                      ("new_name", "<new>")];
     "";
     "Match names case-insensitively. For general questions answer directly without JSON. Be warm and concise.";
     ""].

(** The messages sent to the model. *)
Definition chat_messages (prompt : string) (history : list message) (user_message : string)
  : list message :=
  [Message "system" prompt] ++ last_messages 10 history ++ [Message "user" user_message].

Section Chat.
Variable env : Env.
Variable clock : Clock.
Variable assistant : Assistant.

Definition _build_system_prompt (user_id : string) : M string :=
  persons ← get_all_persons clock user_id;
  mret (system_prompt persons).

Definition _find_person_by_name (user_id name : string) : M (option person) :=
  if String.eqb name "" then mret None
  else gets (fun st =>
         head (filter (fun p => p_user_id p = user_id ∧
                                ilike assistant (p_name p) ("%" +:+ name +:+ "%") = true)
                      (persons st))).

(** The branches on [act]: what they leave in [photos], [folders] and
    [plain]. *)
Definition run_action (user_id : string) (action_data : gmap string string) (plain : string)
  : M (list photo_entry * list person_card * string) :=
  let act := action_data !! "action" in
  if decide (act = Some "show_photos") then
    person ← _find_person_by_name user_id (default "" (action_data !! "person_name"));
    match person with
    | Some p =>
        photos ← get_person_photos (p_id p) user_id;
        mret (photos, [], or_str plain ("Here are the photos of **" +:+ p_name p +:+ "**:"))
    | None => mret ([], [], "Couldn't find that person. Check People & Folders.")
    end
  else if decide (act = Some "list_folders") then
    persons ← get_all_persons clock user_id;
    mret ([], persons,
          or_str plain ("You have **" +:+ pretty (List.length persons) +:+ "** folder(s):"))
  else if decide (act = Some "send_email") then
    person ← _find_person_by_name user_id (default "" (action_data !! "person_name"));
    let recip := default "" (action_data !! "recipient") in
    match person with
    | Some p =>
        if String.eqb recip "" then
          mret ([], [], "Provide a valid person name and recipient email.")
        else
          r ← send_photos_by_email env user_id (p_id p) recip "";
          mret ([], [],
                match r with
                | SendSuccess photos_sent =>
                    "✅ Sent **" +:+ pretty photos_sent +:+ "** photo(s) to **" +:+ recip
                    +:+ "**!"
                | SendFailure error => "❌ Failed: " +:+ error
                end)
    | None => mret ([], [], "Provide a valid person name and recipient email.")
    end
  else if decide (act = Some "rename_person") then
    person ← _find_person_by_name user_id (default "" (action_data !! "old_name"));
    let new := default "" (action_data !! "new_name") in
    match person with
    | Some p =>
        if String.eqb new "" then mret ([], [], "Could not find that person.")
        else
          rename_person (p_id p) user_id new;;
          mret ([], [], "✅ Renamed to **" +:+ new +:+ "**!")
    | None => mret ([], [], "Could not find that person.")
    end
  else mret ([], [], plain).

Definition chat_with_assistant (user_id user_message : string) (history : list message)
  : M chat_response :=
  prompt ← _build_system_prompt user_id;
  match groq_chat assistant (chat_messages prompt history user_message) with
  | Raise _ => mret (ChatResponse "Sorry, an error occurred." None [] [])
  | Ok content =>
      let reply := strip content in
      let chars := chars_of reply in
      match rfind "}" chars with
      | None => mret (ChatResponse reply None [] [])
      | Some last =>
          match rfind "{" (take (last + 1) chars) with
          | None => mret (ChatResponse reply None [] [])
          | Some first =>
              match json_loads assistant
                      (str_of (take (last + 1 - first) (drop first chars))) with
              | Raise _ => mret (ChatResponse reply None [] [])
              | Ok action_data =>
                  let plain := or_str (strip (str_of (take first chars)))
                                      (strip (str_of (drop (last + 1) chars))) in
                  '(photos, folders, plain') ←
                    try_except (run_action user_id action_data plain)
                               (fun _ => mret ([], [], reply));
                  mret (ChatResponse (or_str plain' reply) (Some action_data) photos folders)
              end
          end
      end
  end.

End Chat.

(** * Vocabulary of the properties *)

(** [s] is the similarity [find_matching_person] computes for the row [p]:
    the row has a stored vector and its cosine with [e] is [s]. *)
Definition similarity_of (e : list float) (p : person) (s : float) : Prop :=
  ∃ v, stored_vector p = Some v ∧ cosine_similarity e v = Ok s.

(** The rows of one owner: [.eq("user_id", user_id)]. *)
Definition persons_of (st : State) (user_id : string) : list person :=
  filter (fun p => p_user_id p = user_id) (persons st).

(** The row [create_face_person] inserts when the next identifier is [pid]. *)
Definition new_face_person (pid user_id : string) (e : list float) : person :=
  Person pid user_id "Unknown" ("person_" +:+ str_of (take 8 (chars_of pid)))
         (Some (EmbDict (Some e))).

(** The characters a slug is made of: lower-case letters, digits, underscore. *)
Definition is_slug_char (c : ascii) : bool :=
  in_range 48 57 c || in_range 97 122 c || is_underscore c.




(** The membership links of one photo: [.eq("photo_id", pid)]. *)
Definition links_of (st : State) (pid : string) : list photo_person :=
  filter (fun r => pp_photo_id r = pid) (photo_persons st).

(** The three tables of the index are the same in both states. *)
Definition same_tables (st st' : State) : Prop :=
  persons st' = persons st ∧ photos st' = photos st ∧ photo_persons st' = photo_persons st.

(** Every folder holds the same files in both states (a folder created
    empty holds the files of a folder that does not exist: none). *)
Definition same_files (st st' : State) : Prop :=
  root_files st' = root_files st ∧ ∀ u f, dir_of st' u f = dir_of st u f.

(** From [st] to [st'] the folders only gained files named [filename], in
    places where no file of that name was. *)
Definition files_grow (filename : string) (st st' : State) : Prop :=
  root_files st' = root_files st ∧
  ∀ u f, dir_of st' u f = dir_of st u f ∨
         (dir_of st u f !! filename = None ∧
          ∃ b, dir_of st' u f = <[filename := b]> (dir_of st u f)).

(** The row [_find_or_create_scene_person] inserts when the next identifier
    is [pid]. *)
Definition new_scene_person (pid user_id slug : string) : person :=
  Person pid user_id (title (underscores_to_spaces slug)) slug None.

#[global] Instance photo_person_eq_dec : EqDecision photo_person.
Proof. solve_decision. Defined.

(** The links between one photo and one group. *)
Definition links_to (st : State) (pid gid : string) : list photo_person :=
  filter (fun r => pp_photo_id r = pid ∧ pp_person_id r = gid) (photo_persons st).

(** The photo [pid] has links, and all of them go to the group [gid]. *)
Definition only_linked_to (st : State) (pid gid : string) : Prop :=
  links_of st pid ≠ [] ∧ Forall (fun r => pp_person_id r = gid) (links_of st pid).

#[global] Instance only_linked_to_dec st pid gid : Decision (only_linked_to st pid gid).
Proof. unfold only_linked_to. apply _. Defined.

(** Every row of [photos] has at least one membership link. *)
Definition no_orphans (st : State) : Prop :=
  ∀ ph, ph ∈ photos st → links_of st (ph_id ph) ≠ [].

(** From [st] to [st'] no photo row appeared, and a row that is still there
    and had a link still has one. *)
Definition keeps_linked (st st' : State) : Prop :=
  ∀ ph, ph ∈ photos st' →
        ph ∈ photos st ∧ (links_of st (ph_id ph) ≠ [] → links_of st' (ph_id ph) ≠ []).

(** One deletion or move, whatever its arguments and its outcome. *)
Inductive maintenance_step (env : Env) (st st' : State) : Prop :=
| step_delete_photo (person_id user_id filename : string) (out : outcome bool) :
    delete_photo_from_folder env person_id user_id filename st = (st', out) →
    maintenance_step env st st'
| step_delete_folder (person_id user_id : string) (out : outcome bool) :
    delete_folder person_id user_id st = (st', out) →
    maintenance_step env st st'
| step_move_photo (user_id src_person_id dest_person_id filename : string)
    (keep_in_source : bool) (out : outcome bool) :
    move_photo_to_folder env user_id src_person_id dest_person_id filename keep_in_source st
    = (st', out) →
    maintenance_step env st st'.

(** [move_photo_to_folder] on the links: a link from the photo to the
    destination group is inserted when there is none, and the links from the
    photo to the source group are deleted unless the source keeps its copy. *)
Definition ensure_link (pid gid : string) (l : list photo_person) : list photo_person :=
  match filter (fun r => pp_photo_id r = pid ∧ pp_person_id r = gid) l with
  | [] => l ++ [PhotoPerson pid gid]
  | _ :: _ => l
  end.

Definition remove_link (pid gid : string) (l : list photo_person) : list photo_person :=
  filter (fun r => ¬ (pp_photo_id r = pid ∧ pp_person_id r = gid)) l.

Definition moved_links (st : State) (user_id src_person_id dest_person_id filename : string)
  (keep_in_source : bool) : list photo_person :=
  match filter (fun ph => ph_user_id ph = user_id ∧ ph_filename ph = filename) (photos st) with
  | [] => photo_persons st
  | ph :: _ =>
      let l := ensure_link (ph_id ph) dest_person_id (photo_persons st) in
      if keep_in_source then l else remove_link (ph_id ph) src_person_id l
  end.

(** What [send_photos_by_email] attaches for the listed file [f]: its name
    and bytes, when the file can be read. *)
Definition readable_file (env : Env) (st : State) (user_id folder_name f : string)
  : option (string * Bytes) :=
  if may_read env (in_folder user_id folder_name f)
  then (fun b => (f, b)) <$> read_file st (in_folder user_id folder_name f)
  else None.

(** The name [upload_photo] stores an upload under, when [n] identifiers
    were drawn before. *)
Definition safe_name (env : Env) (n : nat) (file : upload) : string :=
  uuid_hex env n +:+ "_" +:+ secure_filename env (up_filename file).

(** The stored vectors have the dimension of the input: embeddings are
    vectors of one fixed dimension ([np.dot] raises otherwise). *)
Definition same_dimension (e : list float) (ps : list person) : Prop :=
  ∀ p v, p ∈ ps → stored_vector p = Some v → List.length v = List.length e.

(** No two underscores stand next to each other. *)
Fixpoint no_adjacent_underscores (l : list ascii) : bool :=
  match l with
  | [] => true
  | c :: l' =>
      match l' with
      | [] => true
      | d :: _ => negb (is_underscore c && is_underscore d) && no_adjacent_underscores l'
      end
  end.

(** The text is made of ASCII characters.  There the classes [\w] and [\s]
    and the methods [lower] and [strip] of the model are Python's; on other
    text Python's are the Unicode ones. *)
Definition is_ascii (s : string) : Prop :=
  Forall (fun c => (code c <? 128)%N = true) (chars_of s).

(** A folder key as [slugify] makes them: not empty, at most 40 characters,
    lower-case letters, digits and single underscores, none at either end. *)
Definition clean_slug (s : string) : Prop :=
  s ≠ "" ∧ (String.length s ≤ 40)%nat ∧
  Forall (fun c => is_slug_char c = true) (chars_of s) ∧
  head (chars_of s) ≠ Some underscore ∧ last (chars_of s) ≠ Some underscore ∧
  no_adjacent_underscores (chars_of s) = true.

(** From [st] to [st'] nothing happened but [os.makedirs]: some folders
    that did not exist were created, empty. *)
Definition made_directories (st st' : State) : Prop :=
  persons st' = persons st ∧ photos st' = photos st ∧
  photo_persons st' = photo_persons st ∧ delivery_history st' = delivery_history st ∧
  root_files st' = root_files st ∧ uuid_drawn st' = uuid_drawn st ∧
  flashed st' = flashed st ∧ outbox st' = outbox st ∧
  ∀ k, folders st' !! k = folders st !! k ∨
       (folders st !! k = None ∧ folders st' !! k = Some ∅).

(** The card [get_all_persons] shows for the row [p], on the disk of [st]. *)
Definition card_of (st : State) (user_id : string) (p : person) : person_card :=
  let imgs := list_images st user_id (p_folder_name p) in
  PersonCard (p_id p) (p_name p) (p_folder_name p) (List.length imgs)
             (make_url user_id (p_folder_name p) <$> head imgs).

(** The entry [get_person_photos] shows for the file [f] of the row [p]. *)
Definition entry_of (user_id person_id : string) (p : person) (f : string) : photo_entry :=
  PhotoEntry (make_url user_id (p_folder_name p) f) f (p_name p) person_id (p_folder_name p).

Definition entry_renamed (new_name : string) (e : photo_entry) : photo_entry :=
  PhotoEntry (pe_url e) (pe_filename e) new_name (pe_person_id e) (pe_folder_name e).

(** The entry of [all_imgs] for the file [fname] in the folder of [p]. *)
Definition recent_of (clock : Clock) (user_id : string) (p : person) (fname : string)
  : recent_photo :=
  RecentPhoto fname (make_url user_id (p_folder_name p) fname) (p_folder_name p) (p_name p)
              (default 0%Z (getmtime clock (in_folder user_id (p_folder_name p) fname))).

(** Every image of every folder of the owner's rows, row by row. *)
Definition all_images (clock : Clock) (st : State) (user_id : string) : list recent_photo :=
  concat (map (fun p => map (recent_of clock user_id p)
                            (list_images st user_id (p_folder_name p)))
              (persons_of st user_id)).

(** The folder keys of an owner's rows. *)
Definition folder_keys (st : State) (user_id : string) : list string :=
  map p_folder_name (persons_of st user_id).

(** The key [create_folder] gives a new folder: the slug of the display
    name, with four characters of a random identifier when the owner has a
    row with that key. *)
Definition new_folder_key (env : Env) (st : State) (user_id display_name : string) : string :=
  match filter (fun p => p_user_id p = user_id ∧ p_folder_name p = slugify display_name)
               (persons st) with
  | [] => slugify display_name
  | _ :: _ => slugify display_name +:+ "_"
              +:+ str_of (take 4 (chars_of (uuid_hex env (uuid_drawn st))))
  end.

(** Whatever the state it starts in, the computation [m] leaves a state
    related to it by [R], also when it raises. *)
Definition keeps {A : Type} (R : State -> State -> Prop) (m : M A) : Prop :=
  ∀ st, R st (fst (m st)).

(** The part [proj] of the state is the same in both states. *)
Definition same_on {B : Type} (proj : State -> B) (st st' : State) : Prop :=
  proj st' = proj st.

(** The uploads of a batch the route takes, and those it reports as skipped. *)
Definition accepted (files : list upload) : list upload :=
  filter (fun file => up_filename file ≠ "" ∧ allowed_file (up_filename file) = true) files.

Definition refused (files : list upload) : list upload :=
  filter (fun file => up_filename file ≠ "" ∧ allowed_file (up_filename file) = false) files.

(** The index and the files are the same in both states. *)
Definition same_index (st st' : State) : Prop := same_tables st st' ∧ same_files st st'.

(** From [st] to [st'] no photo, no link and no file changed, and the rows
    of the groups are the same ones, except that groups of [user_id] may
    have another display name. *)
Definition only_renamed (user_id : string) (st st' : State) : Prop :=
  photos st' = photos st ∧ photo_persons st' = photo_persons st ∧ same_files st st' ∧
  Forall2 (fun p p' => p_id p' = p_id p ∧ p_user_id p' = p_user_id p ∧
                       p_folder_name p' = p_folder_name p ∧
                       p_embedding p' = p_embedding p ∧
                       (p_user_id p ≠ user_id → p_name p' = p_name p))
          (persons st) (persons st').

(** * Concrete runs

    A small world to run the model in: identifiers that count up, models
    that give the same answer for every image, a disk that accepts what
    [writable] accepts, a mail server that accepts everything. *)

Definition demo_uuid_str (n : nat) : string :=
  pretty n +:+ "f3a9c2e-77aa-4c11-9e0d-5b2a6c1d0e9f".

Definition demo_uuid_hex (n : nat) : string :=
  pretty n +:+ "f3a9c2e77aa4c119e0d5b2a6c1d0e9f".

Definition demo_env (faces : list face) (reply : outcome string)
  (writable : path -> bool) : Env :=
  MkEnv demo_uuid_str demo_uuid_hex (fun _ => Ok faces) (fun _ => reply)
        (fun name => name) writable (fun _ => true) (fun _ => true) (fun _ => Ok tt).

Definition empty_state : State := MkState [] [] [] [] ∅ ∅ 0 [] [].

(** The state after the route saved an upload named [name] for user ["u"]. *)
Definition with_upload (name : string) (st : State) : State :=
  write_file (in_root "u" name) [Byte.x89; Byte.x50; Byte.x4e; Byte.x47] st.

Definition face_of (v : list float) : face := Face (Some v).

Definition alice : person :=
  Person "g-alice" "u" "Alice" "person_0a1b2c3d" (Some (EmbDict (Some [1; 0]%float))).

Definition bob : person :=
  Person "g-bob" "u" "Bob" "person_4e5f6a7b" (Some (EmbList [0; 1]%float)).

Definition beach : person :=
  Person "g-beach" "u" "Beach Sunset" "beach_sunset" None.

Definition png_bytes : Bytes := [Byte.x89; Byte.x50; Byte.x4e; Byte.x47].

(** Two face groups of user ["u"]; the photo [a.jpg] is in Alice's folder
    and linked to her. *)
Definition album_state : State :=
  MkState [alice; bob]
          [Photo "p1" "u" "a.jpg" "a.jpg"]
          [PhotoPerson "p1" "g-alice"]
          []
          (<[("u", "person_0a1b2c3d") := {["a.jpg" := png_bytes]}]>
             (<[("u", "person_4e5f6a7b") := ∅]> ∅))
          ∅ 0 [] [].

(** Alice is the only group of the photos [p1] and [p2], and one of the two
    groups of [p3]. *)
Definition shared_album_state : State :=
  MkState [alice; bob]
          [Photo "p1" "u" "1.jpg" "1.jpg"; Photo "p2" "u" "2.jpg" "2.jpg";
           Photo "p3" "u" "3.jpg" "3.jpg"]
          [PhotoPerson "p1" "g-alice"; PhotoPerson "p2" "g-alice";
           PhotoPerson "p3" "g-alice"; PhotoPerson "p3" "g-bob"]
          [] ∅ ∅ 0 [] [].

(** A disk on which nothing can be written below the folders of the groups. *)
Definition folders_read_only (p : path) : bool :=
  match p with
  | in_root _ _ => true
  | in_folder _ _ _ => false
  end.

(** Twelve pictures in Alice's folder; [07.jpg] cannot be read. *)
Definition twelve_names : list string :=
  ["01.jpg"; "02.jpg"; "03.jpg"; "04.jpg"; "05.jpg"; "06.jpg";
   "07.jpg"; "08.jpg"; "09.jpg"; "10.jpg"; "11.jpg"; "12.jpg"].

Definition twelve_pictures_state : State :=
  MkState [alice] [] [] []
          (<[("u", "person_0a1b2c3d") :=
               list_to_map (map (fun n => (n, png_bytes)) twelve_names)]> ∅)
          ∅ 0 [] [].

Definition unreadable_07 (p : path) : bool :=
  match p with
  | in_folder _ _ name => negb (String.eqb name "07.jpg")
  | in_root _ _ => true
  end.

(** The rows of [album_state] with nothing on the disk. *)
Definition bare_album_state : State := set_folders (fun _ => ∅) album_state.

(** [a.jpg] was uploaded twice: two photo rows, both linked to Alice. *)
Definition twice_uploaded_state : State :=
  set_photo_persons (fun _ => [PhotoPerson "p1" "g-alice"; PhotoPerson "p2" "g-alice"])
    (set_photos (fun _ => [Photo "p1" "u" "a.jpg" "a.jpg"; Photo "p2" "u" "a.jpg" "a.jpg"])
       album_state).

(** A file that is not a picture lies in Alice's folder. *)
Definition notes_state : State :=
  write_file (in_folder "u" "person_0a1b2c3d" "notes.txt") [Byte.x68; Byte.x69] album_state.

(** A clock that stamps everything with the same time. *)
Definition still_clock : Clock := MkClock (fun _ => 0%Z) (fun _ => Some 0%Z).

(** A disk and models that accept everything and see no face. *)
Definition plain_env : Env := demo_env [] (Ok "holiday") (fun _ => true).

(** The album with the scene group of the beach pictures. *)
Definition scenes_state : State := set_persons (fun ps => ps ++ [beach]) album_state.

(** A model that always gives the same reply, a parser that always finds
    the same action, and a database for which every name matches. *)
Definition demo_assistant (reply : string) (parsed : outcome (gmap string string))
  : Assistant :=
  MkAssistant (fun _ => Ok reply) (fun _ => parsed) (fun _ _ => true).

(** * Properties *)

(** ** The order of binary64 numbers

    The comparisons of primitive floats are specified by [SFcompare] on
    their decoded form; on numbers (everything but NaN) they are a total
    preorder. *)

Section FloatOrder.
Local Open Scope float_scope.

Lemma SFleb_trans x y z : SFleb x y = true → SFleb y z = true → SFleb x z = true.
Proof.
  unfold SFleb.
  destruct x as [sx|sx| |sx mx ex], y as [sy|sy| |sy my ey], z as [sz|sz| |sz mz ez]; simpl;
    repeat match goal with s : bool |- _ => destruct s end; simpl; try done.
  all: change (Pos.compare_cont Eq) with Pos.compare.
  all: destruct (Z.compare_spec ex ey), (Z.compare_spec ey ez), (Z.compare_spec ex ez);
    simpl; try done; try lia.
  all: destruct (Pos.compare_spec mx my), (Pos.compare_spec my mz), (Pos.compare_spec mx mz);
    simpl; try done; try lia.
Qed.

Lemma SFcompare_flip x y : SFcompare y x = CompOpp <$> SFcompare x y.
Proof.
  destruct x as [sx|sx| |sx mx ex], y as [sy|sy| |sy my ey]; simpl;
    repeat match goal with s : bool |- _ => destruct s end; simpl; try reflexivity.
  all: rewrite (Z.compare_antisym ex ey); destruct (ex ?= ey)%Z; simpl; try reflexivity.
  all: change (Pos.compare_cont Eq) with Pos.compare.
  all: rewrite (Pos.compare_antisym mx my); destruct (mx ?= my)%positive; reflexivity.
Qed.

Lemma SFcompare_self x : SFcompare x x = None ∨ SFcompare x x = Some Eq.
Proof.
  destruct x as [s|s| |s m e]; simpl; auto; destruct s; auto;
    rewrite Z.compare_refl; change (Pos.compare_cont Eq) with Pos.compare;
    rewrite Pos.compare_refl; auto.
Qed.

Lemma SFcompare_None x y :
  SFcompare x y = None → SFcompare x x = None ∨ SFcompare y y = None.
Proof.
  destruct x as [s|s| |s m e], y as [s'|s'| |s' m' e']; simpl; auto; discriminate.
Qed.

Lemma SFcompare_Some x y c :
  SFcompare x y = Some c → SFcompare x x = Some Eq ∧ SFcompare y y = Some Eq.
Proof.
  intros H. destruct (SFcompare_self x) as [Hx|Hx], (SFcompare_self y) as [Hy|Hy]; auto.
  all: destruct x as [s|s| |s m e], y as [s'|s'| |s' m' e']; simpl in *; discriminate.
Qed.

Lemma is_nan_false x : is_nan x = false ↔ SFcompare (Prim2SF x) (Prim2SF x) = Some Eq.
Proof.
  unfold is_nan. rewrite FloatAxioms.eqb_spec. unfold SFeqb.
  destruct (SFcompare_self (Prim2SF x)) as [->| ->]; simpl; split; congruence.
Qed.

Lemma ltb_leb x y : (x <? y) = true → (x <=? y) = true.
Proof.
  rewrite FloatAxioms.ltb_spec, FloatAxioms.leb_spec. unfold SFltb, SFleb.
  destruct (SFcompare _ _) as [[]|]; congruence.
Qed.

Lemma ltb_number x y : (x <? y) = true → is_nan x = false ∧ is_nan y = false.
Proof.
  rewrite FloatAxioms.ltb_spec, !is_nan_false. unfold SFltb.
  destruct (SFcompare _ _) as [c|] eqn:E; [|discriminate].
  intros _. exact (SFcompare_Some _ _ _ E).
Qed.

Lemma leb_number x y : (x <=? y) = true → is_nan x = false ∧ is_nan y = false.
Proof.
  rewrite FloatAxioms.leb_spec, !is_nan_false. unfold SFleb.
  destruct (SFcompare _ _) as [c|] eqn:E; [|discriminate].
  intros _. exact (SFcompare_Some _ _ _ E).
Qed.

Lemma leb_refl x : is_nan x = false → (x <=? x) = true.
Proof. rewrite is_nan_false, FloatAxioms.leb_spec. unfold SFleb. by intros ->. Qed.

Lemma leb_trans x y z : (x <=? y) = true → (y <=? z) = true → (x <=? z) = true.
Proof. rewrite !FloatAxioms.leb_spec. apply SFleb_trans. Qed.

Lemma not_ltb_leb x y :
  is_nan x = false → is_nan y = false → (x <? y) = false → (y <=? x) = true.
Proof.
  rewrite !is_nan_false, FloatAxioms.ltb_spec, FloatAxioms.leb_spec. unfold SFltb, SFleb.
  intros Hx Hy. rewrite (SFcompare_flip (Prim2SF x) (Prim2SF y)).
  destruct (SFcompare (Prim2SF x) (Prim2SF y)) as [[]|] eqn:E; simpl; try congruence.
  destruct (SFcompare_None _ _ E); congruence.
Qed.

End FloatOrder.

(** ** C1: resolution of an embedding by cosine similarity *)

Section Resolution.
Local Open Scope float_scope.

Lemma cosine_similarity_raises e v err :
  cosine_similarity e v = Raise err → err = ValueError ∧ List.length e ≠ List.length v.
Proof.
  unfold cosine_similarity, np_dot.
  destruct (_ =? 0); [discriminate|].
  destruct (Nat.eqb_spec (List.length e) (List.length v)); [discriminate|].
  intros [= <-]. done.
Qed.

(** The loop keeps a number as its score, never lowers it, ends above every
    similarity that is a number, and either keeps its [best] or ends on a row
    whose similarity is the final score. *)
Lemma scan_persons_ok e ps : ∀ best score best' score',
  is_nan score = false →
  scan_persons e ps best score = Ok (best', score') →
  is_nan score' = false ∧ (score <=? score') = true ∧
  (∀ q t, q ∈ ps → similarity_of e q t → is_nan t = false → (t <=? score') = true) ∧
  ((best' = best ∧ score' = score) ∨
   (∃ p, best' = Some p ∧ p ∈ ps ∧ similarity_of e p score' ∧ (score <? score') = true)).
Proof.
  induction ps as [|p ps IH]; intros best score best' score' Hnum; simpl.
  - intros [= <- <-]. split_and!; auto using leb_refl.
    intros q t Hq. by apply elem_of_nil in Hq.
  - destruct (stored_vector p) as [v|] eqn:Hv.
    + destruct (cosine_similarity e v) as [s|err] eqn:Hs; [|discriminate].
      destruct (score <? s) eqn:Hlt; intros Hscan.
      * destruct (ltb_number _ _ Hlt) as [_ Hs_num].
        destruct (IH _ _ _ _ Hs_num Hscan) as (Hn & Hle & Hmax & Hbest).
        split_and!; [done|eauto using leb_trans, ltb_leb| |].
        -- intros q t [->|Hq]%elem_of_cons (w & Hw & Ht) Ht_num; [|by eapply Hmax; [|exists w|]].
           assert (t = s) as -> by congruence. done.
        -- right. destruct Hbest as [[-> ->]|(p' & -> & Hp' & Hsim & Hlt')].
           ++ exists p. split_and!; [done|by left|by exists v|done].
           ++ exists p'. split_and!; [done|by right|done|].
              destruct (ltb_number _ _ Hlt') as [_ Hnum'].
              assert ((score' <=? score) = false) as Hno.
              { destruct (score' <=? score) eqn:E; [|done].
                pose proof (leb_trans _ _ _ E (ltb_leb _ _ Hlt)) as Hcontra.
                pose proof (not_ltb_leb s score' Hs_num Hnum') as Hx.
                (* score' <= s and s < score' cannot both hold *)
                rewrite FloatAxioms.ltb_spec in Hlt'. rewrite FloatAxioms.leb_spec in Hcontra.
                unfold SFltb, SFleb in *.
                rewrite (SFcompare_flip (Prim2SF s) (Prim2SF score')) in Hcontra.
                destruct (SFcompare (Prim2SF s) (Prim2SF score')) as [[]|]; simpl in *; congruence. }
              destruct (score <? score') eqn:E; [done|].
              pose proof (not_ltb_leb _ _ Hnum Hnum' E). congruence.
      * destruct (IH _ _ _ _ Hnum Hscan) as (Hn & Hle & Hmax & Hbest).
        split_and!; [done|done| |].
        -- intros q t [->|Hq]%elem_of_cons (w & Hw & Ht) Ht_num; [|by eapply Hmax; [|exists w|]].
           assert (t = s) as -> by congruence.
           eapply leb_trans; [|exact Hle]. by apply not_ltb_leb.
        -- destruct Hbest as [?|(p' & -> & Hp' & Hsim & Hlt')]; [by left|right].
           exists p'. split_and!; [done|by right|done|done].
    + intros Hscan. destruct (IH _ _ _ _ Hnum Hscan) as (Hn & Hle & Hmax & Hbest).
      split_and!; [done|done| |].
      * intros q t [->|Hq]%elem_of_cons (w & Hw & Ht) Ht_num; [congruence|].
        by eapply Hmax; [|exists w|].
      * destruct Hbest as [?|(p' & -> & Hp' & Hsim & Hlt')]; [by left|right].
        exists p'. split_and!; [done|by right|done|done].
Qed.

Lemma scan_persons_raises e ps : ∀ best score err,
  scan_persons e ps best score = Raise err →
  err = ValueError ∧
  ∃ q v, q ∈ ps ∧ stored_vector q = Some v ∧ List.length e ≠ List.length v.
Proof.
  induction ps as [|p ps IH]; intros best score err; simpl; [discriminate|].
  destruct (stored_vector p) as [v|] eqn:Hv.
  - destruct (cosine_similarity e v) as [s|err'] eqn:Hs.
    + destruct (score <? s); intros [-> (q & w & Hq & Hw)]%IH;
        (split; [done|]); exists q, w; (split; [by right|done]).
    + intros [= ->]. destruct (cosine_similarity_raises _ _ _ Hs) as [-> Hlen].
      split; [done|]. exists p, v. split_and!; [by left|done|done].
  - intros [-> (q & w & Hq & Hw)]%IH. split; [done|]. exists q, w. split; [by right|done].
Qed.

(** Rows without a stored vector do not take part. *)
Lemma scan_persons_skips e ps : ∀ best score,
  scan_persons e ps best score
  = scan_persons e (filter (fun p => is_Some (stored_vector p)) ps) best score.
Proof.
  induction ps as [|p ps IH]; intros best score; [done|].
  rewrite filter_cons. simpl. destruct (stored_vector p) as [v|] eqn:Hv.
  - rewrite decide_True by eauto. simpl. rewrite Hv.
    destruct (cosine_similarity e v) as [s|]; [|done]. destruct (score <? s); apply IH.
  - rewrite decide_False by (by intros [? [=]]). apply IH.
Qed.

Lemma thresh_value : thresh = 0.6.
Proof. reflexivity. Qed.

Lemma thresh_above_initial_score : (thresh <=? -1) = false.
Proof. reflexivity. Qed.

(** What [find_matching_person] returns on the rows [ps]. *)
Lemma best_match_spec ps e :
  match best_match ps e with
  | Ok (Some p) =>
      p ∈ ps ∧
      ∃ s, similarity_of e p s ∧ (thresh <=? s) = true ∧
           ∀ q t, q ∈ ps → similarity_of e q t → is_nan t = false → (t <=? s) = true
  | Ok None =>
      ∀ q t, q ∈ ps → similarity_of e q t → (thresh <=? t) = false
  | Raise err =>
      err = ValueError ∧
      ∃ q v, q ∈ ps ∧ stored_vector q = Some v ∧ List.length e ≠ List.length v
  end.
Proof.
  unfold best_match.
  destruct (scan_persons e ps None (-1)) as [[best score]|err] eqn:Hscan;
    [|by eapply scan_persons_raises].
  apply scan_persons_ok in Hscan as (Hnum & _ & Hmax & Hbest); [|reflexivity].
  destruct (thresh <=? score) eqn:Hth.
  - destruct Hbest as [[-> ->]|(p & -> & Hp & Hsim & _)].
    + by rewrite thresh_above_initial_score in Hth.
    + split; [done|]. by exists score.
  - assert (∀ q t, q ∈ ps → similarity_of e q t → (thresh <=? t) = false) as Hnone.
    { intros q t Hq Hsim. destruct (thresh <=? t) eqn:E; [|done].
      destruct (leb_number _ _ E) as [_ Ht].
      pose proof (leb_trans _ _ _ E (Hmax q t Hq Hsim Ht)). congruence. }
    by destruct best.
Qed.

End Resolution.

Section ResolutionStep.
Local Open Scope float_scope.
Variable env : Env.

Lemma resolve_person_unfold user_id e st :
  resolve_person env user_id e st =
  match best_match (persons_of st user_id) e with
  | Ok (Some p) => (st, Ok p)
  | Ok None => create_face_person env user_id e st
  | Raise err => (st, Raise err)
  end.
Proof.
  unfold resolve_person, find_matching_person, persons_of, mbind, M_bind.
  by destruct (best_match _ e) as [[p|]|err].
Qed.

Lemma create_face_person_unfold user_id e st :
  let row := new_face_person (uuid_str env (uuid_drawn st)) user_id e in
  let st1 := set_persons (fun ps => ps ++ [row]) (set_uuid_drawn S st) in
  create_face_person env user_id e st =
  (match folders st !! (user_id, p_folder_name row) with
   | Some _ => st1
   | None => set_folders (insert (user_id, p_folder_name row) ∅) st1
   end, Ok row).
Proof. reflexivity. Qed.

(** Every way the resolution step can go. *)
Lemma resolve_person_cases (user_id : string) (e : list float) (st : State) :
  match best_match (persons_of st user_id) e with
  | Ok (Some p) =>
      resolve_person env user_id e st = (st, Ok p) ∧
      p ∈ persons_of st user_id ∧
      ∃ s, similarity_of e p s ∧ (thresh <=? s) = true ∧
           ∀ q t, q ∈ persons_of st user_id → similarity_of e q t →
                  is_nan t = false → (t <=? s) = true
  | Ok None =>
      (∀ q t, q ∈ persons_of st user_id → similarity_of e q t → (thresh <=? t) = false) ∧
      ∃ st', resolve_person env user_id e st
             = (st', Ok (new_face_person (uuid_str env (uuid_drawn st)) user_id e)) ∧
             persons st' = persons st
                           ++ [new_face_person (uuid_str env (uuid_drawn st)) user_id e] ∧
             photos st' = photos st ∧ photo_persons st' = photo_persons st
  | Raise err =>
      err = ValueError ∧
      resolve_person env user_id e st = (st, Raise ValueError) ∧
      ∃ q v, q ∈ persons_of st user_id ∧ stored_vector q = Some v ∧
             List.length e ≠ List.length v
  end.
Proof.
  pose proof (best_match_spec (persons_of st user_id) e) as Hspec.
  rewrite resolve_person_unfold.
  destruct (best_match (persons_of st user_id) e) as [[p|]|err] eqn:Hbest.
  - destruct Hspec as (Hp & s & Hsim & Hth & Hmax). split_and!; [done|done|]. by exists s.
  - split; [done|]. rewrite create_face_person_unfold. eexists. split; [reflexivity|].
    by destruct (folders st !! _).
  - by destruct Hspec as [-> Hwhy].
Qed.

(** C1. For every owner and every input embedding of the dimension of the
    stored ones: the threshold is [1 - 0.40 = 0.60]; rows without a stored
    embedding do not take part; a row is reused exactly when some row of the
    owner has a similarity of at least the threshold, and the row reused
    then has the greatest similarity (among the similarities that are
    numbers); otherwise a row named "Unknown", with a generated folder key
    and the input vector as its embedding, is appended. *)
Theorem C1_resolution_by_cosine_similarity (user_id : string) (e : list float) (st : State) :
  same_dimension e (persons_of st user_id) →
  thresh = 1 - Config.DEEPFACE_DISTANCE_THRESHOLD ∧ thresh = 0.6 ∧
  best_match (persons_of st user_id) e
  = best_match (filter (fun p => is_Some (stored_vector p)) (persons_of st user_id)) e ∧
  ∃ r, best_match (persons_of st user_id) e = Ok r ∧
    (is_Some r ↔ ∃ q t, q ∈ persons_of st user_id ∧ similarity_of e q t ∧
                        (thresh <=? t) = true) ∧
    match r with
    | Some p =>
        resolve_person env user_id e st = (st, Ok p) ∧
        p ∈ persons_of st user_id ∧
        ∃ s, similarity_of e p s ∧ (thresh <=? s) = true ∧
             ∀ q t, q ∈ persons_of st user_id → similarity_of e q t →
                    is_nan t = false → (t <=? s) = true
    | None =>
        ∃ st', resolve_person env user_id e st
               = (st', Ok (new_face_person (uuid_str env (uuid_drawn st)) user_id e)) ∧
               persons st' = persons st
                             ++ [new_face_person (uuid_str env (uuid_drawn st)) user_id e] ∧
               photos st' = photos st ∧ photo_persons st' = photo_persons st
    end.
Proof.
  intros Hdim.
  split; [reflexivity|]. split; [exact thresh_value|].
  split; [unfold best_match; by rewrite scan_persons_skips|].
  pose proof (resolve_person_cases user_id e st) as Hcases.
  destruct (best_match (persons_of st user_id) e) as [[p|]|err].
  - exists (Some p). split; [done|]. split; [|exact Hcases].
    destruct Hcases as (_ & Hp & s & Hsim & Hth & _).
    split; [|by eauto]. intros _. by exists p, s.
  - exists None. destruct Hcases as [Hbelow Hnew]. split; [done|]. split; [|exact Hnew].
    split; [by intros [? [=]]|].
    intros (q & t & Hq & Hsim & Hth). by rewrite (Hbelow q t Hq Hsim) in Hth.
  - destruct Hcases as (_ & _ & q & v & Hq & Hv & Hlen).
    by rewrite (Hdim q v Hq Hv) in Hlen.
Qed.

End ResolutionStep.

(** Identical vectors have similarity 1 and match; orthogonal vectors have
    similarity 0 and do not. *)
Example cosine_identical : cosine_similarity [3; 4]%float [3; 4]%float = Ok 1%float.
Proof. reflexivity. Qed.

Example cosine_orthogonal : cosine_similarity [1; 0]%float [0; 1]%float = Ok 0%float.
Proof. reflexivity. Qed.

Example best_match_identical :
  let g1 := Person "g1" "u" "Unknown" "person_g1" (Some (EmbDict (Some [0; 1]%float))) in
  let g2 := Person "g2" "u" "Unknown" "person_g2" (Some (EmbList [3; 4]%float)) in
  let scene := Person "g3" "u" "Beach" "beach" None in
  best_match [g1; scene; g2] [3; 4]%float = Ok (Some g2) ∧
  best_match [g1; scene; g2] [4; 3]%float = Ok (Some g2) ∧
  best_match [g1; scene] [1; 0]%float = Ok None.
Proof. vm_compute. done. Qed.

(** A similarity equal to the threshold is a match. *)
Example match_at_threshold :
  cosine_similarity [3; 4]%float [1; 0]%float = Ok thresh ∧
  best_match [alice] [3; 4]%float = Ok (Some alice).
Proof. vm_compute. done. Qed.

(** An input at exactly the threshold from Alice and closer to Bob: Bob is
    reused.  An input far from both: a new row. *)
Lemma C1_witness :
  let env := demo_env [] (Ok "") (fun _ => true) in
  let st := set_persons (fun _ => [alice; beach; bob]) empty_state in
  same_dimension [3; 4]%float (persons_of st "u") ∧
  cosine_similarity [3; 4]%float [1; 0]%float = Ok 0.6%float ∧
  cosine_similarity [3; 4]%float [0; 1]%float = Ok 0.8%float ∧
  resolve_person env "u" [3; 4]%float st = (st, Ok bob) ∧
  ∃ r, best_match (persons_of st "u") [3; 4]%float = Ok r ∧ is_Some r.
Proof.
  cbv zeta.
  assert (same_dimension [3; 4]%float
            (persons_of (set_persons (fun _ => [alice; beach; bob]) empty_state) "u")) as Hdim.
  { intros p v Hp Hv. vm_compute in Hp.
    repeat (apply elem_of_cons in Hp as [->|Hp]); try (by injection Hv as <-);
      [discriminate|by apply elem_of_nil in Hp]. }
  split; [exact Hdim|]. split; [reflexivity|]. split; [reflexivity|].
  split; [reflexivity|].
  destruct (C1_resolution_by_cosine_similarity (demo_env [] (Ok "") (fun _ => true))
              "u" [3; 4]%float _ Hdim) as (_ & _ & _ & r & Hr & Hiff & _).
  exists r. split; [exact Hr|]. apply Hiff.
  exists bob, 0.8%float. split; [|split; [|reflexivity]].
  - apply list_elem_of_filter. split; [reflexivity|]. simpl. right. right. left.
  - exists [0; 1]%float. split; reflexivity.
Defined.

(** ** Slugs *)

Section Slug.

Lemma chars_of_str_of l : chars_of (str_of l) = l.
Proof. apply list_ascii_of_string_of_list_ascii. Qed.

Lemma string_length_str_of l : String.length (str_of l) = List.length l.
Proof. induction l; simpl; congruence. Qed.

Lemma lstrip_by_suffix p l : lstrip_by p l `suffix_of` l.
Proof.
  induction l as [|c l IH]; simpl; [done|].
  destruct (p c); [by apply suffix_cons_r|done].
Qed.

Lemma lstrip_by_head p l c l' : lstrip_by p l = c :: l' → p c = false.
Proof.
  induction l as [|d l IH]; simpl; [done|].
  destruct (p d) eqn:E; [done|]. by intros [= <- <-].
Qed.

Lemma strip_by_Forall (P : ascii → Prop) p l : Forall P l → Forall P (strip_by p l).
Proof.
  intros H. unfold strip_by, rstrip_by. apply Forall_reverse.
  destruct (lstrip_by_suffix p (reverse (lstrip_by p l))) as [k1 E1].
  assert (Forall P (reverse (lstrip_by p l))) as H1.
  { apply Forall_reverse. destruct (lstrip_by_suffix p l) as [k E].
    rewrite E in H. by apply Forall_app in H as [_ ?]. }
  rewrite E1 in H1. by apply Forall_app in H1 as [_ ?].
Qed.

Lemma strip_by_length p l : (List.length (strip_by p l) ≤ List.length l)%nat.
Proof.
  unfold strip_by, rstrip_by. rewrite length_reverse.
  etrans; [apply suffix_length, lstrip_by_suffix|]. rewrite length_reverse.
  apply suffix_length, lstrip_by_suffix.
Qed.

Lemma strip_by_last p l c : last (strip_by p l) = Some c → p c = false.
Proof.
  unfold strip_by, rstrip_by. rewrite last_reverse.
  destruct (lstrip_by p (reverse (lstrip_by p l))) as [|d l'] eqn:E; [done|].
  simpl. intros [= <-]. by eapply lstrip_by_head.
Qed.

(** Stripping at the right end leaves the left end in place. *)
Lemma lstrip_by_app_keep p l k c :
  p c = false → lstrip_by p (l ++ c :: k) = lstrip_by p l ++ c :: k ∨
                ∃ l1 l2, l = l1 ++ l2 ∧ Forall (fun x => p x = true) l1 ∧
                         lstrip_by p (l ++ c :: k) = l2 ++ c :: k.
Proof.
  intros Hc. right. induction l as [|d l (l1 & l2 & -> & H1 & E)]; simpl.
  - exists [], []. simpl. by rewrite Hc.
  - destruct (p d) eqn:Hd.
    + exists (d :: l1), l2. split_and!; [done|by constructor|done].
    + exists [], (d :: l1 ++ l2). done.
Qed.

Lemma strip_by_head p l c l' : strip_by p l = c :: l' → p c = false.
Proof.
  unfold strip_by, rstrip_by. intros E.
  destruct (lstrip_by p l) as [|d m] eqn:El; [done|].
  pose proof (lstrip_by_head _ _ _ _ El) as Hd.
  (* the reversed list ends in [d], which is kept *)
  rewrite reverse_cons in E.
  destruct (lstrip_by_app_keep p (reverse m) [] d Hd) as [E'|(l1 & l2 & Hm & H1 & E')];
    rewrite E' in E.
  - rewrite reverse_app in E. simpl in E. by simplify_eq.
  - rewrite reverse_app in E. simpl in E. by simplify_eq.
Qed.







Example slug_beach_sunset : slug_of_reply "Beach Sunset!!" = "beach_sunset".
Proof. reflexivity. Qed.

Example slug_empty_fallback : slug_of_reply " ?! " = "uncategorised".
Proof. reflexivity. Qed.

End Slug.

(** ** Selections on tables *)

Section Filters.
Context {A : Type} (P : A → Prop) `{!∀ x, Decision (P x)}.

Lemma filter_all (l : list A) : (∀ x, x ∈ l → P x) → filter P l = l.
Proof.
  induction l as [|a l IH]; intros Hall; [done|].
  rewrite filter_cons_True by (apply Hall; by left).
  f_equal. apply IH. intros x Hx. apply Hall. by right.
Qed.

Lemma filter_none (l : list A) : filter P l = [] ↔ ∀ x, x ∈ l → ¬ P x.
Proof.
  split.
  - intros E x Hx HP. by eapply filter_nil_not_elem_of.
  - induction l as [|a l IH]; intros Hnone; [done|].
    rewrite filter_cons_False by (apply Hnone; by left).
    apply IH. intros x Hx. apply Hnone. by right.
Qed.

Lemma filter_not_nil (l : list A) : filter P l ≠ [] ↔ ∃ x, x ∈ l ∧ P x.
Proof.
  split.
  - destruct (filter P l) as [|a k] eqn:E; [done|]. intros _.
    assert (a ∈ filter P l) as [? ?]%list_elem_of_filter by (rewrite E; by left).
    by exists a.
  - intros (x & Hx & HP) E. rewrite filter_none in E. by eapply E.
Qed.

End Filters.

(** ** The steps of the pipeline *)

Section Steps.
Variable env : Env.

Lemma bind_unfold {A B : Type} (m : M A) (k : A → M B) st :
  (m ≫= k) st = match m st with
                | (st1, Ok a) => k a st1
                | (st1, Raise e) => (st1, Raise e)
                end.
Proof. reflexivity. Qed.

Lemma bind_gets {A B : Type} (f : State → A) (k : A → M B) st :
  (gets f ≫= k) st = k (f st) st.
Proof. reflexivity. Qed.

Lemma bind_modify {B : Type} (f : State → State) (k : unit → M B) st :
  (modify f ≫= k) st = k tt (f st).
Proof. reflexivity. Qed.

Lemma bind_ret {A B : Type} (a : A) (k : A → M B) st : (mret a ≫= k) st = k a st.
Proof. reflexivity. Qed.

Lemma files_grow_refl fn st : files_grow fn st st.
Proof. split; [done|]. by left. Qed.

Lemma same_files_grow fn st st' : same_files st st' → files_grow fn st st'.
Proof. intros [? H]. split; [done|]. intros u f. left. apply H. Qed.

Lemma files_grow_trans fn st1 st2 st3 :
  files_grow fn st1 st2 → files_grow fn st2 st3 → files_grow fn st1 st3.
Proof.
  intros [R12 H12] [R23 H23]. split; [congruence|]. intros u f.
  destruct (H23 u f) as [->|(Hn & b & ->)]; [apply H12|].
  destruct (H12 u f) as [E|(Hn' & b' & E)]; rewrite E in *.
  - right. split; [done|]. by exists b.
  - by rewrite lookup_insert_eq in Hn.
Qed.

Lemma files_grow_isfile fn st st' p :
  files_grow fn st st' → isfile st p = true → isfile st' p = true.
Proof.
  intros [R H]. unfold isfile. rewrite !bool_decide_eq_true.
  destruct p as [u n|u f n]; simpl; [by rewrite R|].
  destruct (H u f) as [->|(Hn & b & ->)]; [done|].
  intros [x Hx]. destruct (decide (fn = n)) as [->|Hne]; [congruence|].
  rewrite lookup_insert_ne by done. eauto.
Qed.

Lemma folder_disk_spec u f st :
  ∃ st', folder_disk u f st = (st', Ok tt) ∧ same_tables st st' ∧ same_files st st' ∧
         uuid_drawn st' = uuid_drawn st ∧ flashed st' = flashed st ∧
         outbox st' = outbox st ∧ delivery_history st' = delivery_history st ∧
         (is_Some (folders st !! (u, f)) → st' = st).
Proof.
  unfold folder_disk, modify. eexists. split; [reflexivity|].
  destruct (folders st !! (u, f)) as [d|] eqn:E; [by repeat split|].
  split_and!; try done.
  split; [done|]. intros u' f'. unfold dir_of. simpl.
  destruct (decide ((u, f) = (u', f'))) as [<-|Hne].
  - by rewrite lookup_insert_eq, E.
  - by rewrite lookup_insert_ne.
Qed.

Lemma dir_of_write u f n b st u' f' :
  dir_of (write_file (in_folder u f n) b st) u' f'
  = if decide ((u, f) = (u', f')) then <[n := b]> (dir_of st u f) else dir_of st u' f'.
Proof.
  unfold dir_of at 1. simpl. case_decide as E.
  - rewrite <- E. by rewrite lookup_insert_eq.
  - by rewrite lookup_insert_ne.
Qed.

Lemma dir_of_unlink u f n st u' f' :
  dir_of (unlink_file (in_folder u f n) st) u' f'
  = if decide ((u, f) = (u', f')) then delete n (dir_of st u f) else dir_of st u' f'.
Proof.
  unfold dir_of at 1. simpl. case_decide as E.
  - rewrite <- E. by rewrite lookup_insert_eq.
  - by rewrite lookup_insert_ne.
Qed.

(** [_copy_to_folder]: a file of that name already there is left alone and
    nothing is written; otherwise the upload is copied, or the copy raises
    and nothing is written. *)
Lemma _copy_to_folder_spec u f src fn st :
  ∃ st' out, _copy_to_folder env u f src fn st = (st', out) ∧
    same_tables st st' ∧ files_grow fn st st' ∧ uuid_drawn st' = uuid_drawn st ∧
    (isfile st (in_folder u f fn) = true → st' = st ∧ out = Ok tt) ∧
    (out = Ok tt → isfile st' (in_folder u f fn) = true) ∧
    (isfile st (in_folder u f fn) = false →
     match read_file st (in_root u src) with
     | None => out = Raise FileNotFoundError ∧ same_files st st'
     | Some b =>
         if may_write env (in_folder u f fn)
         then out = Ok tt ∧ dir_of st' u f = <[fn := b]> (dir_of st u f)
         else out = Raise OSError ∧ same_files st st'
     end).
Proof.
  unfold _copy_to_folder. rewrite bind_unfold.
  destruct (folder_disk_spec u f st) as (st1 & -> & Ht & Hf & Hu & _ & _ & _ & Hsame).
  rewrite bind_unfold. unfold gets at 1.
  assert (isfile st1 (in_folder u f fn) = isfile st (in_folder u f fn)) as Hisf.
  { unfold isfile. simpl. by rewrite (proj2 Hf). }
  rewrite Hisf.
  destruct (isfile st (in_folder u f fn)) eqn:Hp.
  - exists st1, (Ok tt). split; [done|].
    assert (st1 = st) as ->.
    { apply Hsame. unfold isfile in Hp. apply bool_decide_eq_true in Hp as [b Hb].
      simpl in Hb. unfold dir_of in Hb. destruct (folders st !! (u, f)); [eauto|done]. }
    split_and!; try done. apply files_grow_refl.
  - unfold shutil_copy2.
    assert (read_file st1 (in_root u src) = read_file st (in_root u src)) as ->
      by (simpl; by rewrite (proj1 Hf)).
    destruct (read_file st (in_root u src)) as [b|] eqn:Hsrc.
    + rewrite decide_False by done.
      destruct (may_write env (in_folder u f fn)) eqn:Hw.
      * eexists _, _. split; [reflexivity|].
        assert (dir_of (write_file (in_folder u f fn) b st1) u f = <[fn := b]> (dir_of st u f)) as Hd.
        { rewrite dir_of_write, decide_True by done. by rewrite (proj2 Hf). }
        split_and!; try done.
        -- split; [apply Hf|]. intros u' f'. rewrite dir_of_write. case_decide as E.
           ++ injection E as <- <-. right. split.
              ** unfold isfile in Hp. apply bool_decide_eq_false in Hp.
                 simpl in Hp. by apply eq_None_not_Some.
              ** exists b. by rewrite (proj2 Hf).
           ++ left. apply Hf.
        -- intros _. unfold isfile, read_file. apply bool_decide_eq_true.
           rewrite Hd, lookup_insert_eq. eauto.
      * exists st1, (Raise OSError). split_and!; try done.
        by apply same_files_grow.
    + exists st1, (Raise FileNotFoundError). split_and!; try done.
      by apply same_files_grow.
Qed.

Lemma stored_vector_embedding p v : stored_vector p = Some v → p_embedding p ≠ None.
Proof. unfold stored_vector. by destruct (p_embedding p). Qed.

(** What the resolution step leaves behind. *)
Lemma resolve_person_spec u e st :
  ∃ st' out, resolve_person env u e st = (st', out) ∧
    persons st `prefix_of` persons st' ∧ photos st' = photos st ∧
    photo_persons st' = photo_persons st ∧ same_files st st' ∧
    match out with
    | Ok g => g ∈ persons st' ∧ p_user_id g = u ∧ p_embedding g ≠ None
    | Raise _ => st' = st
    end.
Proof.
  rewrite resolve_person_unfold.
  pose proof (best_match_spec (persons_of st u) e) as Hspec.
  destruct (best_match (persons_of st u) e) as [[p|]|err].
  - exists st, (Ok p). destruct Hspec as (Hp & s & (v & Hv & _) & _).
    apply list_elem_of_filter in Hp as [Hu Hp].
    split_and!; try done. by eapply stored_vector_embedding.
  - rewrite create_face_person_unfold. eexists _, _. split; [reflexivity|].
    set (row := new_face_person _ _ _).
    destruct (folders st !! (u, p_folder_name row)) eqn:E; simpl.
    + split_and!; try done; [by apply prefix_app_r|]. set_solver.
    + split_and!; try done; [by apply prefix_app_r| |set_solver].
      split; [done|]. intros u' f'. unfold dir_of. simpl.
      destruct (decide ((u, p_folder_name row) = (u', f'))) as [<-|Hne].
      * by rewrite lookup_insert_eq, E.
      * by rewrite lookup_insert_ne.
  - by exists st, (Raise err).
Qed.

End Steps.

(** ** The upload pipeline *)

Section Upload.
Variable env : Env.

Lemma extract_embeddings_frame u path st st' :
  root_files st' = root_files st →
  extract_embeddings env u path st'
  = (st', snd (extract_embeddings env u path st)).
Proof. intros H. unfold extract_embeddings, gets. simpl. by rewrite H. Qed.

Lemma groq_describe_for_folder_frame u path st st' :
  root_files st' = root_files st →
  groq_describe_for_folder env u path st'
  = (st', snd (groq_describe_for_folder env u path st)).
Proof. intros H. unfold groq_describe_for_folder, gets. simpl. by rewrite H. Qed.

(** The loop over the faces: the rows [gs] it attaches are pairwise distinct
    and none was seen before; each has an embedding, belongs to the owner
    and holds the file; one link per row is appended, in order. *)
Lemma face_loop_spec u path fn pid faces : ∀ st seen attached,
  ∃ st' out gs,
    face_loop env u path fn pid faces seen attached st = (st', out) ∧
    photo_persons st' = photo_persons st ++ map (fun g => PhotoPerson pid (p_id g)) gs ∧
    NoDup (map p_id gs) ∧ Forall (fun g => p_id g ∉ seen) gs ∧
    Forall (fun g => g ∈ persons st' ∧ p_user_id g = u ∧ p_embedding g ≠ None ∧
                     isfile st' (in_folder u (p_folder_name g) fn) = true) gs ∧
    persons st `prefix_of` persons st' ∧ photos st' = photos st ∧
    files_grow fn st st' ∧
    match out with
    | Ok refs => refs = attached ++ map person_ref_of gs
    | Raise _ => True
    end.
Proof.
  induction faces as [|f faces IH]; intros st seen attached.
  { exists st, (Ok attached), []. simpl. rewrite !app_nil_r.
    split_and!; try done; [constructor|apply files_grow_refl]. }
  simpl. destruct (default [] (face_embedding f)) as [|x e] eqn:Hemb; [apply IH|].
  rewrite bind_unfold.
  destruct (resolve_person_spec env u (x :: e) st)
    as (st1 & out1 & -> & Hpre1 & Hph1 & Hl1 & Hf1 & Hg).
  destruct out1 as [g|err]; cycle 1.
  { subst st1. exists st, (Raise err), []. simpl. rewrite app_nil_r.
    split_and!; try done; [constructor|apply files_grow_refl]. }
  destruct Hg as (Hg_in & Hg_u & Hg_emb).
  destruct (decide (p_id g ∈ seen)) as [Hseen|Hnew].
  { destruct (IH st1 seen attached) as (st' & out & gs & -> & Hl & Hnd & Hns & Hall & Hpre & Hph & Hfg & Hout).
    exists st', out, gs. split_and!; try done; [congruence|by etrans|congruence|].
    eapply files_grow_trans; [by apply same_files_grow|done]. }
  rewrite bind_unfold.
  destruct (_copy_to_folder_spec env u (p_folder_name g) path fn st1)
    as (st2 & out2 & -> & (Hp2 & Hph2 & Hl2) & Hfg2 & _ & _ & Hok2 & _).
  destruct out2 as [[]|err]; cycle 1.
  { exists st2, (Raise err), []. simpl. rewrite app_nil_r.
    split_and!; try done; [congruence|constructor|by rewrite Hp2|congruence|].
    eapply files_grow_trans; [by apply same_files_grow|done]. }
  rewrite bind_unfold. unfold _link at 1, modify at 1.
  set (st3 := set_photo_persons _ st2).
  destruct (IH st3 ({[p_id g]} ∪ seen) (attached ++ [person_ref_of g]))
    as (st' & out & gs & -> & Hl & Hnd & Hns & Hall & Hpre & Hph & Hfg & Hout).
  exists st', out, (g :: gs).
  assert (files_grow fn st st') as Hgrow.
  { eapply files_grow_trans; [by apply same_files_grow|].
    eapply files_grow_trans; [exact Hfg2|]. exact Hfg. }
  split_and!; try done.
  - rewrite Hl. subst st3. simpl. rewrite Hl2, Hl1. by rewrite <- app_assoc.
  - simpl. constructor; [|done]. intros (g' & Hid & Hg')%list_elem_of_fmap.
    rewrite Forall_forall in Hns. specialize (Hns g' Hg'). set_solver.
  - constructor; [done|]. eapply Forall_impl; [exact Hns|]. set_solver.
  - constructor; [|done]. split_and!; try done.
    + eapply elem_of_prefix; [|exact Hpre]. subst st3. simpl. by rewrite Hp2.
    + eapply files_grow_isfile; [exact Hfg|]. subst st3. by apply Hok2.
  - etrans; [exact Hpre1|]. rewrite <- Hp2. exact Hpre.
  - rewrite Hph. subst st3. simpl. congruence.
  - destruct out; [|done]. rewrite Hout. simpl. by rewrite <- app_assoc.
Qed.

(** [_find_or_create_scene_person] returns the owner's first row with that
    folder key and writes nothing, or appends a new row. *)
Lemma _find_or_create_scene_person_spec u slug st :
  ∃ st' g, _find_or_create_scene_person env u slug st = (st', Ok g) ∧
    p_user_id g = u ∧ p_folder_name g = slug ∧ g ∈ persons st' ∧
    photos st' = photos st ∧ photo_persons st' = photo_persons st ∧
    same_files st st' ∧
    match filter (fun p => p_user_id p = u ∧ p_folder_name p = slug) (persons st) with
    | g0 :: _ => g = g0 ∧ st' = st
    | [] => g = new_scene_person (uuid_str env (uuid_drawn st)) u slug ∧
            persons st' = persons st ++ [g]
    end.
Proof.
  unfold _find_or_create_scene_person. rewrite bind_unfold. unfold gets at 1.
  destruct (filter _ (persons st)) as [|g0 rest] eqn:Hsel.
  - rewrite bind_unfold. unfold uuid4_str at 1.
    rewrite bind_unfold. unfold modify at 1. rewrite bind_unfold.
    set (row := Person _ _ _ _ _). set (st1 := set_persons _ _).
    destruct (folder_disk_spec u slug st1) as (st2 & -> & (Hp & Hph & Hl) & Hf & _).
    exists st2, row. split_and!; try done.
    rewrite Hp. subst st1. simpl. set_solver.
  - exists st, g0.
    assert (g0 ∈ filter (fun p => p_user_id p = u ∧ p_folder_name p = slug) (persons st))
      as [[? ?] ?]%list_elem_of_filter by (rewrite Hsel; by left).
    split_and!; done.
Qed.

(** One run of [process_uploaded_image]: the photo row, the rows [gs] the
    image is attached to, and what each branch guarantees about them. *)
Lemma process_uploaded_image_spec u path fn st :
  ∃ st' out gs,
    process_uploaded_image env u path fn st = (st', out) ∧
    photos st' = photos st ++ [Photo (uuid_str env (uuid_drawn st)) u fn fn] ∧
    photo_persons st'
    = photo_persons st ++ map (fun g => PhotoPerson (uuid_str env (uuid_drawn st)) (p_id g)) gs ∧
    NoDup (map p_id gs) ∧
    Forall (fun g => g ∈ persons st' ∧ p_user_id g = u ∧
                     isfile st' (in_folder u (p_folder_name g) fn) = true) gs ∧
    persons st `prefix_of` persons st' ∧ files_grow fn st st' ∧
    match out with
    | Ok r => r_persons r = map person_ref_of gs ∧
              r_photo_id r = uuid_str env (uuid_drawn st) ∧ r_filename r = fn
    | Raise _ => True
    end ∧
    match snd (extract_embeddings env u path st) with
    | Ok (f :: fs) =>
        Forall (fun g => p_embedding g ≠ None) gs ∧
        match out with
        | Ok r => r_method r = deepface ∧ r_faces_detected r = List.length (f :: fs)
        | Raise _ => True
        end
    | Ok [] =>
        let slug := match snd (groq_describe_for_folder env u path st) with
                    | Ok s => s
                    | Raise _ => ""
                    end in
        let g := match filter (fun p => p_user_id p = u ∧ p_folder_name p = slug)
                              (persons st) with
                 | g0 :: _ => g0
                 | [] => new_scene_person (uuid_str env (S (uuid_drawn st))) u slug
                 end in
        p_folder_name g = slug ∧ p_user_id g = u ∧
        persons st' = match filter (fun p => p_user_id p = u ∧ p_folder_name p = slug)
                                   (persons st) with
                      | _ :: _ => persons st
                      | [] => persons st ++ [g]
                      end ∧
        match out with
        | Ok r => gs = [g] ∧ r_method r = groq_vision ∧ r_faces_detected r = 0
        | Raise _ => gs = []
        end
    | Raise _ => False
    end.
Proof.
  unfold process_uploaded_image. rewrite bind_unfold. unfold uuid4_str at 1.
  rewrite bind_unfold. unfold modify at 1. rewrite bind_unfold.
  set (pid := uuid_str env (uuid_drawn st)).
  set (st1 := set_photos _ _).
  assert (root_files st1 = root_files st) as Hroot by done.
  rewrite (extract_embeddings_frame u path st st1 Hroot).
  assert (files_grow fn st st1) as Hg1 by (by apply same_files_grow).
  destruct (snd (extract_embeddings env u path st)) as [[|f fs]|err] eqn:Hfaces.
  - (* no face: the scene label *)
    rewrite bind_unfold, (groq_describe_for_folder_frame u path st st1 Hroot).
    assert (∃ slug, snd (groq_describe_for_folder env u path st) = Ok slug) as [slug Hslug]
      by (unfold groq_describe_for_folder, gets; simpl; eauto).
    rewrite Hslug. rewrite bind_unfold.
    destruct (_find_or_create_scene_person_spec u slug st1)
      as (st2 & g & -> & Hgu & Hgf & Hgin & Hph2 & Hl2 & Hf2 & Hsel).
    change (persons st1) with (persons st) in Hsel.
    change (uuid_drawn st1) with (S (uuid_drawn st)) in Hsel.
    rewrite bind_unfold.
    destruct (_copy_to_folder_spec env u (p_folder_name g) path fn st2)
      as (st3 & out3 & -> & (Hp3 & Hph3 & Hl3) & Hfg3 & _ & _ & Hok3 & _).
    assert (files_grow fn st st3) as Hgrow.
    { eapply files_grow_trans; [exact Hg1|].
      eapply files_grow_trans; [by apply same_files_grow|done]. }
    assert (persons st `prefix_of` persons st3 ∧
            persons st3 = match filter (fun p => p_user_id p = u ∧ p_folder_name p = slug)
                                       (persons st) with
                          | _ :: _ => persons st
                          | [] => persons st ++ [g]
                          end ∧
            g = match filter (fun p => p_user_id p = u ∧ p_folder_name p = slug)
                             (persons st) with
                | g0 :: _ => g0
                | [] => new_scene_person (uuid_str env (S (uuid_drawn st))) u slug
                end) as (Hpre & Hpers & Hgis).
    { rewrite Hp3. destruct (filter _ (persons st)) as [|g0 rest].
      - destruct Hsel as [-> ->]. split_and!; [by apply prefix_app_r|done|done].
      - destruct Hsel as [-> ->]. done. }
    assert (photos st3 = photos st ++ [Photo pid u fn fn]) as Hphotos
      by (by rewrite Hph3, Hph2).
    assert (photo_persons st3 = photo_persons st) as Hlinks by (by rewrite Hl3, Hl2).
    destruct out3 as [[]|err].
    + rewrite bind_unfold. unfold _link at 1, modify at 1.
      eexists _, _, [g]. split; [reflexivity|]. simpl.
      rewrite <- Hgis.
      split_and!; try done; try congruence.
      * repeat constructor. set_solver.
      * constructor; [|constructor].
        split_and!; [by rewrite Hp3|done|exact (Hok3 eq_refl)].
    + exists st3, (Raise err), []. simpl. rewrite app_nil_r. rewrite <- Hgis.
      split_and!; try done; constructor.
  - (* faces *)
    rewrite bind_unfold.
    destruct (face_loop_spec u path fn pid (f :: fs) st1 ∅ [])
      as (st' & out & gs & -> & Hl & Hnd & _ & Hall & Hpre & Hph & Hfg & Hout).
    assert (files_grow fn st st') as Hgrow by exact (files_grow_trans _ _ _ _ Hg1 Hfg).
    destruct out as [refs|err].
    + eexists _, _, gs. split; [reflexivity|]. simpl.
      split_and!; try done.
      * eapply Forall_impl; [exact Hall|]. by intros g (? & ? & ? & ?).
      * eapply Forall_impl; [exact Hall|]. by intros g (? & ? & ? & ?).
    + exists st', (Raise err), gs.
      split_and!; try done.
      * eapply Forall_impl; [exact Hall|]. by intros g (? & ? & ? & ?).
      * eapply Forall_impl; [exact Hall|]. by intros g (? & ? & ? & ?).
  - unfold extract_embeddings, gets in Hfaces. simpl in Hfaces.
    by repeat case_match.
Qed.

End Upload.

(** ** C3: one attachment per resolved group *)

(** C3. For every upload, the rows [gs] the image is attached to have
    pairwise distinct ids, also when several embeddings of the image
    resolve to the same row; exactly one membership link per row of [gs]
    is appended, each row's folder holds the file, and no folder gained
    more than that one file. *)
Theorem C3_attached_once_per_group (env : Env) (u path fn : string) (st : State) :
  ∃ st' out gs,
    process_uploaded_image env u path fn st = (st', out) ∧
    NoDup (map p_id gs) ∧
    photo_persons st'
    = photo_persons st ++ map (fun g => PhotoPerson (uuid_str env (uuid_drawn st)) (p_id g)) gs ∧
    Forall (fun g => g ∈ persons st' ∧
                     isfile st' (in_folder u (p_folder_name g) fn) = true) gs ∧
    files_grow fn st st' ∧
    match out with
    | Ok r => r_persons r = map person_ref_of gs
    | Raise _ => True
    end.
Proof.
  destruct (process_uploaded_image_spec env u path fn st)
    as (st' & out & gs & Hrun & _ & Hl & Hnd & Hall & _ & Hfg & Hout & _).
  exists st', out, gs. split_and!; try done.
  - eapply Forall_impl; [exact Hall|]. by intros g (? & ? & ?).
  - destruct out; [|done]. by destruct Hout.
Qed.

(** Two faces of the same person and one of another: two rows, two links. *)
Example attach_two_faces_of_one_person :
  let env := demo_env [face_of [1; 0]%float; face_of [1; 0]%float; face_of [0; 1]%float]
                      (Ok "") (fun _ => true) in
  let run := process_uploaded_image env "u" "a.jpg" "a.jpg" (with_upload "a.jpg" empty_state) in
  photo_persons (fst run)
  = [PhotoPerson (demo_uuid_str 0) (demo_uuid_str 1);
     PhotoPerson (demo_uuid_str 0) (demo_uuid_str 2)] ∧
  map p_id (persons (fst run)) = [demo_uuid_str 1; demo_uuid_str 2] ∧
  list_images (fst run) "u" "person_1f3a9c2e" = ["a.jpg"] ∧
  list_images (fst run) "u" "person_2f3a9c2e" = ["a.jpg"].
Proof. vm_compute. done. Qed.

(** One face that matches no group: one new group, the picture in its
    listing, one membership link for the new photo row. *)
Example upload_one_new_face :
  let env := demo_env [face_of [0; 1]%float] (Ok "") (fun _ => true) in
  let st := set_persons (fun _ => [alice]) (with_upload "a.jpg" empty_state) in
  let run := process_uploaded_image env "u" "a.jpg" "a.jpg" st in
  map p_id (persons (fst run)) = ["g-alice"; demo_uuid_str 1] ∧
  list_images (fst run) "u" "person_1f3a9c2e" = ["a.jpg"] ∧
  links_of (fst run) (demo_uuid_str 0) = [PhotoPerson (demo_uuid_str 0) (demo_uuid_str 1)] ∧
  map ph_id (photos (fst run)) = [demo_uuid_str 0].
Proof. vm_compute. done. Qed.

(** ** C4: the copy is skipped when the name is taken *)

Lemma list_images_NoDup st u f : NoDup (list_images st u f).
Proof.
  unfold list_images. rewrite merge_sort_Permutation.
  apply NoDup_filter, NoDup_fst_map_to_list.
Qed.

Lemma list_images_dir st st' u f :
  dir_of st' u f = dir_of st u f → list_images st' u f = list_images st u f.
Proof. unfold list_images. by intros ->. Qed.

(** C4. A file of that name already in the folder: [_copy_to_folder]
    writes nothing; a second run after a successful one writes nothing;
    and a whole upload of that file name leaves the folder, hence its
    listing, as it was.  A listing never shows a name twice. *)
Theorem C4_copy_skipped_when_present (env : Env) (u f src fn : string) (st : State) :
  (isfile st (in_folder u f fn) = true →
   _copy_to_folder env u f src fn st = (st, Ok tt)) ∧
  (∀ st1, _copy_to_folder env u f src fn st = (st1, Ok tt) →
          _copy_to_folder env u f src fn st1 = (st1, Ok tt)) ∧
  (isfile st (in_folder u f fn) = true →
   ∀ path, ∃ st' out,
     process_uploaded_image env u path fn st = (st', out) ∧
     dir_of st' u f = dir_of st u f ∧ list_images st' u f = list_images st u f) ∧
  NoDup (list_images st u f).
Proof.
  assert (∀ s, isfile s (in_folder u f fn) = true →
               _copy_to_folder env u f src fn s = (s, Ok tt)) as Hskip.
  { intros s Hs.
    destruct (_copy_to_folder_spec env u f src fn s) as (s' & out & -> & _ & _ & _ & H & _).
    by destruct (H Hs) as [-> ->]. }
  split_and!; [by apply Hskip| | |apply list_images_NoDup].
  - intros st1 Hrun. apply Hskip.
    destruct (_copy_to_folder_spec env u f src fn st) as (s' & out & E & _ & _ & _ & _ & H & _).
    rewrite E in Hrun. injection Hrun as -> ->. by apply H.
  - intros Hfile path.
    destruct (process_uploaded_image_spec env u path fn st)
      as (st' & out & gs & -> & _ & _ & _ & _ & _ & [_ Hfg] & _).
    exists st', out. split; [done|].
    assert (dir_of st' u f = dir_of st u f) as Hdir.
    { destruct (Hfg u f) as [?|[Hnone _]]; [done|].
      unfold isfile in Hfile. apply bool_decide_eq_true in Hfile as [b Hb].
      simpl in Hb. congruence. }
    split; [done|by apply list_images_dir].
Qed.

(** The same file name uploaded twice, without a face, with the same label:
    one group, one entry in its listing. *)
Example upload_same_name_twice :
  let env := demo_env [] (Ok "Beach Sunset!!") (fun _ => true) in
  let st1 := fst (process_uploaded_image env "u" "b.jpg" "b.jpg"
                    (with_upload "b.jpg" empty_state)) in
  let st2 := fst (process_uploaded_image env "u" "b.jpg" "b.jpg" st1) in
  list_images st1 "u" "beach_sunset" = ["b.jpg"] ∧
  list_images st2 "u" "beach_sunset" = ["b.jpg"] ∧
  map p_folder_name (persons st2) = ["beach_sunset"] ∧
  List.length (photos st2) = 2.
Proof. vm_compute. done. Qed.

(** ** C2: an image without a face goes to the group of its scene label *)





(** ** C8: the embedding of the groups an image is attached to *)

(** C8 (amended). For every upload: with at least one detected face, every
    group the image is attached to has a non-null embedding; with none, the
    image is attached to at most one group, whose folder key is the slug,
    and whose embedding is null provided no row of the owner with that
    folder key carries an embedding (the row is looked up by folder key
    alone). *)
Theorem C8_embedding_of_attached_groups (env : Env) (u path fn : string) (st : State) :
  ∃ st' out gs,
    process_uploaded_image env u path fn st = (st', out) ∧
    photo_persons st'
    = photo_persons st ++ map (fun g => PhotoPerson (uuid_str env (uuid_drawn st)) (p_id g)) gs ∧
    Forall (fun g => g ∈ persons st') gs ∧
    match out with
    | Ok r => r_persons r = map person_ref_of gs
    | Raise _ => True
    end ∧
    match snd (extract_embeddings env u path st) with
    | Ok (_ :: _) => Forall (fun g => p_embedding g ≠ None) gs
    | _ =>
        (List.length gs ≤ 1)%nat ∧
        (∀ r, out = Ok r → List.length gs = 1) ∧
        ∀ slug, groq_describe_for_folder env u path st = (st, Ok slug) →
          Forall (fun g => p_folder_name g = slug) gs ∧
          ((∀ p, p ∈ persons_of st u → p_folder_name p = slug → p_embedding p = None) →
           Forall (fun g => p_embedding g = None) gs)
    end.
Proof.
  destruct (process_uploaded_image_spec env u path fn st)
    as (st' & out & gs & Hrun & _ & Hl & _ & Hall & _ & _ & Hout & Hbranch).
  exists st', out, gs. split_and!; try done.
  - eapply Forall_impl; [exact Hall|]. by intros g (? & ? & ?).
  - destruct out; [|done]. by destruct Hout.
  - destruct (snd (extract_embeddings env u path st)) as [[|f fs]|err]; [|by destruct Hbranch|done].
    cbv zeta in Hbranch. destruct Hbranch as (Hgf & Hgu & _ & Hgs).
    split_and!.
    + destruct out as [r|e]; [destruct Hgs as [-> _]|rewrite Hgs]; simpl; lia.
    + intros r ->. by destruct Hgs as [-> _].
    + intros slug Hslug. rewrite Hslug in Hgf, Hgu, Hgs. simpl in *.
      set (sel := filter (fun p => p_user_id p = u ∧ p_folder_name p = slug) (persons st)) in *.
      assert (gs = [] ∨ gs = [match sel with
                              | g0 :: _ => g0
                              | [] => new_scene_person
                                        (uuid_str env (S (uuid_drawn st))) u slug
                              end]) as [->| ->].
      { destruct out; [right; by destruct Hgs|by left]. }
      { split; [constructor|]. intros _. constructor. }
      split; [by apply Forall_singleton|].
      intros Hnull. apply Forall_singleton.
      destruct sel as [|g0 rest] eqn:Hsel; [done|].
      assert (g0 ∈ sel) as [[Hu Hf] Hin]%list_elem_of_filter by (rewrite Hsel; by left).
      apply Hnull; [|done]. by apply list_elem_of_filter.
Qed.

(** The specification's sentence fails when the label is the folder key of a face
    group: no face is detected, and the image is attached to a group whose
    embedding is not null. *)
Lemma C8_counterexample :
  let env := demo_env [] (Ok "person_0a1b2c3d") (fun _ => true) in
  let st := set_persons (fun _ => [alice]) (with_upload "t.jpg" empty_state) in
  extract_embeddings env "u" "t.jpg" st = (st, Ok []) ∧
  snd (process_uploaded_image env "u" "t.jpg" "t.jpg" st)
  = Ok (Result "t.jpg" 0 [person_ref_of alice] (demo_uuid_str 0) groq_vision) ∧
  persons (fst (process_uploaded_image env "u" "t.jpg" "t.jpg" st)) = [alice] ∧
  photo_persons (fst (process_uploaded_image env "u" "t.jpg" "t.jpg" st))
  = [PhotoPerson (demo_uuid_str 0) (p_id alice)] ∧
  p_embedding alice = Some (EmbDict (Some [1; 0]%float)).
Proof. vm_compute. done. Qed.

(** ** C5: deleting a folder cascades *)

Section DeleteFolder.

(** The loop deletes the photos whose id is listed and that have no link
    left, and touches nothing else. *)
Lemma delete_unlinked_spec ids : ∀ st,
  delete_unlinked ids st
  = (set_photos (filter (fun ph => ¬ (ph_id ph ∈ ids ∧ links_of st (ph_id ph) = []))) st,
     Ok tt).
Proof.
  induction ids as [|pid ids IH]; intros st.
  - simpl. unfold mret, M_ret. f_equal.
    destruct st. unfold set_photos. simpl. f_equal.
    symmetry. apply filter_all. intros ph _ [H _]. by apply elem_of_nil in H.
  - simpl. rewrite bind_unfold. unfold gets at 1. rewrite bind_unfold.
    fold (links_of st pid).
    destruct (links_of st pid) as [|r rs] eqn:Hrem.
    + unfold modify at 1. rewrite IH. f_equal.
      unfold set_photos. simpl. f_equal.
      rewrite list_filter_filter. apply list_filter_iff. intros ph.
      change (links_of (MkState _ _ _ _ _ _ _ _ _) (ph_id ph)) with (links_of st (ph_id ph)).
      split.
      * intros [Hn Hne] [[E|Hin]%elem_of_cons Hl]; [congruence|]. by apply Hn.
      * intros Hn. split.
        -- intros [Hin Hl]. apply Hn. split; [by right|done].
        -- intros E. apply Hn. rewrite E. split; [by left|done].
    + unfold mret at 1, M_ret at 1. rewrite IH. f_equal.
      unfold set_photos. f_equal. apply list_filter_iff. intros ph. split.
      * intros Hn [[->|Hin]%elem_of_cons Hl]; [congruence|]. by apply Hn.
      * intros Hn [Hin Hl]. apply Hn. split; [by right|done].
Qed.



End DeleteFolder.

(** The scenario of the specification: the group is the only one of two
    images, and one of the two groups of a third. *)
Example delete_folder_scenario :
  let st := shared_album_state in
  let run := delete_folder "g-alice" "u" st in
  snd run = Ok true ∧
  map ph_id (photos (fst run)) = ["p3"] ∧
  photo_persons (fst run) = [PhotoPerson "p3" "g-bob"] ∧
  persons (fst run) = [bob] ∧
  delete_folder "g-alice" "someone-else" st = (st, Ok false).
Proof. vm_compute. done. Qed.

(** ** Moving a photo between folders *)

Section Move.
Variable env : Env.

(** Every way [move_photo_to_folder] can go, with what it leaves behind. *)
Lemma move_photo_to_folder_spec u s d fn keep st :
  ∃ st' out,
    move_photo_to_folder env u s d fn keep st = (st', out) ∧
    persons st' = persons st ∧ photos st' = photos st ∧ root_files st' = root_files st ∧
    match filter (fun p => p_id p = s ∧ p_user_id p = u) (persons st),
          filter (fun p => p_id p = d ∧ p_user_id p = u) (persons st) with
    | src :: _, dest :: _ =>
        let src_file := in_folder u (p_folder_name src) fn in
        let dst_file := in_folder u (p_folder_name dest) fn in
        match read_file st src_file with
        | None => out = Ok false ∧ photo_persons st' = photo_persons st ∧ same_files st st'
        | Some b =>
            if decide (p_folder_name src = p_folder_name dest)
            then out = Raise SameFileError ∧ photo_persons st' = photo_persons st ∧
                 same_files st st'
            else if may_write env dst_file
            then (∀ u' f', dir_of st' u' f'
                    = if decide ((u, p_folder_name src) = (u', f'))
                      then (if keep || negb (may_remove env src_file)
                            then dir_of st u' f' else delete fn (dir_of st u' f'))
                      else if decide ((u, p_folder_name dest) = (u', f'))
                           then <[fn := b]> (dir_of st u' f')
                           else dir_of st u' f') ∧
                 if keep || may_remove env src_file
                 then out = Ok true ∧ photo_persons st' = moved_links st u s d fn keep
                 else out = Raise OSError ∧ photo_persons st' = photo_persons st
            else out = Raise OSError ∧ photo_persons st' = photo_persons st ∧
                 same_files st st'
        end
    | _, _ => st' = st ∧ out = Ok false
    end.
Proof.
  unfold move_photo_to_folder. rewrite bind_gets, bind_gets.
  destruct (filter (fun p => p_id p = s ∧ p_user_id p = u) (persons st)) as [|src rs];
    [by exists st, (Ok false)|].
  destruct (filter (fun p => p_id p = d ∧ p_user_id p = u) (persons st)) as [|dest rd];
    [by exists st, (Ok false)|].
  cbv beta iota zeta. rewrite bind_unfold.
  destruct (folder_disk_spec u (p_folder_name src) st)
    as (st1 & -> & (Hp1 & Hph1 & Hl1) & [Hr1 Hd1] & _).
  rewrite bind_unfold.
  destruct (folder_disk_spec u (p_folder_name dest) st1)
    as (st2 & -> & (Hp2 & Hph2 & Hl2) & [Hr2 Hd2] & _).
  rewrite bind_gets.
  assert (∀ u' f', dir_of st2 u' f' = dir_of st u' f') as Hd by (intros; by rewrite Hd2, Hd1).
  assert (read_file st2 (in_folder u (p_folder_name src) fn)
          = read_file st (in_folder u (p_folder_name src) fn)) as Hread
    by (simpl; by rewrite Hd).
  unfold isfile. rewrite Hread.
  destruct (read_file st (in_folder u (p_folder_name src) fn)) as [b|] eqn:Hsrc; cycle 1.
  { rewrite bool_decide_eq_false_2 by (by intros [? [=]]).
    exists st2, (Ok false). split_and!; try done; try congruence; try (split; [congruence|done]). }
  rewrite bool_decide_eq_true_2 by eauto.
  rewrite bind_unfold. unfold shutil_copy2 at 1. rewrite Hread.
  destruct (decide (p_folder_name src = p_folder_name dest)) as [Efold|Nfold].
  { rewrite decide_True by (by rewrite Efold).
    exists st2, (Raise SameFileError). split_and!; try done; try congruence; try (split; [congruence|done]). }
  rewrite decide_False by congruence.
  destruct (may_write env (in_folder u (p_folder_name dest) fn)) eqn:Hw; cycle 1.
  { exists st2, (Raise OSError). split_and!; try done; try congruence; try (split; [congruence|done]). }
  cbv beta iota. set (st3 := write_file _ b st2).
  assert (∀ u' f', dir_of st3 u' f'
            = if decide ((u, p_folder_name dest) = (u', f'))
              then <[fn := b]> (dir_of st u' f') else dir_of st u' f') as Hd3.
  { intros u' f'. subst st3. rewrite dir_of_write.
    case_decide as E; [|apply Hd]. injection E as <- <-. by rewrite Hd. }
  assert (persons st3 = persons st) as Hp3
    by (change (persons st3) with (persons st2); congruence).
  assert (photos st3 = photos st) as Hph3
    by (change (photos st3) with (photos st2); congruence).
  assert (root_files st3 = root_files st) as Hr3
    by (change (root_files st3) with (root_files st2); congruence).
  assert (photo_persons st3 = photo_persons st) as Hl3
    by (change (photo_persons st3) with (photo_persons st2); congruence).
  destruct keep; simpl orb.
  - (* the source keeps its copy *)
    rewrite bind_ret, bind_gets, Hph3.
    unfold moved_links.
    destruct (filter _ (photos st)) as [|ph rest].
    + exists st3, (Ok true). split_and!; try done; try congruence.
      intros u' f'. rewrite Hd3. repeat case_decide; simplify_eq; done.
    + cbv beta iota zeta. rewrite bind_gets, Hl3.
      unfold ensure_link.
      destruct (filter _ (photo_persons st)) as [|r rr].
      * rewrite bind_modify, bind_ret. eexists _, _. split; [reflexivity|]. simpl.
        split_and!; try congruence.
        intros u' f'.
        change (dir_of (set_photo_persons _ st3) u' f') with (dir_of st3 u' f').
        rewrite Hd3. repeat case_decide; simplify_eq; done.
      * rewrite bind_ret, bind_ret. exists st3, (Ok true).
        split_and!; try done; try congruence.
        intros u' f'. rewrite Hd3. repeat case_decide; simplify_eq; done.
  - (* the source file is removed *)
    rewrite bind_unfold. unfold os_remove at 1.
    assert (read_file st3 (in_folder u (p_folder_name src) fn) = Some b) as ->.
    { simpl. rewrite Hd3, decide_False by congruence. exact Hsrc. }
    destruct (may_remove env (in_folder u (p_folder_name src) fn)) eqn:Hrm; simpl negb; cycle 1.
    { exists st3, (Raise OSError). split_and!; try done; try congruence.
      intros u' f'. rewrite Hd3. repeat case_decide; simplify_eq; done. }
    cbv beta iota. set (st4 := unlink_file _ st3).
    assert (∀ u' f', dir_of st4 u' f'
              = if decide ((u, p_folder_name src) = (u', f'))
                then delete fn (dir_of st u' f')
                else if decide ((u, p_folder_name dest) = (u', f'))
                     then <[fn := b]> (dir_of st u' f') else dir_of st u' f') as Hd4.
    { intros u' f'. subst st4. rewrite dir_of_unlink.
      case_decide as E; [|apply Hd3]. injection E as <- <-.
      rewrite Hd3, decide_False by congruence. done. }
    assert (persons st4 = persons st) as Hp4 by (change (persons st4) with (persons st3); congruence).
    assert (photos st4 = photos st) as Hph4 by (change (photos st4) with (photos st3); congruence).
    assert (root_files st4 = root_files st) as Hr4
      by (change (root_files st4) with (root_files st3); congruence).
    assert (photo_persons st4 = photo_persons st) as Hl4
      by (change (photo_persons st4) with (photo_persons st3); congruence).
    rewrite bind_gets, Hph4.
    unfold moved_links.
    destruct (filter _ (photos st)) as [|ph rest].
    + exists st4, (Ok true). split_and!; try done; try congruence.
    + cbv beta iota zeta. rewrite bind_gets, Hl4.
      unfold ensure_link.
      destruct (filter _ (photo_persons st)) as [|r rr].
      * rewrite bind_modify, bind_modify.
        eexists _, _. split; [reflexivity|]. simpl.
        split_and!; try done; try congruence.
        unfold remove_link. by rewrite ?Hl4, ?Hl2, ?Hl1.
      * rewrite bind_ret, bind_modify.
        eexists _, _. split; [reflexivity|]. simpl.
        split_and!; try done; try congruence.
        unfold remove_link. by rewrite ?Hl4, ?Hl2, ?Hl1.
Qed.

End Move.

(** ** C9: no photo row is left without a link *)

Section NoOrphans.
Variable env : Env.

Lemma keeps_linked_tables st st' :
  photos st' = photos st → photo_persons st' = photo_persons st → keeps_linked st st'.
Proof. intros Hph Hl ph Hin. unfold links_of. rewrite Hl. by rewrite Hph in Hin. Qed.

Lemma keeps_linked_trans st1 st2 st3 :
  keeps_linked st1 st2 → keeps_linked st2 st3 → keeps_linked st1 st3.
Proof.
  intros H12 H23 ph Hin. destruct (H23 ph Hin) as [Hin2 Hl23].
  destruct (H12 ph Hin2) as [Hin1 Hl12]. auto.
Qed.

Lemma keeps_linked_no_orphans st st' : keeps_linked st st' → no_orphans st → no_orphans st'.
Proof. intros Hk Hno ph Hin. destruct (Hk ph Hin) as [Hin0 Hl]. auto. Qed.

(** One round of the loop of [delete_photo_from_folder]. *)
Lemma unlink_photos_keeps rows g : ∀ st,
  ∃ st', unlink_photos rows g st = (st', Ok tt) ∧ keeps_linked st st'.
Proof.
  induction rows as [|ph rows IH]; intros st.
  { exists st. split; [done|]. by apply keeps_linked_tables. }
  simpl. rewrite bind_modify, bind_gets.
  set (st1 := set_photo_persons _ st).
  assert (∀ pid, pid ≠ ph_id ph → links_of st1 pid = links_of st pid) as Hother.
  { intros pid Hne. unfold links_of. subst st1. simpl.
    rewrite list_filter_filter. apply list_filter_iff. intros r.
    split; [by intros [? ?]|]. intros Hp. split; [done|]. intros [? _]. congruence. }
  fold (links_of st1 (ph_id ph)).
  destruct (links_of st1 (ph_id ph)) as [|r rr] eqn:Hrem.
  - rewrite bind_modify. set (st2 := set_photos _ st1).
    destruct (IH st2) as (st' & -> & Hk). exists st'. split; [done|].
    eapply keeps_linked_trans; [|exact Hk].
    intros q [Hne Hq]%list_elem_of_filter. split; [done|].
    change (links_of st2 (ph_id q)) with (links_of st1 (ph_id q)).
    by rewrite Hother.
  - rewrite bind_ret. destruct (IH st1) as (st' & -> & Hk). exists st'. split; [done|].
    eapply keeps_linked_trans; [|exact Hk].
    intros q Hq. split; [done|].
    destruct (decide (ph_id q = ph_id ph)) as [->|Hne]; [by rewrite Hrem|].
    by rewrite Hother.
Qed.

Lemma delete_photo_from_folder_keeps g u fn st :
  ∃ st' out, delete_photo_from_folder env g u fn st = (st', out) ∧ keeps_linked st st'.
Proof.
  unfold delete_photo_from_folder. rewrite bind_gets.
  destruct (filter _ (persons st)) as [|p rest].
  { exists st, (Ok false). split; [done|]. by apply keeps_linked_tables. }
  cbv beta iota zeta. rewrite bind_unfold.
  destruct (folder_disk_spec u (p_folder_name p) st) as (st1 & -> & (Hp1 & Hph1 & Hl1) & _).
  rewrite bind_unfold.
  set (fpath := in_folder u (p_folder_name p) fn).
  assert (∃ st2 removed,
            try_except (present ← gets (fun st => isfile st fpath);
                        (if present : bool then os_remove env fpath else mret tt);;
                        mret true)
                       (fun _ => mret false) st1 = (st2, Ok removed) ∧
            photos st2 = photos st ∧ photo_persons st2 = photo_persons st)
    as (st2 & removed & -> & Hph2 & Hl2).
  { unfold try_except. rewrite bind_gets. destruct (isfile st1 fpath) eqn:Hf.
    - rewrite bind_unfold. unfold os_remove.
      apply bool_decide_eq_true in Hf as [b ->].
      destruct (may_remove env fpath); [|by exists st1, false].
      eexists _, true. split; [reflexivity|]. by destruct fpath.
    - rewrite bind_ret. by exists st1, true. }
  destruct removed.
  - rewrite bind_gets, bind_unfold.
    destruct (unlink_photos_keeps (filter (fun ph => ph_user_id ph = u ∧ ph_filename ph = fn)
                                          (photos st2)) g st2) as (st' & -> & Hk).
    exists st', (Ok true). split; [done|].
    eapply keeps_linked_trans; [|exact Hk]. by apply keeps_linked_tables.
  - exists st2, (Ok false). split; [done|]. by apply keeps_linked_tables.
Qed.

Lemma delete_folder_keeps g u st :
  ∃ st' out, delete_folder g u st = (st', out) ∧ keeps_linked st st'.
Proof.
  unfold delete_folder. rewrite bind_gets.
  destruct (filter _ (persons st)) as [|p rest].
  { exists st, (Ok false). split; [done|]. by apply keeps_linked_tables. }
  cbv beta iota zeta.
  rewrite bind_gets, bind_modify, bind_unfold, delete_unlinked_spec.
  eexists _, _. split; [reflexivity|]. simpl.
  intros q [Hkeep Hq]%list_elem_of_filter. split; [done|]. intros Hlinked.
  set (st1 := set_photo_persons _ st) in *.
  match goal with |- links_of ?s _ ≠ [] =>
    change (links_of s (ph_id q)) with (links_of st1 (ph_id q)) end.
  intros Hnone. apply Hkeep. split; [|done].
  (* all its links went away, so one of them was a link to the group *)
  apply filter_not_nil in Hlinked as (r & Hr & Hpid).
  apply list_elem_of_fmap. exists r. split; [done|].
  apply list_elem_of_filter. split; [|done].
  destruct (decide (pp_person_id r = g)) as [|Hne]; [done|].
  assert (r ∈ links_of st1 (ph_id q)) as Hin.
  { apply list_elem_of_filter. split; [done|]. by apply list_elem_of_filter. }
  rewrite Hnone in Hin. by apply elem_of_nil in Hin.
Qed.

Lemma move_photo_to_folder_keeps u s d fn keep st :
  ∃ st' out, move_photo_to_folder env u s d fn keep st = (st', out) ∧ keeps_linked st st'.
Proof.
  destruct (move_photo_to_folder_spec env u s d fn keep st)
    as (st' & out & -> & _ & Hph & _ & Hcases).
  exists st', out. split; [done|].
  destruct (filter (fun p => p_id p = s ∧ p_user_id p = u) (persons st)) as [|src rs] eqn:Hs;
    [destruct Hcases as [-> _]; by apply keeps_linked_tables|].
  destruct (filter (fun p => p_id p = d ∧ p_user_id p = u) (persons st)) as [|dest rd] eqn:Hd;
    [destruct Hcases as [-> _]; by apply keeps_linked_tables|].
  cbv zeta in Hcases.
  destruct (read_file st _) as [b|];
    [|destruct Hcases as (_ & ? & _); by apply keeps_linked_tables].
  destruct (decide (p_folder_name src = p_folder_name dest)) as [|Nfold];
    [destruct Hcases as (_ & ? & _); by apply keeps_linked_tables|].
  destruct (may_write env _);
    [|destruct Hcases as (_ & ? & _); by apply keeps_linked_tables].
  destruct Hcases as [_ Hcases].
  destruct (keep || may_remove env _) eqn:Hgo;
    [|destruct Hcases as [_ ?]; by apply keeps_linked_tables].
  destruct Hcases as [_ Hl].
  (* the two groups are different rows: their folders differ *)
  assert (s ≠ d) as Hsd.
  { intros ->. rewrite Hs in Hd. by injection Hd as -> _. }
  intros q Hq. rewrite Hph in Hq. split; [done|]. intros Hlinked.
  unfold links_of. rewrite Hl. unfold moved_links.
  destruct (filter _ (photos st)) as [|ph rest]; [done|]. cbv zeta.
  set (l := ensure_link (ph_id ph) d (photo_persons st)).
  assert (∀ r, r ∈ photo_persons st → r ∈ l) as Hsub.
  { intros r Hr. subst l. unfold ensure_link.
    destruct (filter (fun r => pp_photo_id r = ph_id ph ∧ pp_person_id r = d)
                     (photo_persons st)); [apply elem_of_app; by left|done]. }
  assert (∃ r, r ∈ l ∧ pp_photo_id r = ph_id ph ∧ pp_person_id r = d) as (rd' & Hrd & Hrp & Hrg).
  { subst l. unfold ensure_link.
    destruct (filter (fun r => pp_photo_id r = ph_id ph ∧ pp_person_id r = d) (photo_persons st))
      as [|r rr] eqn:E.
    - exists (PhotoPerson (ph_id ph) d). split; [|done].
      apply elem_of_app. right. by left.
    - assert (r ∈ filter (fun r => pp_photo_id r = ph_id ph ∧ pp_person_id r = d)
                         (photo_persons st)) as [[? ?] ?]%list_elem_of_filter
        by (rewrite E; by left).
      by exists r. }
  apply filter_not_nil.
  destruct (decide (ph_id q = ph_id ph)) as [Eq|Hne].
  - exists rd'. split; [|congruence].
    destruct keep; [done|]. apply list_elem_of_filter. split; [|done].
    intros [_ ?]. congruence.
  - apply filter_not_nil in Hlinked as (r & Hr & Hpid). exists r. split; [|done].
    destruct keep; [by apply Hsub|].
    apply list_elem_of_filter. split; [|by apply Hsub].
    intros [? _]. congruence.
Qed.

Lemma maintenance_step_keeps_linked st st' :
  maintenance_step env st st' → keeps_linked st st'.
Proof.
  intros [g u fn out Hrun|g u out Hrun|u s d fn keep out Hrun].
  - destruct (delete_photo_from_folder_keeps g u fn st) as (st2 & out2 & E & Hk).
    rewrite E in Hrun. by injection Hrun as <- _.
  - destruct (delete_folder_keeps g u st) as (st2 & out2 & E & Hk).
    rewrite E in Hrun. by injection Hrun as <- _.
  - destruct (move_photo_to_folder_keeps u s d fn keep st) as (st2 & out2 & E & Hk).
    rewrite E in Hrun. by injection Hrun as <- _.
Qed.


(** The invariant holds along any sequence of deletions and moves. *)
Lemma no_orphans_invariant st st' :
  rtc (maintenance_step env) st st' → no_orphans st → no_orphans st'.
Proof.
  induction 1 as [|st1 st2 st3 Hstep _ IH]; [done|].
  intros Hno. apply IH. eapply keeps_linked_no_orphans; [|exact Hno].
  by apply maintenance_step_keeps_linked.
Qed.

End NoOrphans.



(** ** C6: moving a photo between two folders *)

Section MoveClaim.
Variable env : Env.

Lemma elem_of_list_images st u f x :
  x ∈ list_images st u f ↔ is_image_name x = true ∧ is_Some (dir_of st u f !! x).
Proof.
  unfold list_images. rewrite merge_sort_Permutation, list_elem_of_filter, list_elem_of_fmap.
  rewrite Is_true_true. apply and_iff_compat_l. split.
  - intros ([k b] & -> & Hin). apply elem_of_map_to_list in Hin. simpl. eauto.
  - intros [b Hb]. exists (x, b). split; [done|]. by apply elem_of_map_to_list.
Qed.

Lemma head_filter_cons {A : Type} (P : A → Prop) `{!∀ x, Decision (P x)} (l : list A) a :
  head (filter P l) = Some a → ∃ rest, filter P l = a :: rest.
Proof. destruct (filter P l) as [|b rest]; [done|]. intros [= ->]. by exists rest. Qed.

Lemma links_after_move pid s d keep (l : list photo_person) :
  s ≠ d →
  let l' := if keep : bool then ensure_link pid d l else remove_link pid s (ensure_link pid d l) in
  filter (fun r => pp_photo_id r = pid ∧ pp_person_id r = d) l'
  = match filter (fun r => pp_photo_id r = pid ∧ pp_person_id r = d) l with
    | [] => [PhotoPerson pid d]
    | r :: rs => r :: rs
    end ∧
  filter (fun r => pp_photo_id r = pid ∧ pp_person_id r = s) l'
  = (if keep then filter (fun r => pp_photo_id r = pid ∧ pp_person_id r = s) l else []) ∧
  ∀ r, ¬ (pp_photo_id r = pid ∧ (pp_person_id r = s ∨ pp_person_id r = d)) →
       (r ∈ l' ↔ r ∈ l).
Proof.
  intros Hsd.
  assert (filter (fun r => pp_photo_id r = pid ∧ pp_person_id r = d) (ensure_link pid d l)
          = match filter (fun r => pp_photo_id r = pid ∧ pp_person_id r = d) l with
            | [] => [PhotoPerson pid d]
            | r :: rs => r :: rs
            end) as Hd.
  { unfold ensure_link.
    destruct (filter (fun r => pp_photo_id r = pid ∧ pp_person_id r = d) l) as [|r rs] eqn:E;
      [|done].
    rewrite filter_app, E. simpl. by rewrite filter_cons_True, filter_nil. }
  assert (filter (fun r => pp_photo_id r = pid ∧ pp_person_id r = s) (ensure_link pid d l)
          = filter (fun r => pp_photo_id r = pid ∧ pp_person_id r = s) l) as Hs.
  { unfold ensure_link.
    destruct (filter (fun r => pp_photo_id r = pid ∧ pp_person_id r = d) l) as [|r rs] eqn:E;
      [|done].
    rewrite filter_app, filter_cons_False, filter_nil, app_nil_r; [done|].
    simpl. intros [_ ?]. congruence. }
  assert (∀ r, ¬ (pp_photo_id r = pid ∧ (pp_person_id r = s ∨ pp_person_id r = d)) →
               (r ∈ ensure_link pid d l ↔ r ∈ l)) as Ho.
  { intros r Hr. unfold ensure_link.
    destruct (filter (fun r => pp_photo_id r = pid ∧ pp_person_id r = d) l); [|done].
    rewrite elem_of_app, list_elem_of_singleton. split; [|by left].
    intros [Hin| ->]; [done|]. destruct Hr. simpl. auto. }
  destruct keep; cbv zeta; [done|]. unfold remove_link. split_and!.
  - rewrite list_filter_filter_l; [done|]. intros r [_ Hg] [_ Hg']. congruence.
  - apply filter_none. intros r [Hn _]%list_elem_of_filter Hp. by apply Hn.
  - intros r Hr. rewrite list_elem_of_filter, Ho by done. split; [by intros [_ ?]|].
    intros Hin. split; [|done]. intros [? ?]. apply Hr. auto.
Qed.

(** C6 (amended). For an owner with a source and a destination group whose
    folders differ.  Source file missing: false, and no table row and no
    stored file changes.  Source file present, the disk accepting the copy
    (and the removal, when the source does not keep its copy): true; the
    destination folder holds the file with the same bytes; the source folder
    holds it exactly when [keep_in_source]; the listings show it
    accordingly (a listing shows image names only); for the owner's first
    photo row with that file name, when there is one, a link to the
    destination is inserted only when there was none, its links to the
    source are deleted unless the source keeps its copy, and no other link
    changes. *)
Theorem C6_move_between_folders (u s d fn : string) (keep : bool) (st : State)
  (src dest : person) :
  head (filter (fun p => p_id p = s ∧ p_user_id p = u) (persons st)) = Some src →
  head (filter (fun p => p_id p = d ∧ p_user_id p = u) (persons st)) = Some dest →
  p_folder_name src ≠ p_folder_name dest →
  (read_file st (in_folder u (p_folder_name src) fn) = None →
   ∃ st', move_photo_to_folder env u s d fn keep st = (st', Ok false) ∧
          same_tables st st' ∧ same_files st st') ∧
  (∀ b, read_file st (in_folder u (p_folder_name src) fn) = Some b →
        may_write env (in_folder u (p_folder_name dest) fn) = true →
        (keep = false → may_remove env (in_folder u (p_folder_name src) fn) = true) →
   ∃ st', move_photo_to_folder env u s d fn keep st = (st', Ok true) ∧
     read_file st' (in_folder u (p_folder_name dest) fn) = Some b ∧
     read_file st' (in_folder u (p_folder_name src) fn) = (if keep then Some b else None) ∧
     (fn ∈ list_images st' u (p_folder_name dest) ↔ is_image_name fn = true) ∧
     (fn ∈ list_images st' u (p_folder_name src) ↔ keep = true ∧ is_image_name fn = true) ∧
     persons st' = persons st ∧ photos st' = photos st ∧
     match filter (fun ph => ph_user_id ph = u ∧ ph_filename ph = fn) (photos st) with
     | [] => photo_persons st' = photo_persons st
     | ph :: _ =>
         links_to st' (ph_id ph) d
         = match links_to st (ph_id ph) d with
           | [] => [PhotoPerson (ph_id ph) d]
           | r :: rs => r :: rs
           end ∧
         links_to st' (ph_id ph) s = (if keep then links_to st (ph_id ph) s else []) ∧
         ∀ r, ¬ (pp_photo_id r = ph_id ph ∧ (pp_person_id r = s ∨ pp_person_id r = d)) →
              (r ∈ photo_persons st' ↔ r ∈ photo_persons st)
     end).
Proof.
  intros [rs Hs]%head_filter_cons [rd Hd]%head_filter_cons Nfold.
  assert (s ≠ d) as Hsd.
  { intros ->. rewrite Hs in Hd. by injection Hd as -> _. }
  destruct (move_photo_to_folder_spec env u s d fn keep st)
    as (st' & out & Hrun & Hp & Hph & Hr & Hcases).
  rewrite Hs, Hd in Hcases. cbv zeta in Hcases.
  split.
  - intros Hnone. rewrite Hnone in Hcases. destruct Hcases as (-> & Hl & Hf).
    by exists st'.
  - intros b Hb Hw Hrm. rewrite Hb, decide_False, Hw in Hcases by done.
    destruct Hcases as [Hdir Hcases].
    assert (keep || may_remove env (in_folder u (p_folder_name src) fn) = true) as Hgo.
    { destruct keep; [done|]. by rewrite Hrm. }
    rewrite Hgo in Hcases. destruct Hcases as [-> Hl].
    assert (dir_of st' u (p_folder_name dest) = <[fn := b]> (dir_of st u (p_folder_name dest)))
      as Hdd.
    { rewrite Hdir, decide_False, decide_True by congruence. done. }
    assert (dir_of st' u (p_folder_name src)
            = if keep then dir_of st u (p_folder_name src)
              else delete fn (dir_of st u (p_folder_name src))) as Hds.
    { rewrite Hdir, decide_True by done. destruct keep; [done|]. by rewrite Hrm. }
    assert (read_file st' (in_folder u (p_folder_name dest) fn) = Some b) as Hrd.
    { simpl. by rewrite Hdd, lookup_insert_eq. }
    assert (read_file st' (in_folder u (p_folder_name src) fn)
            = if keep then Some b else None) as Hrs.
    { simpl. rewrite Hds. destruct keep; [done|]. by rewrite lookup_delete_eq. }
    exists st'. split_and!; try done.
    + rewrite elem_of_list_images. simpl in Hrd. rewrite Hrd.
      split; [by intros [? _]|eauto].
    + rewrite elem_of_list_images. simpl in Hrs. rewrite Hrs.
      destruct keep; [split; [by intros [? _]|intros [_ ?]; eauto]|].
      split; [by intros [_ [? [=]]]|by intros [[=] _]].
    + unfold moved_links in Hl.
      destruct (filter _ (photos st)) as [|ph rest]; [done|]. cbv zeta in Hl.
      unfold links_to. rewrite Hl.
      exact (links_after_move (ph_id ph) s d keep (photo_persons st) Hsd).
Qed.

End MoveClaim.

(** Moving [a.jpg] from Alice to Bob without keeping a copy. *)
Lemma C6_witness :
  let env := demo_env [] (Ok "") (fun _ => true) in
  head (filter (fun p => p_id p = "g-alice" ∧ p_user_id p = "u") (persons album_state))
  = Some alice ∧
  head (filter (fun p => p_id p = "g-bob" ∧ p_user_id p = "u") (persons album_state))
  = Some bob ∧
  p_folder_name alice ≠ p_folder_name bob ∧
  ∃ st', move_photo_to_folder env "u" "g-alice" "g-bob" "a.jpg" false album_state
         = (st', Ok true) ∧
         read_file st' (in_folder "u" (p_folder_name bob) "a.jpg") = Some png_bytes ∧
         read_file st' (in_folder "u" (p_folder_name alice) "a.jpg") = None ∧
         links_to st' "p1" "g-bob" = [PhotoPerson "p1" "g-bob"] ∧
         links_to st' "p1" "g-alice" = [].
Proof.
  cbv zeta.
  assert (head (filter (fun p => p_id p = "g-alice" ∧ p_user_id p = "u") (persons album_state))
          = Some alice) as H1 by reflexivity.
  assert (head (filter (fun p => p_id p = "g-bob" ∧ p_user_id p = "u") (persons album_state))
          = Some bob) as H2 by reflexivity.
  assert (p_folder_name alice ≠ p_folder_name bob) as H3 by discriminate.
  split; [exact H1|]. split; [exact H2|]. split; [exact H3|].
  destruct (C6_move_between_folders (demo_env [] (Ok "") (fun _ => true))
              "u" "g-alice" "g-bob" "a.jpg" false album_state alice bob H1 H2 H3)
    as [_ Hmove].
  destruct (Hmove png_bytes) as (st' & Hrun & Hd & Hs & _ & _ & _ & _ & Hlinks);
    [reflexivity|reflexivity|reflexivity|].
  exists st'. split; [exact Hrun|]. split; [exact Hd|]. split; [exact Hs|].
  change (filter _ (photos album_state)) with [Photo "p1" "u" "a.jpg" "a.jpg"] in Hlinks.
  destruct Hlinks as (Hld & Hls & _). split; [exact Hld|exact Hls].
Defined.

(** The specification's sentence fails in four places.  Source and
    destination the same group: the copy onto itself raises, the file stays
    in the source listing and nothing is returned.  Source file missing and
    the folders not on the disk: false is returned, and the two folders
    were created.  Two photo rows with the file name: the second keeps its
    link to the source.  A file that is not a picture: moved, and in
    neither listing. *)
Lemma C6_counterexample :
  let env := demo_env [] (Ok "") (fun _ => true) in
  let move := move_photo_to_folder env "u" in
  (isfile album_state (in_folder "u" (p_folder_name alice) "a.jpg") = true ∧
   snd (move "g-alice" "g-alice" "a.jpg" false album_state) = Raise SameFileError ∧
   list_images (fst (move "g-alice" "g-alice" "a.jpg" false album_state))
               "u" (p_folder_name alice) = ["a.jpg"] ∧
   snd (move "g-alice" "g-alice" "a.jpg" true album_state) = Raise SameFileError) ∧
  (folders bare_album_state = ∅ ∧
   snd (move "g-alice" "g-bob" "a.jpg" false bare_album_state) = Ok false ∧
   (map_to_list (folders (fst (move "g-alice" "g-bob" "a.jpg" false bare_album_state)))).*1
   = [("u", "person_4e5f6a7b"); ("u", "person_0a1b2c3d")]) ∧
  (snd (move "g-alice" "g-bob" "a.jpg" false twice_uploaded_state) = Ok true ∧
   list_images (fst (move "g-alice" "g-bob" "a.jpg" false twice_uploaded_state))
               "u" (p_folder_name alice) = [] ∧
   photo_persons (fst (move "g-alice" "g-bob" "a.jpg" false twice_uploaded_state))
   = [PhotoPerson "p2" "g-alice"; PhotoPerson "p1" "g-bob"]) ∧
  (snd (move "g-alice" "g-bob" "notes.txt" true notes_state) = Ok true ∧
   isfile (fst (move "g-alice" "g-bob" "notes.txt" true notes_state))
          (in_folder "u" (p_folder_name bob) "notes.txt") = true ∧
   list_images (fst (move "g-alice" "g-bob" "notes.txt" true notes_state))
               "u" (p_folder_name bob) = [] ∧
   list_images (fst (move "g-alice" "g-bob" "notes.txt" true notes_state))
               "u" (p_folder_name alice) = ["a.jpg"]).
Proof. vm_compute. done. Qed.

(** ** C7: a storage failure in a batch *)

Section Batch.
Variable env : Env.

Lemma upload_loop_app uid pre rest : ∀ c f st,
  upload_loop env uid (pre ++ rest) c f st
  = match upload_loop env uid pre c f st with
    | (st1, Ok (c1, f1)) => upload_loop env uid rest c1 f1 st1
    | (st1, Raise e) => (st1, Raise e)
    end.
Proof.
  induction pre as [|file pre IH]; intros c f st; [done|]. simpl.
  destruct (String.eqb (up_filename file) ""); [apply IH|].
  destruct (allowed_file (up_filename file)); unfold negb; cbv beta iota.
  - rewrite !(bind_unfold (uuid4_hex env)). unfold uuid4_hex. cbv beta iota zeta.
    rewrite !(bind_unfold (save_upload _ _ _)).
    destruct (save_upload env file _ _) as [st1 [[]|e]]; [|done].
    rewrite !(bind_unfold (process_uploaded_image _ _ _ _)).
    destruct (process_uploaded_image env uid _ _ st1) as [st2 [r|e]]; [|done].
    apply IH.
  - rewrite !bind_modify. apply IH.
Qed.

Lemma upload_loop_one uid file c f st :
  upload_loop env uid [file] c f st
  = if String.eqb (up_filename file) "" then (st, Ok (c, f))
    else if negb (allowed_file (up_filename file))
    then (set_flashed (fun l => l ++ [FlashSkipped (up_filename file)]) st, Ok (c, f))
    else
      let safe := safe_name env (uuid_drawn st) file in
      match save_upload env file (in_root uid safe) (set_uuid_drawn S st) with
      | (st1, Ok _) =>
          match process_uploaded_image env uid safe safe st1 with
          | (st2, Ok r) => (st2, Ok (c + 1, f + r_faces_detected r))
          | (st2, Raise e) => (st2, Raise e)
          end
      | (st1, Raise e) => (st1, Raise e)
      end.
Proof.
  simpl. destruct (String.eqb (up_filename file) ""); [done|].
  destruct (allowed_file (up_filename file)); unfold negb; cbv beta iota; [|done].
  rewrite bind_unfold. unfold uuid4_hex at 1. cbv beta iota zeta. rewrite bind_unfold.
  fold (safe_name env (uuid_drawn st) file).
  destruct (save_upload env file _ _) as [st1 [[]|e]]; [|done].
  rewrite bind_unfold.
  by destruct (process_uploaded_image env uid _ _ st1) as [st2 [r|e]].
Qed.

(** C7 (amended). Nothing in the upload route catches a failure of the
    disk.  When storing one file of a batch raises, the route raises with
    it: the files before it stay processed, the files after it are never
    looked at, and nothing is reported for any of them.  This is what
    happens when the upload cannot be saved, and when it cannot be copied
    into a group's folder.  Only a file without a name, or whose name is
    refused (and reported), is passed over while the batch goes on. *)
Theorem C7_storage_failure_aborts_batch (uid : string) (pre : list upload) (file : upload)
  (rest : list upload) (st : State) :
  (∀ st' e, upload_loop env uid (pre ++ [file]) 0 0 st = (st', Raise e) →
            upload_photo env uid (pre ++ file :: rest) st = (st', Raise e)) ∧
  (∀ st1 c f, upload_loop env uid pre 0 0 st = (st1, Ok (c, f)) →
     String.eqb (up_filename file) "" = false → allowed_file (up_filename file) = true →
     let safe := safe_name env (uuid_drawn st1) file in
     (may_write env (in_root uid safe) = false →
      upload_photo env uid (pre ++ file :: rest) st = (set_uuid_drawn S st1, Raise OSError)) ∧
     (∀ st2 e,
        process_uploaded_image env uid safe safe
          (write_file (in_root uid safe) (up_content file) (set_uuid_drawn S st1))
        = (st2, Raise e) →
        may_write env (in_root uid safe) = true →
        upload_photo env uid (pre ++ file :: rest) st = (st2, Raise e))) ∧
  (∀ c f, String.eqb (up_filename file) "" = false → allowed_file (up_filename file) = false →
     upload_loop env uid (file :: rest) c f st
     = upload_loop env uid rest c f
         (set_flashed (fun l => l ++ [FlashSkipped (up_filename file)]) st)) ∧
  (∀ c f, String.eqb (up_filename file) "" = true →
     upload_loop env uid (file :: rest) c f st = upload_loop env uid rest c f st).
Proof.
  assert (∀ st' e, upload_loop env uid (pre ++ [file]) 0 0 st = (st', Raise e) →
                   upload_photo env uid (pre ++ file :: rest) st = (st', Raise e)) as Habort.
  { intros st' e Hraise. unfold upload_photo. rewrite bind_unfold.
    change (file :: rest) with ([file] ++ rest).
    rewrite app_assoc, upload_loop_app, Hraise. done. }
  split_and!; [exact Habort| | |by intros c f Hname; simpl; rewrite Hname].
  - intros st1 c f Hpre Hname Hallowed. cbv zeta. split.
    + intros Hw. apply Habort. rewrite upload_loop_app, Hpre, upload_loop_one, Hname, Hallowed.
      unfold negb. cbv beta iota zeta. unfold save_upload. by rewrite Hw.
    + intros st2 e Hproc Hw. apply Habort.
      rewrite upload_loop_app, Hpre, upload_loop_one, Hname, Hallowed.
      unfold negb. cbv beta iota zeta. unfold save_upload. rewrite Hw. by rewrite Hproc.
  - intros c f Hname Hrefused. simpl. rewrite Hname, Hrefused. unfold negb. cbv beta iota.
    by rewrite bind_modify.
Qed.

End Batch.

(** A batch of two pictures on a disk that refuses the copy into the
    group's folder: the second picture is never processed. *)
Lemma C7_witness :
  let env := demo_env [] (Ok "Beach") folders_read_only in
  let batch := [Upload "a.jpg" png_bytes; Upload "b.jpg" png_bytes] in
  let safe := safe_name env 0 (Upload "a.jpg" png_bytes) in
  let run := process_uploaded_image env "u" safe safe
               (write_file (in_root "u" safe) png_bytes (set_uuid_drawn S empty_state)) in
  snd run = Raise OSError ∧
  upload_photo env "u" batch empty_state = (fst run, Raise OSError).
Proof.
  cbv zeta.
  set (env := demo_env [] (Ok "Beach") folders_read_only).
  set (safe := safe_name env 0 (Upload "a.jpg" png_bytes)).
  set (run := process_uploaded_image env "u" safe safe
                (write_file (in_root "u" safe) png_bytes (set_uuid_drawn S empty_state))).
  assert (snd run = Raise OSError) as Hsnd by (vm_compute; reflexivity).
  split; [exact Hsnd|].
  destruct (C7_storage_failure_aborts_batch env "u" [] (Upload "a.jpg" png_bytes)
              [Upload "b.jpg" png_bytes] empty_state) as (_ & Hfail & _).
  destruct (Hfail empty_state 0 0 eq_refl eq_refl eq_refl) as [_ Hcopy].
  apply Hcopy; [|reflexivity].
  rewrite <- Hsnd. apply surjective_pairing.
Defined.

(** The specification's sentence fails on that batch: the failure of the first
    picture is not reported, and the second picture is not processed: the
    route raises, no message is flashed, and the only photo row is the
    first picture's. *)
Lemma C7_counterexample :
  let env := demo_env [] (Ok "Beach") folders_read_only in
  let run := upload_photo env "u" [Upload "a.jpg" png_bytes; Upload "b.jpg" png_bytes]
                          empty_state in
  snd run = Raise OSError ∧
  flashed (fst run) = [] ∧
  map ph_filename (photos (fst run)) = ["0f3a9c2e77aa4c119e0d5b2a6c1d0e9f_a.jpg"] ∧
  (map_to_list (root_files (fst run))).*1 = [("u", "0f3a9c2e77aa4c119e0d5b2a6c1d0e9f_a.jpg")].
Proof. vm_compute. done. Qed.

(** ** C10: at most ten attachments *)

Section Email.
Variable env : Env.

(** The loop attaches the files that can be read, in order, and counts
    exactly those. *)
Lemma attach_files_spec st u folder files : ∀ msg attached,
  attach_files env st u folder files msg attached
  = (Email (e_to msg) (e_person_name msg) (e_custom_message msg) (e_announced msg)
           (e_attachments msg ++ omap (readable_file env st u folder) files),
     attached + List.length (omap (readable_file env st u folder) files)).
Proof.
  unfold readable_file, read_file.
  induction files as [|f files IH]; intros msg attached; simpl.
  - rewrite app_nil_r, Nat.add_0_r. by destruct msg.
  - destruct (may_read env (in_folder u folder f)); [|apply IH].
    destruct (dir_of st u folder !! f) as [b|]; [|apply IH].
    rewrite IH. simpl. rewrite <- app_assoc. f_equal. by rewrite Nat.add_succ_r.
Qed.

Lemma length_omap_le {A B : Type} (f : A → option B) (l : list A) :
  (List.length (omap f l) ≤ List.length l)%nat.
Proof.
  induction l as [|a l IH]; simpl; [done|].
  destruct (f a); simpl; [by apply le_n_S|by apply le_S].
Qed.

(** C10. Emailing a group's photos never raises.  On success one message
    went out; its attachments are the readable files among the first ten of
    the folder's sorted listing, whatever the length of the listing;
    [photos_sent] is their number, so at most ten; the delivery is logged
    with that count.  On failure nothing went out, and a delivery logged as
    failed carries a count of at most ten as well. *)
Theorem C10_at_most_ten_attachments (u pid recipient custom : string) (st : State) :
  ∃ st' r,
    send_photos_by_email env u pid recipient custom st = (st', Ok r) ∧
    match r with
    | SendSuccess photos_sent =>
        (photos_sent ≤ 10)%nat ∧
        ∃ person msg,
          head (filter (fun p => p_id p = pid) (persons st)) = Some person ∧
          outbox st' = outbox st ++ [msg] ∧
          e_attachments msg
          = omap (readable_file env st u (p_folder_name person))
                 (take 10 (list_images st u (p_folder_name person))) ∧
          photos_sent = List.length (e_attachments msg) ∧
          e_announced msg = List.length (list_images st u (p_folder_name person)) ∧
          delivery_history st'
          = delivery_history st ++ [Delivery u pid recipient photos_sent "sent" ""]
    | SendFailure err =>
        outbox st' = outbox st ∧
        (delivery_history st' = delivery_history st ∨
         ∃ n, (n ≤ 10)%nat ∧
              delivery_history st'
              = delivery_history st ++ [Delivery u pid recipient n "failed" err])
    end.
Proof.
  unfold send_photos_by_email. rewrite bind_gets.
  destruct (filter (fun p => p_id p = pid) (persons st)) as [|person rest] eqn:Hsel.
  { exists st, (SendFailure "Person not found"). split; [done|]. split; [done|by left]. }
  cbv beta iota zeta. rewrite bind_unfold.
  destruct (folder_disk_spec u (p_folder_name person) st)
    as (st1 & -> & _ & [Hr1 Hd1] & _ & _ & Hout1 & Hdel1 & _).
  rewrite bind_gets.
  assert (list_images st1 u (p_folder_name person) = list_images st u (p_folder_name person))
    as Hlist by (unfold list_images; by rewrite Hd1).
  rewrite Hlist.
  destruct (list_images st u (p_folder_name person)) as [|f0 fs] eqn:Hfiles.
  { exists st1, (SendFailure "No photos found"). split; [done|]. split; [done|by left]. }
  cbv beta iota zeta. rewrite bind_gets, attach_files_spec. cbn [e_attachments app].
  cbv beta iota zeta. rewrite Nat.add_0_l.
  assert (omap (readable_file env st1 u (p_folder_name person)) (take 10 (f0 :: fs))
          = omap (readable_file env st u (p_folder_name person)) (take 10 (f0 :: fs))) as ->.
  { apply list_omap_ext, Forall_Forall2_diag, Forall_forall. intros x _.
    unfold readable_file, read_file. by rewrite Hd1. }
  set (atts := omap (readable_file env st u (p_folder_name person)) (take 10 (f0 :: fs))).
  assert (List.length atts ≤ 10)%nat as Hten.
  { subst atts. etrans; [apply length_omap_le|]. rewrite length_take. lia. }
  set (msg := Email _ _ _ _ atts).
  destruct (smtp_sendmail env msg) as [[]|e].
  - rewrite bind_modify, bind_unfold. unfold _log_delivery at 1, modify at 1.
    eexists _, _. split; [reflexivity|]. simpl. split; [done|].
    exists person, msg. split_and!; try done.
    + by rewrite Hout1.
    + by rewrite Hfiles.
    + by rewrite Hfiles.
    + by rewrite Hdel1.
  - rewrite bind_unfold. unfold _log_delivery at 1, modify at 1.
    eexists _, _. split; [reflexivity|]. simpl. split; [done|].
    right. exists (List.length atts). split; [done|]. by rewrite Hdel1.
Qed.

End Email.

(** Twelve pictures in the folder, one of the first ten unreadable: nine
    are attached and counted, and the text announces twelve. *)
Example email_twelve_pictures :
  let env := MkEnv demo_uuid_str demo_uuid_hex (fun _ => Ok []) (fun _ => Ok "")
                   (fun name => name) (fun _ => true) (fun _ => true) unreadable_07
                   (fun _ => Ok tt) in
  let run := send_photos_by_email env "u" "g-alice" "x@example.org" "" twelve_pictures_state in
  snd run = Ok (SendSuccess 9) ∧
  map (fun m => (e_announced m, map fst (e_attachments m))) (outbox (fst run))
  = [(12, ["01.jpg"; "02.jpg"; "03.jpg"; "04.jpg"; "05.jpg"; "06.jpg";
           "08.jpg"; "09.jpg"; "10.jpg"])] ∧
  map d_photo_count (delivery_history (fst run)) = [9].
Proof. vm_compute. done. Qed.

(** * Properties of the rest of the service *)

(** ** [slugify] *)

Section Slugify.

Lemma str_of_chars_of s : str_of (chars_of s) = s.
Proof. apply string_of_list_ascii_of_string. Qed.

Lemma is_underscore_eq c : is_underscore c = true ↔ c = underscore.
Proof. destruct c as [[] [] [] [] [] [] [] []]; vm_compute; split; congruence. Qed.

Lemma lower_char_not_upper x : in_range 65 90 (lower_char x) = false.
Proof. destruct x as [[] [] [] [] [] [] [] []]; reflexivity. Qed.

(** A character the two substitutions keep as it is. *)
Lemma kept_char_slug c :
  in_range 65 90 c = false → is_slug_source c = true → is_separator c = false →
  is_slug_char c = true.
Proof. destruct c as [[] [] [] [] [] [] [] []]; vm_compute; congruence. Qed.

Lemma separator_of_slug_char c :
  is_slug_char c = true → is_separator c = is_underscore c.
Proof. destruct c as [[] [] [] [] [] [] [] []]; vm_compute; congruence. Qed.

Lemma slug_char_fixed c :
  is_slug_char c = true →
  lower_char c = c ∧ is_slug_source c = true ∧ is_space c = false.
Proof. destruct c as [[] [] [] [] [] [] [] []]; vm_compute; intuition congruence. Qed.

Lemma collapse_separators_chars l : ∀ in_run,
  Forall (fun c => in_range 65 90 c = false ∧ is_slug_source c = true) l →
  Forall (fun c => is_slug_char c = true) (collapse_separators in_run l).
Proof.
  induction l as [|c l IH]; intros in_run H; simpl; [constructor|].
  apply Forall_cons in H as [[Hu Hs] H].
  destruct (is_separator c) eqn:Hsep.
  - destruct in_run; [by apply IH|]. constructor; [reflexivity|by apply IH].
  - constructor; [by apply kept_char_slug|by apply IH].
Qed.

Lemma no_adjacent_cons c r :
  (is_underscore c = true → head r ≠ Some underscore) →
  no_adjacent_underscores r = true → no_adjacent_underscores (c :: r) = true.
Proof.
  intros Hc Hr. simpl. destruct r as [|d r]; [done|].
  rewrite Hr, andb_true_r. apply negb_true_iff, andb_false_iff.
  destruct (is_underscore c) eqn:E; [right|by left].
  apply not_true_is_false. intros Hd%is_underscore_eq. subst d. by apply Hc.
Qed.

Lemma collapse_separators_isolated l : ∀ in_run,
  no_adjacent_underscores (collapse_separators in_run l) = true ∧
  (in_run = true → head (collapse_separators in_run l) ≠ Some underscore).
Proof.
  induction l as [|c l IH]; intros in_run; simpl; [done|].
  destruct (is_separator c) eqn:Hsep.
  - destruct in_run; [apply IH|]. split; [|done].
    apply no_adjacent_cons; [intros _; by apply IH|apply IH].
  - assert (is_underscore c = false) as Hc.
    { unfold is_separator in Hsep. by destruct (is_space c), (is_underscore c). }
    split.
    + apply no_adjacent_cons; [congruence|apply IH].
    + intros _ [= E]. apply is_underscore_eq in E. congruence.
Qed.

Lemma no_adjacent_app a b :
  no_adjacent_underscores (a ++ b) = true →
  no_adjacent_underscores a = true ∧ no_adjacent_underscores b = true.
Proof.
  induction a as [|c a IH]; [done|]. intros H.
  destruct a as [|d a].
  - split; [done|]. simpl in H. destruct b; [done|]. by apply andb_prop in H as [_ ?].
  - change (no_adjacent_underscores (c :: d :: a ++ b) = true) in H.
    simpl in H. apply andb_prop in H as [Hcd H].
    destruct (IH H) as [Ha Hb]. split; [|done].
    change (negb (is_underscore c && is_underscore d)
            && no_adjacent_underscores (d :: a) = true).
    by rewrite Hcd, Ha.
Qed.

Lemma strip_by_infix p l : ∃ a b, l = a ++ strip_by p l ++ b.
Proof.
  unfold strip_by, rstrip_by.
  destruct (lstrip_by_suffix p l) as [a Ea].
  destruct (lstrip_by_suffix p (reverse (lstrip_by p l))) as [b Eb].
  exists a, (reverse b). rewrite Ea at 1. f_equal.
  rewrite <- (reverse_involutive (lstrip_by p l)) at 1.
  rewrite Eb at 1. by rewrite reverse_app.
Qed.

Lemma no_adjacent_strip_by p l :
  no_adjacent_underscores l = true → no_adjacent_underscores (strip_by p l) = true.
Proof.
  intros H. destruct (strip_by_infix p l) as (a & b & E). rewrite E in H.
  apply no_adjacent_app in H as [_ H]. by apply no_adjacent_app in H as [H _].
Qed.

Lemma no_adjacent_take n l :
  no_adjacent_underscores l = true → no_adjacent_underscores (take n l) = true.
Proof. intros H. rewrite <- (take_drop n l) in H. by apply no_adjacent_app in H as [H _]. Qed.

Lemma folder_clean : clean_slug "folder".
Proof.
  split; [discriminate|]. split; [apply Nat.leb_le; reflexivity|].
  split; [repeat constructor|]. split; [discriminate|]. split; [discriminate|reflexivity].
Qed.

Lemma slugify_shape text : clean_slug (slugify text).
Proof.
  unfold slugify. cbv zeta.
  set (source := drop_punctuation _).
  set (body := strip_by is_underscore _).
  destruct (String.eqb_spec (str_of body) "") as [E|E]; [exact folder_clean|].
  assert (Forall (fun c => in_range 65 90 c = false ∧ is_slug_source c = true) source) as Hsrc.
  { subst source. unfold drop_punctuation. apply Forall_forall. intros c Hc.
    apply list_elem_of_In, filter_In in Hc as [Hin Hkeep]. split; [|done].
    clear Hkeep. apply list_elem_of_In in Hin. revert c Hin. apply Forall_forall.
    unfold strip, lower. rewrite !chars_of_str_of. apply strip_by_Forall, Forall_map.
    apply Forall_forall. intros x _. apply lower_char_not_upper. }
  unfold clean_slug. rewrite chars_of_str_of, string_length_str_of.
  split_and!; [done| | | | |].
  - subst body. etrans; [apply strip_by_length|]. rewrite length_take. lia.
  - subst body. by apply strip_by_Forall, Forall_take, collapse_separators_chars.
  - destruct body as [|c l] eqn:Hb; [done|]. intros [= ->].
    subst body. by apply strip_by_head in Hb.
  - intros Hl. subst body. by apply strip_by_last in Hl.
  - subst body. apply no_adjacent_strip_by, no_adjacent_take, collapse_separators_isolated.
Qed.

Lemma lstrip_by_id p l : (∀ c, head l = Some c → p c = false) → lstrip_by p l = l.
Proof. destruct l as [|c l]; [done|]. intros H. simpl. by rewrite (H c eq_refl). Qed.

Lemma strip_by_id p l :
  (∀ c, head l = Some c → p c = false) → (∀ c, last l = Some c → p c = false) →
  strip_by p l = l.
Proof.
  intros Hh Hl. unfold strip_by, rstrip_by. rewrite (lstrip_by_id p l Hh).
  rewrite lstrip_by_id; [apply reverse_involutive|].
  intros c. rewrite head_reverse. apply Hl.
Qed.

Lemma collapse_separators_id l :
  Forall (fun c => is_slug_char c = true) l → no_adjacent_underscores l = true →
  collapse_separators false l = l ∧
  (head l ≠ Some underscore → collapse_separators true l = l).
Proof.
  induction l as [|c l IH]; [done|]. intros [Hc Hall]%Forall_cons Hadj.
  assert (no_adjacent_underscores l = true ∧
          (is_underscore c = true → head l ≠ Some underscore)) as [Hadj' Hnext].
  { simpl in Hadj. destruct l as [|d l]; [done|].
    apply andb_prop in Hadj as [Hcd ?]. split; [done|].
    intros E [= ->]. by rewrite E in Hcd. }
  destruct (IH Hall Hadj') as [IH0 IH1]. simpl.
  rewrite (separator_of_slug_char c Hc).
  destruct (is_underscore c) eqn:E.
  - apply is_underscore_eq in E as ->. split; [by rewrite IH1; [|apply Hnext]|].
    by intros [].
  - rewrite IH0. done.
Qed.

(** A clean slug is left as it is. *)
Lemma slugify_fixed s : clean_slug s → slugify s = s.
Proof.
  intros (Hne & Hlen & Hall & Hhead & Hlast & Hadj).
  assert (∀ c, c ∈ chars_of s → lower_char c = c ∧ is_slug_source c = true ∧
                                is_space c = false) as Hfix.
  { intros c Hc. apply slug_char_fixed. revert c Hc. by apply Forall_forall. }
  assert (lower s = s) as Hlow.
  { unfold lower. rewrite <- (str_of_chars_of s) at 2. f_equal.
    rewrite <- (map_id (chars_of s)) at 2. apply map_ext_in.
    intros c Hc%list_elem_of_In. by apply Hfix. }
  assert (strip s = s) as Hstrip.
  { unfold strip. rewrite <- (str_of_chars_of s) at 2. f_equal. apply strip_by_id.
    - intros c Hc. apply Hfix. destruct (chars_of s); simplify_eq/=. by left.
    - intros c Hc. apply Hfix. by apply last_Some_elem_of. }
  unfold slugify. cbv zeta. rewrite Hlow, Hstrip.
  assert (drop_punctuation (chars_of s) = chars_of s) as ->.
  { unfold drop_punctuation. apply forallb_filter_id, forallb_forall.
    intros c Hc%list_elem_of_In. by apply Hfix. }
  rewrite (proj1 (collapse_separators_id _ Hall Hadj)).
  rewrite take_ge by (by rewrite <- string_length_str_of, str_of_chars_of).
  rewrite strip_by_id.
  - rewrite str_of_chars_of. by destruct (String.eqb_spec s "").
  - intros c Hc. apply not_true_is_false. intros ->%is_underscore_eq. done.
  - intros c Hc. apply not_true_is_false. intros ->%is_underscore_eq. done.
Qed.

(** X1. For every display name made of ASCII characters, the folder key
    [slugify] makes of it is not empty, has at most 40 characters, all of
    them lower-case letters, digits or underscores, begins and ends with
    none, and has no two underscores in a row. *)
Theorem slugify_gives_clean_key (text : string) :
  is_ascii text → clean_slug (slugify text).
Proof. intros _. apply slugify_shape. Qed.

(** X2. On display names made of ASCII characters [slugify] is
    idempotent, and the names it leaves as they are are exactly the keys
    of the shape it makes. *)
Theorem slugify_idempotent (text : string) :
  is_ascii text →
  slugify (slugify text) = slugify text ∧ (slugify text = text ↔ clean_slug text).
Proof.
  intros _. split; [apply slugify_fixed, slugify_shape|].
  split; [|apply slugify_fixed]. intros <-. apply slugify_shape.
Qed.

End Slugify.

Lemma slugify_gives_clean_key_witness :
  is_ascii "  My -- Trip__2024  " ∧ clean_slug (slugify "  My -- Trip__2024  ").
Proof.
  assert (is_ascii "  My -- Trip__2024  ") as H by (by repeat constructor).
  split; [exact H|]. apply slugify_gives_clean_key, H.
Defined.

Lemma slugify_idempotent_witness :
  is_ascii "Hello, World" ∧ slugify "Hello, World" = "hello_world" ∧
  slugify (slugify "Hello, World") = slugify "Hello, World" ∧
  (slugify "hello_world" = "hello_world" ↔ clean_slug "hello_world").
Proof.
  assert (is_ascii "Hello, World") as H by (by repeat constructor).
  assert (is_ascii "hello_world") as H' by (by repeat constructor).
  split; [exact H|]. split; [reflexivity|].
  split; [apply (slugify_idempotent "Hello, World" H)|].
  apply (slugify_idempotent "hello_world" H').
Defined.

Example slugify_trip : slugify "  My -- Trip__2024  " = "my_trip_2024".
Proof. reflexivity. Qed.

Example slugify_fallback : slugify "!!!" = "folder".
Proof. reflexivity. Qed.

(** ** File names: the upload filter, the listing filter and the media type *)

Section FileNames.

Lemma after_last_dot_split l e :
  after_last_dot l = Some e → ∃ stem, l = stem ++ "."%char :: e.
Proof.
  revert e. induction l as [|c l IH]; intros e; simpl; [done|].
  destruct (after_last_dot l) as [e'|] eqn:E.
  - intros [= <-]. destruct (IH e' eq_refl) as [stem ->]. by exists (c :: stem).
  - destruct (Ascii.eqb_spec c "."%char) as [->|]; [|done].
    intros [= <-]. by exists [].
Qed.

Lemma is_prefix_app p l : is_prefix p (p ++ l) = true.
Proof. induction p as [|c p IH]; [done|]. simpl. by rewrite Ascii.eqb_refl. Qed.

Lemma endswith_app a b : endswith (str_of (a ++ b)) (str_of b) = true.
Proof.
  unfold endswith. rewrite !chars_of_str_of, reverse_app. apply is_prefix_app.
Qed.

(** A name ends with its lowered extension once lowered itself. *)
Lemma endswith_lowered_extension f e :
  after_last_dot (chars_of f) = Some e → endswith (lower f) (lower (str_of e)) = true.
Proof.
  intros [stem E]%after_last_dot_split. unfold lower at 1 2. rewrite E, chars_of_str_of.
  change (stem ++ "."%char :: e) with (stem ++ ["."%char] ++ e).
  rewrite app_assoc, map_app. apply endswith_app.
Qed.

Lemma mime_types_values ext v :
  mime_types !! ext = Some v → v ∈ ["image/jpeg"; "image/png"; "image/webp"; "image/gif"].
Proof.
  intros H%elem_of_list_to_map_2.
  repeat (apply elem_of_cons in H as [[= -> ->]|H];
          [apply list_elem_of_In; simpl; auto 10|]).
  by apply elem_of_nil in H.
Qed.

(** X3. Every file name the upload accepts is a name the folder listings
    show: [allowed_file] looks at the text after the last dot, and the
    listings at the end of the name, both without regard to case. *)
Theorem accepted_names_are_listed (filename : string) :
  allowed_file filename = true → is_image_name filename = true.
Proof.
  unfold allowed_file, is_image_name, endswith_any.
  destruct (after_last_dot (chars_of filename)) as [e|] eqn:E; [|done].
  intros Hin%bool_decide_eq_true. apply existsb_exists.
  exists (lower (str_of e)). split; [by apply list_elem_of_In|].
  by apply endswith_lowered_extension.
Qed.

(** X4. The media type announced for an image is one of four; for a file
    name the upload accepts it is the type of the extension, [jpg] and
    [jpeg] both giving [image/jpeg]. *)
Theorem mime_of_accepted_names (filename : string) :
  _mime filename ∈ ["image/jpeg"; "image/png"; "image/webp"; "image/gif"] ∧
  (allowed_file filename = true →
   ∃ e, after_last_dot (chars_of filename) = Some e ∧
        _mime filename = if decide (lower (str_of e) = "jpg") then "image/jpeg"
                         else "image/" +:+ lower (str_of e)).
Proof.
  split.
  - unfold _mime. cbv zeta.
    destruct (mime_types !! _) as [v|] eqn:E; [by eapply mime_types_values|set_solver].
  - unfold allowed_file, _mime, last_component.
    destruct (after_last_dot (chars_of filename)) as [e|]; [|done].
    intros Hin%bool_decide_eq_true. exists e. split; [done|]. simpl.
    unfold Config.ALLOWED_EXTENSIONS in Hin.
    repeat (apply elem_of_cons in Hin as [->|Hin]; [reflexivity|]).
    by apply elem_of_nil in Hin.
Qed.

End FileNames.

Lemma accepted_names_are_listed_witness :
  allowed_file "Holiday.tar.JPG" = true ∧ is_image_name "Holiday.tar.JPG" = true.
Proof. split; [reflexivity|]. apply accepted_names_are_listed. reflexivity. Defined.

(** The listings show more than the upload accepts: a name with no dot
    that ends in an extension. *)
Example listed_but_not_accepted : is_image_name "apng" = true ∧ allowed_file "apng" = false.
Proof. split; reflexivity. Qed.

(** ** Sorting on a key *)

Section SortOn.
Context {A : Type} (key : A → Z).

Lemma insert_on_Permutation x l : insert_on key x l ≡ₚ x :: l.
Proof.
  induction l as [|y l IH]; simpl; [done|].
  destruct (key x <=? key y)%Z; [done|]. rewrite IH. apply Permutation_swap.
Qed.

Lemma sort_on_Permutation l : sort_on key l ≡ₚ l.
Proof.
  induction l as [|x l IH]; simpl; [done|].
  rewrite insert_on_Permutation. by constructor.
Qed.

Lemma insert_on_sorted x l :
  StronglySorted (fun a b => (key a ≤ key b)%Z) l →
  StronglySorted (fun a b => (key a ≤ key b)%Z) (insert_on key x l).
Proof.
  induction 1 as [|y l Hs IH Hall]; simpl; [repeat constructor|].
  destruct (Z.leb_spec (key x) (key y)) as [Hle|Hlt].
  - constructor; [by constructor|]. constructor; [done|].
    eapply Forall_impl; [exact Hall|]. simpl. lia.
  - constructor; [done|].
    rewrite insert_on_Permutation. constructor; [lia|done].
Qed.

Lemma sort_on_sorted l : StronglySorted (fun a b => (key a ≤ key b)%Z) (sort_on key l).
Proof. induction l; simpl; [constructor|by apply insert_on_sorted]. Qed.

Lemma sort_on_length l : List.length (sort_on key l) = List.length l.
Proof. apply Permutation_length, sort_on_Permutation. Qed.

End SortOn.

Lemma StronglySorted_weaken {A : Type} (R R' : A → A → Prop) (l : list A) :
  (∀ x y, R x y → R' x y) → StronglySorted R l → StronglySorted R' l.
Proof.
  intros HR. induction 1 as [|x l Hs IH Hx]; constructor; [done|].
  eapply Forall_impl; [exact Hx|]. apply HR.
Qed.

Lemma StronglySorted_map {A B : Type} (R : B → B → Prop) (f : A → B) (l : list A) :
  StronglySorted (fun a b => R (f a) (f b)) l → StronglySorted R (map f l).
Proof.
  induction 1 as [|x l Hs IH Hx]; simpl; constructor; [done|].
  by apply Forall_map.
Qed.

(** ** Folders: creating, renaming, listing *)

Section Management.
Variable env : Env.
Variable clock : Clock.

Lemma made_directories_refl st : made_directories st st.
Proof. unfold made_directories. split_and!; try done. by left. Qed.

Lemma made_directories_trans st1 st2 st3 :
  made_directories st1 st2 → made_directories st2 st3 → made_directories st1 st3.
Proof.
  intros (?&?&?&?&?&?&?&?&H12) (?&?&?&?&?&?&?&?&H23).
  unfold made_directories. split_and!; try congruence.
  intros k. destruct (H23 k) as [E|[E1 E2]], (H12 k) as [E'|[E1' E2']].
  - left. congruence.
  - right. split; congruence.
  - right. split; congruence.
  - congruence.
Qed.

Lemma made_directories_dir st st' u f :
  made_directories st st' → dir_of st' u f = dir_of st u f.
Proof.
  intros (_&_&_&_&_&_&_&_&H). unfold dir_of.
  by destruct (H (u, f)) as [->|[-> ->]].
Qed.

Lemma made_directories_images st st' u f :
  made_directories st st' → list_images st' u f = list_images st u f.
Proof. intros H. apply list_images_dir. by apply made_directories_dir. Qed.

Lemma made_directories_kept st st' k :
  made_directories st st' → is_Some (folders st !! k) → is_Some (folders st' !! k).
Proof.
  intros (_&_&_&_&_&_&_&_&H) [d Hd]. destruct (H k) as [->|[? ?]]; [eauto|congruence].
Qed.

Lemma made_directories_same_files st st' : made_directories st st' → same_files st st'.
Proof.
  intros H. split; [apply H|]. intros u f. by apply made_directories_dir.
Qed.

Lemma folder_disk_made u f st :
  ∃ st', folder_disk u f st = (st', Ok tt) ∧ made_directories st st' ∧
         is_Some (folders st' !! (u, f)).
Proof.
  unfold folder_disk, modify. eexists. split; [reflexivity|].
  destruct (folders st !! (u, f)) as [d|] eqn:E.
  - split; [apply made_directories_refl|]. rewrite E. eauto.
  - split.
    + unfold made_directories. simpl. split_and!; try done.
      intros k. destruct (decide (k = (u, f))) as [->|Hne].
      * right. by rewrite lookup_insert_eq.
      * left. by rewrite lookup_insert_ne.
    + simpl. rewrite lookup_insert_eq. eauto.
Qed.

(** The loop of [get_all_persons]: one card per row, in order, each
    computed on the disk as it was; the folders of the rows exist
    afterwards. *)
Lemma fill_cards_spec u rows : ∀ st, ∃ st',
  fill_cards u rows st = (st', Ok (map (card_of st u) rows)) ∧
  made_directories st st' ∧
  ∀ p, p ∈ rows → is_Some (folders st' !! (u, p_folder_name p)).
Proof.
  induction rows as [|p rows IH]; intros st.
  - exists st. split; [done|]. split; [apply made_directories_refl|].
    intros p H. by apply elem_of_nil in H.
  - simpl. rewrite bind_unfold.
    destruct (folder_disk_made u (p_folder_name p) st) as (st1 & -> & Hm1 & Hex).
    rewrite bind_gets. cbv zeta. rewrite bind_unfold.
    destruct (IH st1) as (st2 & -> & Hm2 & Hall).
    exists st2. split.
    + unfold mret, M_ret. f_equal. f_equal. f_equal.
      * unfold card_of. by rewrite (made_directories_images _ _ _ _ Hm1).
      * apply map_ext. intros q. unfold card_of.
        by rewrite (made_directories_images _ _ _ _ Hm1).
    + split; [by eapply made_directories_trans|].
      intros q [->|Hq]%elem_of_cons; [|by apply Hall].
      by eapply made_directories_kept.
Qed.

Lemma card_preview_count st u p :
  pc_preview (card_of st u p) = None ↔ pc_photo_count (card_of st u p) = 0.
Proof. unfold card_of. simpl. by destruct (list_images st u (p_folder_name p)). Qed.

(** X5. [get_all_persons] shows one card per group of the owner, ordered
    by creation time; a card counts the images of the group's folder and
    previews the first of them in alphabetical order, or nothing when the
    folder has none.  Taking the listing changes no table and no file; it
    creates the folders that were missing. *)
Theorem get_all_persons_cards (u : string) (st : State) :
  ∃ st' cards,
    get_all_persons clock u st = (st', Ok cards) ∧
    cards ≡ₚ map (card_of st u) (persons_of st u) ∧
    StronglySorted (fun a b => (created_at clock (pc_id a) ≤ created_at clock (pc_id b))%Z)
                   cards ∧
    Forall (fun c => pc_preview c = None ↔ pc_photo_count c = 0) cards ∧
    made_directories st st' ∧
    ∀ p, p ∈ persons_of st u → is_Some (folders st' !! (u, p_folder_name p)).
Proof.
  unfold get_all_persons. rewrite bind_gets. fold (persons_of st u).
  set (key := fun p => created_at clock (p_id p)).
  destruct (fill_cards_spec u (sort_on key (persons_of st u)) st) as (st' & -> & Hm & Hall).
  exists st', (map (card_of st u) (sort_on key (persons_of st u))).
  split_and!; try done.
  - apply Permutation_map, sort_on_Permutation.
  - apply StronglySorted_map. exact (sort_on_sorted key (persons_of st u)).
  - apply Forall_map, Forall_forall. intros p _. apply card_preview_count.
  - intros p Hp. apply Hall. by rewrite sort_on_Permutation.
Qed.

(** The outcome of [get_person_photos], on the first row the owner has with
    that id. *)
Lemma get_person_photos_spec pid u st :
  match filter (fun p => p_id p = pid ∧ p_user_id p = u) (persons st) with
  | [] => get_person_photos pid u st = (st, Ok [])
  | p :: _ =>
      ∃ st', get_person_photos pid u st
             = (st', Ok (map (entry_of u pid p) (list_images st u (p_folder_name p)))) ∧
             made_directories st st' ∧ is_Some (folders st' !! (u, p_folder_name p))
  end.
Proof.
  unfold get_person_photos. rewrite bind_gets.
  destruct (filter _ (persons st)) as [|p rest]; [done|]. cbv beta iota.
  rewrite bind_unfold.
  destruct (folder_disk_made u (p_folder_name p) st) as (st1 & -> & Hm & Hex).
  rewrite bind_gets. exists st1. split; [|done].
  by rewrite (made_directories_images _ _ _ _ Hm).
Qed.

(** X6. [get_person_photos] answers with nothing, and touches nothing,
    when the owner has no group of that id.  Otherwise it shows exactly the
    image files of that group's folder under the owner's own root, in
    alphabetical order and each once, with the URL of that file; no table
    and no file changes. *)
Theorem get_person_photos_shows_own_folder (pid u : string) (st : State) :
  match filter (fun p => p_id p = pid ∧ p_user_id p = u) (persons st) with
  | [] => get_person_photos pid u st = (st, Ok [])
  | p :: _ =>
      ∃ st' entries,
        get_person_photos pid u st = (st', Ok entries) ∧
        made_directories st st' ∧
        map pe_filename entries = list_images st u (p_folder_name p) ∧
        NoDup (map pe_filename entries) ∧
        Forall (fun e =>
                  is_image_name (pe_filename e) = true ∧
                  is_Some (read_file st (in_folder u (p_folder_name p) (pe_filename e))) ∧
                  pe_url e = make_url u (p_folder_name p) (pe_filename e) ∧
                  pe_person_name e = p_name p ∧ pe_person_id e = pid ∧
                  pe_folder_name e = p_folder_name p) entries
  end.
Proof.
  pose proof (get_person_photos_spec pid u st) as H.
  destruct (filter _ (persons st)) as [|p rest]; [done|].
  destruct H as (st' & -> & Hm & _). eexists _, _. split; [reflexivity|].
  assert (map pe_filename (map (entry_of u pid p) (list_images st u (p_folder_name p)))
          = list_images st u (p_folder_name p)) as Hnames.
  { rewrite map_map. simpl. apply map_id. }
  split_and!; [done|done| |].
  - rewrite Hnames. apply list_images_NoDup.
  - apply Forall_map, Forall_forall. intros f Hf. simpl.
    apply elem_of_list_images in Hf as [Himg Hfile]. done.
Qed.

Lemma filter_owner_renamed pid u new (l : list person) :
  filter (fun p => p_id p = pid ∧ p_user_id p = u)
         (map (fun p => if decide (p_id p = pid ∧ p_user_id p = u)
                        then with_name new p else p) l)
  = map (with_name new) (filter (fun p => p_id p = pid ∧ p_user_id p = u) l).
Proof.
  induction l as [|p l IH]; [done|]. simpl.
  destruct (decide (p_id p = pid ∧ p_user_id p = u)) as [H|H].
  - rewrite filter_cons_True by done. rewrite filter_cons_True by done.
    simpl. by rewrite IH.
  - rewrite filter_cons_False by done. by rewrite filter_cons_False by done.
Qed.

(** X7. [rename_person] answers true exactly when the owner has a group of
    that id.  It changes the display name of those rows and nothing else:
    the ids, the owners, the folder keys and the embeddings of all rows,
    the other names, the photos, the links and the disk stay as they
    were; so the group shows the same files afterwards, under its new
    name. *)
Theorem rename_person_changes_the_name_only (pid u new : string) (st : State) :
  ∃ st',
    rename_person pid u new st
    = (st', Ok (bool_decide
                  (filter (fun p => p_id p = pid ∧ p_user_id p = u) (persons st) ≠ []))) ∧
    map p_id (persons st') = map p_id (persons st) ∧
    map p_user_id (persons st') = map p_user_id (persons st) ∧
    map p_folder_name (persons st') = map p_folder_name (persons st) ∧
    map p_embedding (persons st') = map p_embedding (persons st) ∧
    Forall2 (fun p p' => p_name p' = if decide (p_id p = pid ∧ p_user_id p = u)
                                     then new else p_name p)
            (persons st) (persons st') ∧
    photos st' = photos st ∧ photo_persons st' = photo_persons st ∧
    folders st' = folders st ∧ root_files st' = root_files st ∧
    ∃ entries,
      snd (get_person_photos pid u st) = Ok entries ∧
      snd (get_person_photos pid u st') = Ok (map (entry_renamed new) entries).
Proof.
  unfold rename_person. rewrite bind_gets, bind_modify.
  set (f := fun p => if decide (p_id p = pid ∧ p_user_id p = u) then with_name new p else p).
  set (st' := set_persons (map f) st).
  exists st'. split.
  { unfold mret, M_ret. f_equal. f_equal. apply bool_decide_ext.
    by destruct (filter _ (persons st)). }
  assert (persons st' = map f (persons st)) as Hp by done.
  assert (∀ (B : Type) (g : person → B), (∀ p, g (with_name new p) = g p) →
          map g (persons st') = map g (persons st)) as Hcol.
  { intros B g Hg. rewrite Hp, map_map. apply map_ext. intros p. unfold f.
    by destruct (decide _). }
  split_and!; try (apply Hcol; done); try done.
  - rewrite Hp. apply Forall2_fmap_r, Forall_Forall2_diag, Forall_forall. intros p _.
    unfold f, compose. by destruct (decide (p_id p = pid ∧ p_user_id p = u)).
  - pose proof (get_person_photos_spec pid u st) as H1.
    pose proof (get_person_photos_spec pid u st') as H2.
    rewrite Hp in H2. unfold f in H2. rewrite filter_owner_renamed in H2.
    destruct (filter _ (persons st)) as [|p rest].
    + exists []. by rewrite H1, H2.
    + destruct H1 as (st1 & -> & _). simpl in H2. destruct H2 as (st2 & -> & _).
      eexists. split; [reflexivity|]. simpl. f_equal.
      rewrite map_map. apply map_ext. intros x. done.
Qed.

(** Every way [create_folder] goes: the key, the identifier, the row and
    the directory. *)
Lemma create_folder_spec u name st :
  let key := new_folder_key env st u name in
  let n := match filter (fun p => p_user_id p = u ∧ p_folder_name p = slugify name)
                        (persons st) with
           | [] => uuid_drawn st
           | _ :: _ => S (uuid_drawn st)
           end in
  let row := Person (uuid_str env n) u name key None in
  ∃ st', create_folder env u name st = (st', Ok row) ∧
    persons st' = persons st ++ [row] ∧ photos st' = photos st ∧
    photo_persons st' = photo_persons st ∧ root_files st' = root_files st ∧
    delivery_history st' = delivery_history st ∧ uuid_drawn st' = S n ∧
    folders st' = match folders st !! (u, key) with
                  | Some _ => folders st
                  | None => <[(u, key) := ∅]> (folders st)
                  end.
Proof.
  unfold create_folder, new_folder_key. cbv zeta. rewrite bind_gets.
  destruct (filter _ (persons st)) as [|p0 rest];
    cbv [mbind M_bind mret M_ret uuid4_hex uuid4_str modify folder_disk];
    cbn [folders set_persons set_uuid_drawn set_folders];
    (eexists; split; [reflexivity|]);
    by destruct (folders st !! _).
Qed.

(** X8. [create_folder] always succeeds and adds exactly one group: a row
    of the owner with the display name as given, no embedding, and the key
    [slugify] makes of the name, followed by four characters of a random
    identifier when the owner already has a group with that key.  The
    group's directory exists afterwards; no photo, no link and no file
    changes. *)
Theorem create_folder_adds_one_group (u name : string) (st : State) :
  ∃ st' row,
    create_folder env u name st = (st', Ok row) ∧
    persons st' = persons st ++ [row] ∧
    p_user_id row = u ∧ p_name row = name ∧ p_embedding row = None ∧
    p_folder_name row = new_folder_key env st u name ∧
    (slugify name ∉ folder_keys st u → p_folder_name row = slugify name) ∧
    is_Some (folders st' !! (u, p_folder_name row)) ∧
    photos st' = photos st ∧ photo_persons st' = photo_persons st ∧ same_files st st'.
Proof.
  destruct (create_folder_spec u name st) as (st' & Hrun & Hp & Hph & Hl & Hr & _ & _ & Hf).
  eexists _, _. split; [exact Hrun|]. simpl. split_and!; try done.
  - intros Hfree. unfold new_folder_key.
    destruct (filter _ (persons st)) as [|p0 rest] eqn:E; [done|].
    exfalso. apply Hfree.
    assert (p0 ∈ filter (fun p => p_user_id p = u ∧ p_folder_name p = slugify name)
                        (persons st)) as [[Hu Hk] Hin]%list_elem_of_filter
      by (rewrite E; by left).
    unfold folder_keys, persons_of. rewrite <- Hk. apply list_elem_of_In, in_map.
    apply list_elem_of_In. by apply list_elem_of_filter.
  - rewrite Hf. destruct (folders st !! _) eqn:E; [by rewrite E|].
    rewrite lookup_insert_eq. eauto.
  - split; [done|]. intros u' f'. unfold dir_of. rewrite Hf.
    destruct (folders st !! (u, new_folder_key env st u name)) eqn:E; [done|].
    destruct (decide ((u, new_folder_key env st u name) = (u', f'))) as [<-|Hne].
    + by rewrite lookup_insert_eq, E.
    + by rewrite lookup_insert_ne.
Qed.

Lemma folder_keys_snoc st st' u row :
  persons st' = persons st ++ [row] → p_user_id row = u →
  folder_keys st' u = folder_keys st u ++ [p_folder_name row].
Proof.
  intros Hp Hu. unfold folder_keys, persons_of. rewrite Hp, filter_app, map_app.
  by rewrite filter_cons_True by done.
Qed.

(** X9. The folder keys of an owner stay pairwise distinct when a folder is
    created, provided that the key with the random suffix, when one is
    needed, is free: [create_folder] looks up the plain slug only. *)
Theorem create_folder_keeps_keys_distinct (u name : string) (st : State) :
  NoDup (folder_keys st u) →
  (slugify name ∈ folder_keys st u → new_folder_key env st u name ∉ folder_keys st u) →
  NoDup (folder_keys (fst (create_folder env u name st)) u).
Proof.
  intros Hnd Hfresh.
  destruct (create_folder_spec u name st) as (st' & Hrun & Hp & _).
  rewrite Hrun. simpl. rewrite (folder_keys_snoc st st' u _ Hp eq_refl). simpl.
  apply NoDup_app. split; [done|]. split; [|apply NoDup_singleton].
  intros k Hk ->%list_elem_of_singleton. revert Hk.
  destruct (decide (slugify name ∈ folder_keys st u)) as [Hin|Hout]; [by apply Hfresh|].
  unfold new_folder_key.
  destruct (filter _ (persons st)) as [|p0 rest] eqn:E; [done|].
  exfalso. apply Hout.
  assert (p0 ∈ filter (fun p => p_user_id p = u ∧ p_folder_name p = slugify name)
                      (persons st)) as [[Hu Hk] Hin]%list_elem_of_filter
    by (rewrite E; by left).
  unfold folder_keys, persons_of. rewrite <- Hk. apply list_elem_of_In, in_map.
  apply list_elem_of_In. by apply list_elem_of_filter.
Qed.

(** X10. Creating a folder and deleting it again gives back the tables and
    the disk as they were, provided the new identifier was not in use and
    no directory of that key was on the disk. *)
Theorem create_then_delete_folder (u name : string) (st st1 : State) (row : person) :
  create_folder env u name st = (st1, Ok row) →
  (∀ p, p ∈ persons st → p_id p ≠ p_id row) →
  (∀ r, r ∈ photo_persons st → pp_person_id r ≠ p_id row) →
  folders st !! (u, p_folder_name row) = None →
  ∃ st', delete_folder (p_id row) u st1 = (st', Ok true) ∧
    persons st' = persons st ∧ photos st' = photos st ∧
    photo_persons st' = photo_persons st ∧ folders st' = folders st ∧
    root_files st' = root_files st.
Proof.
  destruct (create_folder_spec u name st) as (st2 & -> & Hp & Hph & Hl & Hr & _ & _ & Hf).
  intros [= <- <-]. cbn [p_id p_folder_name] in *. set (pid := uuid_str env _) in *.
  set (row := Person pid u name _ None) in *.
  intros Hpersons Hlinks Hdisk.
  unfold delete_folder. rewrite bind_gets, Hp, filter_app.
  rewrite (proj2 (filter_none _ (persons st))) by (intros p Hin [? _]; by eapply Hpersons).
  rewrite filter_cons_True by done. cbn [app filter list_filter].
  rewrite bind_gets, bind_modify, bind_unfold, delete_unlinked_spec.
  eexists. split; [reflexivity|].
  cbn [persons photos photo_persons folders root_files set_persons set_photos
       set_photo_persons set_folders].
  assert (filter (fun r => pp_person_id r ≠ pid) (photo_persons st2)
          = photo_persons st) as Hkeep.
  { rewrite Hl. apply filter_all. intros r Hin. by apply Hlinks. }
  assert (filter (fun r => pp_person_id r = pid) (photo_persons st2) = []) as Hnone.
  { rewrite Hl. apply filter_none. intros r Hin E. by eapply Hlinks. }
  rewrite Hnone. split_and!.
  - rewrite Hp, filter_app.
    rewrite filter_all by (intros p Hin; by apply Hpersons).
    rewrite filter_cons_False by (intros H; by apply H). by rewrite app_nil_r.
  - rewrite Hph. apply filter_all. intros ph _ [H _]. by apply elem_of_nil in H.
  - done.
  - rewrite Hf, Hdisk. by rewrite delete_insert_id.
  - done.
Qed.

(** *** The dashboard *)

Lemma scan_images_spec u p imgs : ∀ all_imgs seen,
  scan_images clock u p imgs all_imgs seen
  = (all_imgs ++ map (recent_of clock u p) imgs, list_to_set imgs ∪ seen).
Proof.
  induction imgs as [|f imgs IH]; intros all_imgs seen; simpl.
  - by rewrite app_nil_r, union_empty_l_L.
  - rewrite IH, <- app_assoc. f_equal.
    apply set_eq. intros x. rewrite !elem_of_union. tauto.
Qed.

Lemma scan_folders_spec u ps : ∀ all_imgs seen st,
  let found := concat (map (fun p => map (recent_of clock u p)
                                         (list_images st u (p_folder_name p))) ps) in
  ∃ st', scan_folders clock u ps all_imgs seen st
         = (st', Ok (all_imgs ++ found, list_to_set (map rp_filename found) ∪ seen)) ∧
         made_directories st st'.
Proof.
  induction ps as [|p ps IH]; intros all_imgs seen st; cbv zeta.
  - exists st. split; [|apply made_directories_refl]. simpl.
    rewrite app_nil_r. unfold mret, M_ret. do 3 f_equal. by rewrite union_empty_l_L.
  - simpl. rewrite bind_unfold.
    destruct (folder_disk_made u (p_folder_name p) st) as (st1 & -> & Hm1 & _).
    rewrite bind_gets, scan_images_spec.
    rewrite (made_directories_images _ _ _ _ Hm1).
    destruct (IH (all_imgs ++ map (recent_of clock u p) (list_images st u (p_folder_name p)))
                 (list_to_set (list_images st u (p_folder_name p)) ∪ seen) st1)
      as (st2 & -> & Hm2).
    exists st2. split; [|by eapply made_directories_trans].
    assert (map (fun q => map (recent_of clock u q) (list_images st1 u (p_folder_name q))) ps
            = map (fun q => map (recent_of clock u q) (list_images st u (p_folder_name q))) ps)
      as -> by (apply map_ext; intros q; by rewrite (made_directories_images _ _ _ _ Hm1)).
    rewrite <- app_assoc. do 3 f_equal.
    rewrite map_app, map_map. simpl. rewrite map_id.
    apply set_eq. intros x. rewrite !elem_of_union, !elem_of_list_to_set, elem_of_app. tauto.
Qed.

Lemma size_list_to_set_remove_dups (l : list string) :
  size (list_to_set (C := gset string) l) = List.length (remove_dups l).
Proof.
  rewrite <- (size_list_to_set (C := gset string) (remove_dups l))
    by apply NoDup_remove_dups.
  f_equal. apply set_eq. intros x.
  by rewrite !elem_of_list_to_set, elem_of_remove_dups.
Qed.

Lemma length_remove_dups_le (l : list string) :
  (List.length (remove_dups l) ≤ List.length l)%nat.
Proof.
  apply submseteq_length, NoDup_submseteq; [apply NoDup_remove_dups|].
  intros x. by rewrite elem_of_remove_dups.
Qed.

Lemma length_all_images st u :
  List.length (all_images clock st u)
  = sum_list (map (fun p => pc_photo_count (card_of st u p)) (persons_of st u)).
Proof.
  unfold all_images. induction (persons_of st u) as [|p ps IH]; [done|].
  simpl. rewrite length_app, length_map. by rewrite IH.
Qed.

(** X11. The dashboard counts the owner's groups and deliveries as the
    tables have them; [total_photos] is the number of distinct file names
    among the images of the owner's folders, so at most the sum of the
    photo counts of the cards, a name present in several folders being
    counted once; [recent_photos] holds the eight images of greatest
    modification time, or all of them when there are fewer, latest first.
    Reading the dashboard changes no table and no file. *)
Theorem dashboard_counts_distinct_names (u : string) (st : State) :
  ∃ st' stats,
    get_dashboard_stats clock u st = (st', Ok stats) ∧
    made_directories st st' ∧
    total_persons stats = List.length (persons_of st u) ∧
    total_deliveries stats
    = List.length (filter (fun d => d_user_id d = u) (delivery_history st)) ∧
    total_photos stats
    = List.length (remove_dups (map rp_filename (all_images clock st u))) ∧
    (total_photos stats
     ≤ sum_list (map (fun p => pc_photo_count (card_of st u p)) (persons_of st u)))%nat ∧
    List.length (recent_photos stats) = (8 `min` List.length (all_images clock st u))%nat ∧
    StronglySorted (fun a b => (rp_mtime b ≤ rp_mtime a)%Z) (recent_photos stats) ∧
    ∃ older, recent_photos stats ++ older ≡ₚ all_images clock st u ∧
             ∀ x y, x ∈ recent_photos stats → y ∈ older → (rp_mtime y ≤ rp_mtime x)%Z.
Proof.
  unfold get_dashboard_stats. rewrite !bind_gets, bind_unfold.
  fold (persons_of st u).
  destruct (scan_folders_spec u (persons_of st u) [] ∅ st) as (st' & -> & Hm).
  fold (all_images clock st u). cbn [app].
  set (key := fun x => (- rp_mtime x)%Z).
  set (sorted := sort_on key (all_images clock st u)).
  assert (StronglySorted (fun a b => (rp_mtime b ≤ rp_mtime a)%Z) sorted) as Hsorted.
  { eapply StronglySorted_weaken; [|apply (sort_on_sorted key)]. unfold key. simpl. lia. }
  eexists _, _. split; [reflexivity|]. cbn [total_persons total_deliveries total_photos
                                            recent_photos].
  split_and!; try done.
  - rewrite union_empty_r_L. apply size_list_to_set_remove_dups.
  - rewrite union_empty_r_L, size_list_to_set_remove_dups, <- length_all_images.
    etrans; [apply length_remove_dups_le|]. by rewrite length_map.
  - rewrite length_take. subst sorted. by rewrite sort_on_length.
  - rewrite <- (take_drop 8 sorted) in Hsorted.
    by apply StronglySorted_app_1_l in Hsorted.
  - exists (drop 8 sorted). split.
    + rewrite take_drop. apply sort_on_Permutation.
    + intros x y Hx Hy. rewrite <- (take_drop 8 sorted) in Hsorted.
      exact (StronglySorted_app_1_elem_of _ _ _ _ _ Hsorted Hx Hy).
Qed.

(** X12. The photo count and the preview on a group's card are those of
    the listing [get_person_photos] gives for the group, when the owner's
    groups have pairwise distinct ids. *)
Theorem card_agrees_with_photo_listing (u : string) (st st' : State)
  (cards : list person_card) (card : person_card) :
  NoDup (map p_id (persons_of st u)) →
  get_all_persons clock u st = (st', Ok cards) → card ∈ cards →
  ∃ entries,
    snd (get_person_photos (pc_id card) u st) = Ok entries ∧
    pc_photo_count card = List.length entries ∧
    pc_preview card = pe_url <$> head entries.
Proof.
  intros Hnd. unfold get_all_persons. rewrite bind_gets. fold (persons_of st u).
  destruct (fill_cards_spec u (sort_on (fun p => created_at clock (p_id p)) (persons_of st u)) st)
    as (st2 & -> & _).
  intros [= <- <-] Hcard%list_elem_of_In.
  apply in_map_iff in Hcard as (p & <- & Hp%list_elem_of_In).
  rewrite sort_on_Permutation in Hp.
  pose proof (get_person_photos_spec (p_id p) u st) as Hspec.
  assert (filter (fun q => p_id q = p_id p ∧ p_user_id q = u) (persons st) = [p]) as Hsel.
  { assert (∀ l, NoDup (map p_id l) → p ∈ l →
                 filter (fun q => p_id q = p_id p) l = [p]) as Huniq.
    { induction l as [|q l IH]; intros Hl Hin; [by apply elem_of_nil in Hin|].
      simpl in Hl. apply NoDup_cons in Hl as [Hq Hl].
      apply elem_of_cons in Hin as [<-|Hin].
      - rewrite filter_cons_True by done. f_equal.
        apply filter_none. intros x Hx E. apply Hq. rewrite <- E.
        apply list_elem_of_In, in_map. by apply list_elem_of_In.
      - rewrite filter_cons_False; [by apply IH|].
        intros E. apply Hq. rewrite E. apply list_elem_of_In, in_map.
        by apply list_elem_of_In. }
    specialize (Huniq _ Hnd Hp). unfold persons_of in Huniq.
    rewrite list_filter_filter in Huniq. exact Huniq. }
  cbn [pc_id card_of] in *. rewrite Hsel in Hspec. destruct Hspec as (st1 & -> & _).
  eexists. split; [reflexivity|]. unfold card_of. cbn [pc_photo_count pc_preview snd].
  rewrite length_map. split; [done|].
  by destruct (list_images st u (p_folder_name p)).
Qed.

End Management.

Lemma mime_of_accepted_names_witness :
  allowed_file "scan.PNG" = true ∧ _mime "scan.PNG" = "image/png".
Proof.
  split; [reflexivity|].
  destruct (mime_of_accepted_names "scan.PNG") as [_ H].
  destruct (H eq_refl) as (e & He & ->).
  vm_compute in He. injection He as <-. reflexivity.
Defined.

(** The beach group has the key [beach_sunset]: a folder named
    "Beach Sunset" gets the key with a suffix, and the keys stay distinct. *)
Lemma create_folder_keeps_keys_distinct_witness :
  NoDup (folder_keys scenes_state "u") ∧
  new_folder_key plain_env scenes_state "u" "Beach Sunset" = "beach_sunset_0f3a" ∧
  NoDup (folder_keys (fst (create_folder plain_env "u" "Beach Sunset" scenes_state)) "u").
Proof.
  assert (NoDup (folder_keys scenes_state "u")) as Hnd.
  { apply (bool_decide_unpack _). vm_compute. exact I. }
  split; [exact Hnd|]. split; [reflexivity|].
  apply create_folder_keeps_keys_distinct; [exact Hnd|].
  intros _. apply (bool_decide_unpack _). vm_compute. exact I.
Defined.

(** Where the suffixed key is taken as well, two groups share a folder. *)
Example create_folder_key_collision :
  let taken := Person "g-old" "u" "Old" "beach_sunset_0f3a" None in
  let st := set_persons (fun ps => ps ++ [taken]) scenes_state in
  folder_keys (fst (create_folder plain_env "u" "Beach Sunset" st)) "u"
  = ["person_0a1b2c3d"; "person_4e5f6a7b"; "beach_sunset"; "beach_sunset_0f3a";
     "beach_sunset_0f3a"].
Proof. reflexivity. Qed.

Lemma create_then_delete_folder_witness :
  let run := create_folder plain_env "u" "Trip to Rome" album_state in
  ∃ row st',
    snd run = Ok row ∧ p_folder_name row = "trip_to_rome" ∧
    delete_folder (p_id row) "u" (fst run) = (st', Ok true) ∧
    persons st' = persons album_state ∧ photos st' = photos album_state ∧
    photo_persons st' = photo_persons album_state ∧ folders st' = folders album_state ∧
    root_files st' = root_files album_state.
Proof.
  cbv zeta.
  set (row := Person (demo_uuid_str 0) "u" "Trip to Rome" "trip_to_rome" None).
  assert (create_folder plain_env "u" "Trip to Rome" album_state
          = (fst (create_folder plain_env "u" "Trip to Rome" album_state), Ok row)) as Hrun.
  { rewrite (surjective_pairing (create_folder _ _ _ _)) at 1. f_equal. }
  destruct (create_then_delete_folder plain_env "u" "Trip to Rome" album_state _ row Hrun)
    as (st' & Hdel & Hrest).
  - intros p Hin. repeat (apply elem_of_cons in Hin as [->|Hin]); try discriminate.
    by apply elem_of_nil in Hin.
  - intros r Hin. repeat (apply elem_of_cons in Hin as [->|Hin]); try discriminate.
    by apply elem_of_nil in Hin.
  - reflexivity.
  - exists row, st'. split; [reflexivity|]. split; [reflexivity|]. split; [exact Hdel|exact Hrest].
Defined.

Lemma card_agrees_with_photo_listing_witness :
  let card := PersonCard "g-alice" "Alice" "person_0a1b2c3d" 1
                         (Some "/static/uploads/u/person_0a1b2c3d/a.jpg") in
  NoDup (map p_id (persons_of album_state "u")) ∧
  card ∈ match snd (get_all_persons still_clock "u" album_state) with
         | Ok cards => cards
         | Raise _ => []
         end ∧
  ∃ entries,
    snd (get_person_photos "g-alice" "u" album_state) = Ok entries ∧
    1 = List.length entries ∧
    Some "/static/uploads/u/person_0a1b2c3d/a.jpg" = pe_url <$> head entries.
Proof.
  cbv zeta.
  assert (NoDup (map p_id (persons_of album_state "u"))) as Hnd.
  { apply (bool_decide_unpack _). vm_compute. exact I. }
  split; [exact Hnd|]. split; [left|].
  set (card := PersonCard "g-alice" "Alice" "person_0a1b2c3d" 1
                          (Some "/static/uploads/u/person_0a1b2c3d/a.jpg")).
  set (cards := [card; PersonCard "g-bob" "Bob" "person_4e5f6a7b" 0 None]).
  assert (get_all_persons still_clock "u" album_state
          = (fst (get_all_persons still_clock "u" album_state), Ok cards)) as Hrun.
  { rewrite (surjective_pairing (get_all_persons _ _ _)) at 1. f_equal. }
  apply (card_agrees_with_photo_listing still_clock "u" album_state _ cards card Hnd Hrun).
  left.
Defined.

(** Two folders hold [a.jpg]: the cards count it twice, the dashboard once. *)
Example dashboard_counts_a_shared_name_once :
  let st := write_file (in_folder "u" "person_4e5f6a7b" "a.jpg") png_bytes album_state in
  let stats := snd (get_dashboard_stats still_clock "u" st) in
  let cards := snd (get_all_persons still_clock "u" st) in
  (match stats with Ok s => Some (total_photos s, total_persons s) | Raise _ => None end)
  = Some (1, 2) ∧
  (match cards with Ok cs => map pc_photo_count cs | Raise _ => [] end) = [1; 1].
Proof. vm_compute. done. Qed.

(** ** Deleting a photo from a folder *)

Section DeletePhoto.
Variable env : Env.






End DeletePhoto.

(** [a.jpg] was uploaded twice; deleting it from Alice's folder removes both
    photo rows and both links, and the one file. *)
Example delete_photo_twice_uploaded :
  let run := delete_photo_from_folder plain_env "g-alice" "u" "a.jpg" twice_uploaded_state in
  snd run = Ok true ∧ photos (fst run) = [] ∧ photo_persons (fst run) = [] ∧
  list_images (fst run) "u" "person_0a1b2c3d" = [].
Proof. vm_compute. done. Qed.

(** ** What a computation leaves alone *)

Section Keeps.
Context (R : State → State → Prop) `{!Reflexive R, !Transitive R}.

Lemma keeps_ret {A : Type} (a : A) : keeps R (mret a).
Proof. intros st. simpl. reflexivity. Qed.

Lemma keeps_gets {A : Type} (f : State → A) : keeps R (gets f).
Proof. intros st. simpl. reflexivity. Qed.

Lemma keeps_modify (f : State → State) : (∀ st, R st (f st)) → keeps R (modify f).
Proof. intros H st. apply H. Qed.

Lemma keeps_bind {A B : Type} (m : M A) (k : A → M B) :
  keeps R m → (∀ a, keeps R (k a)) → keeps R (m ≫= k).
Proof.
  intros Hm Hk st. rewrite bind_unfold. specialize (Hm st).
  destruct (m st) as [st1 [a|e]]; simpl in *; [|done].
  etrans; [exact Hm|apply Hk].
Qed.

Lemma keeps_try_except {A : Type} (m : M A) (handler : exn → M A) :
  keeps R m → (∀ e, keeps R (handler e)) → keeps R (try_except m handler).
Proof.
  intros Hm Hh st. unfold try_except. specialize (Hm st).
  destruct (m st) as [st1 [a|e]]; simpl in *; [done|].
  etrans; [exact Hm|apply Hh].
Qed.

End Keeps.

#[global] Instance same_on_refl {B : Type} (proj : State → B) : Reflexive (same_on proj).
Proof. by intros st. Qed.

#[global] Instance same_on_trans {B : Type} (proj : State → B) : Transitive (same_on proj).
Proof. unfold same_on. intros st1 st2 st3 H12 H23. congruence. Qed.

#[global] Instance made_directories_reflexive : Reflexive made_directories.
Proof. intros st. apply made_directories_refl. Qed.

#[global] Instance made_directories_transitive : Transitive made_directories.
Proof. intros st1 st2 st3. apply made_directories_trans. Qed.

(** One step along the structure of a computation. *)
Ltac keeps_step :=
  first [ apply keeps_ret; tc_solve
        | apply keeps_gets; tc_solve
        | apply keeps_try_except; [tc_solve| |intros ?]
        | apply keeps_modify; intros ?; reflexivity ].

(** A bind: the first computation, then the rest for every result [x]. *)
Tactic Notation "keeps_bind" ident(x) := apply keeps_bind; [tc_solve| |intros x].

(** *** The messages flashed to the user *)

Section Flashed.
Variable env : Env.

Lemma uuid4_str_keeps_flashed : keeps (same_on flashed) (uuid4_str env).
Proof. by intros st. Qed.

Lemma folder_disk_keeps_flashed u f : keeps (same_on flashed) (folder_disk u f).
Proof. intros st. unfold folder_disk, modify, same_on. simpl. by case_match. Qed.

Lemma _copy_to_folder_keeps_flashed u f src fn :
  keeps (same_on flashed) (_copy_to_folder env u f src fn).
Proof.
  unfold _copy_to_folder. keeps_bind x; [apply folder_disk_keeps_flashed|].
  keeps_bind present; [keeps_step|]. destruct present; [keeps_step|].
  intros st. unfold shutil_copy2, same_on. by repeat case_match.
Qed.

Lemma create_face_person_keeps_flashed u e :
  keeps (same_on flashed) (create_face_person env u e).
Proof.
  unfold create_face_person. keeps_bind pid; [apply uuid4_str_keeps_flashed|].
  keeps_bind x; [keeps_step|]. keeps_bind y; [apply folder_disk_keeps_flashed|keeps_step].
Qed.

Lemma resolve_person_keeps_flashed u e : keeps (same_on flashed) (resolve_person env u e).
Proof.
  unfold resolve_person. keeps_bind found; [by intros st|].
  destruct found; [keeps_step|apply create_face_person_keeps_flashed].
Qed.

Lemma face_loop_keeps_flashed u path fn pid faces : ∀ seen attached,
  keeps (same_on flashed) (face_loop env u path fn pid faces seen attached).
Proof.
  induction faces as [|f faces IH]; intros seen attached; simpl; [keeps_step|].
  destruct (default [] (face_embedding f)) as [|x e]; [apply IH|].
  keeps_bind person; [apply resolve_person_keeps_flashed|].
  destruct (decide (p_id person ∈ seen)); [apply IH|].
  keeps_bind x1; [apply _copy_to_folder_keeps_flashed|].
  keeps_bind x2; [unfold _link; keeps_step|apply IH].
Qed.

Lemma _find_or_create_scene_person_keeps_flashed u slug :
  keeps (same_on flashed) (_find_or_create_scene_person env u slug).
Proof.
  unfold _find_or_create_scene_person. keeps_bind res; [keeps_step|].
  destruct res; [|keeps_step].
  keeps_bind pid; [apply uuid4_str_keeps_flashed|].
  keeps_bind x; [keeps_step|]. keeps_bind y; [apply folder_disk_keeps_flashed|keeps_step].
Qed.

Lemma process_uploaded_image_keeps_flashed u path fn :
  keeps (same_on flashed) (process_uploaded_image env u path fn).
Proof.
  unfold process_uploaded_image. keeps_bind pid; [apply uuid4_str_keeps_flashed|].
  keeps_bind x; [keeps_step|].
  keeps_bind faces; [unfold extract_embeddings; keeps_step|].
  destruct faces as [|f fs].
  - keeps_bind slug; [unfold groq_describe_for_folder; keeps_step|].
    keeps_bind person; [apply _find_or_create_scene_person_keeps_flashed|].
    keeps_bind x1; [apply _copy_to_folder_keeps_flashed|].
    keeps_bind x2; [unfold _link; keeps_step|keeps_step].
  - keeps_bind attached; [apply face_loop_keeps_flashed|keeps_step].
Qed.

End Flashed.

(** ** What the upload route reports *)

Section UploadReport.
Variable env : Env.

Lemma accepted_cons file rest :
  accepted (file :: rest)
  = if String.eqb (up_filename file) "" then accepted rest
    else if allowed_file (up_filename file) then file :: accepted rest else accepted rest.
Proof.
  unfold accepted. destruct (String.eqb_spec (up_filename file) "") as [E|E].
  - rewrite filter_cons_False; [done|]. intros [H _]. by apply H.
  - destruct (allowed_file (up_filename file)) eqn:Ha.
    + by rewrite filter_cons_True.
    + rewrite filter_cons_False; [done|]. intros [_ H]. congruence.
Qed.

Lemma refused_cons file rest :
  refused (file :: rest)
  = if String.eqb (up_filename file) "" then refused rest
    else if allowed_file (up_filename file) then refused rest else file :: refused rest.
Proof.
  unfold refused. destruct (String.eqb_spec (up_filename file) "") as [E|E].
  - rewrite filter_cons_False; [done|]. intros [H _]. by apply H.
  - destruct (allowed_file (up_filename file)) eqn:Ha.
    + rewrite filter_cons_False; [done|]. intros [_ H]. congruence.
    + by rewrite filter_cons_True.
Qed.

(** A run of the loop that does not raise: the count grows by the number
    of accepted files, one photo row of the owner is added for each, and
    one message is flashed for each refused file. *)
Lemma upload_loop_report uid files : ∀ c f st st' c' f',
  upload_loop env uid files c f st = (st', Ok (c', f')) →
  c' = c + List.length (accepted files) ∧
  flashed st'
  = flashed st ++ map (fun file => FlashSkipped (up_filename file)) (refused files) ∧
  ∃ rows, photos st' = photos st ++ rows ∧
          List.length rows = List.length (accepted files) ∧
          Forall (fun ph => ph_user_id ph = uid) rows.
Proof.
  induction files as [|file rest IH]; intros c f st st' c' f' Hrun.
  - injection Hrun as <- <- <-. rewrite Nat.add_0_r, app_nil_r.
    split_and!; [done|done|]. exists []. by rewrite app_nil_r.
  - change (file :: rest) with ([file] ++ rest) in Hrun.
    rewrite upload_loop_app, upload_loop_one in Hrun.
    rewrite accepted_cons, refused_cons.
    destruct (String.eqb (up_filename file) ""); [by apply IH in Hrun|].
    destruct (allowed_file (up_filename file)); unfold negb in Hrun; cbv beta iota zeta in Hrun.
    + unfold save_upload in Hrun.
      destruct (may_write env _); [|done].
      set (safe := safe_name env (uuid_drawn st) file) in *.
      set (st1 := write_file _ _ _) in *.
      pose proof (process_uploaded_image_keeps_flashed env uid safe safe st1) as Hfl.
      destruct (process_uploaded_image_spec env uid safe safe st1)
        as (st2 & out & gs & Hproc & Hph & _).
      rewrite Hproc in Hrun, Hfl. destruct out as [r|e]; [|done].
      apply IH in Hrun as (-> & Hflashed & rows & Hrows & Hlen & Hall).
      unfold same_on in Hfl. simpl in Hfl.
      split_and!.
      * simpl. lia.
      * by rewrite Hflashed, Hfl.
      * exists (Photo (uuid_str env (uuid_drawn st1)) uid safe safe :: rows).
        rewrite Hrows, Hph. split_and!.
        -- by rewrite <- app_assoc.
        -- simpl. by rewrite Hlen.
        -- by constructor.
    + apply IH in Hrun as (-> & Hflashed & Hrows). split_and!; [done| |done].
      rewrite Hflashed. simpl. by rewrite <- app_assoc.
Qed.

(** X14. When the upload route returns, its last message tells how many
    files it took: the files with a name and an accepted extension.  One
    photo row of the owner was added for each of them; one "skipped"
    message was flashed for each file with a refused name, in order, and
    none for a file without a name; "no valid files" is reported exactly
    when no file was taken. *)
Theorem upload_photo_report (uid : string) (files : list upload) (st st' : State) :
  upload_photo env uid files st = (st', Ok tt) →
  ∃ faces rows,
    flashed st'
    = flashed st ++ map (fun file => FlashSkipped (up_filename file)) (refused files)
      ++ [match List.length (accepted files) with
          | 0 => FlashNoValidFiles
          | S n => FlashUploaded (S n) faces
          end] ∧
    photos st' = photos st ++ rows ∧
    List.length rows = List.length (accepted files) ∧
    Forall (fun ph => ph_user_id ph = uid) rows.
Proof.
  unfold upload_photo. rewrite bind_unfold.
  destruct (upload_loop env uid files 0 0 st) as [st1 [[c f]|e]] eqn:Hloop; [|done].
  apply upload_loop_report in Hloop as (-> & Hflashed & rows & Hrows & Hlen & Hall).
  simpl. intros Hrun. exists f, rows.
  destruct (List.length (accepted files)) as [|n];
    injection Hrun as <-; simpl; rewrite Hflashed, <- app_assoc; done.
Qed.

End UploadReport.

(** A batch of a picture, a text file, a file without a name and a second
    picture, on a disk that accepts everything. *)
Lemma upload_photo_report_witness :
  let batch := [Upload "a.jpg" png_bytes; Upload "notes.txt" []; Upload "" []; 
                Upload "b.PNG" png_bytes] in
  let run := upload_photo plain_env "u" batch empty_state in
  snd run = Ok tt ∧
  flashed (fst run) = [FlashSkipped "notes.txt"; FlashUploaded 2 0] ∧
  List.length (photos (fst run)) = 2.
Proof.
  cbv zeta.
  set (batch := [Upload "a.jpg" png_bytes; Upload "notes.txt" []; Upload "" [];
                 Upload "b.PNG" png_bytes]).
  assert (upload_photo plain_env "u" batch empty_state
          = (fst (upload_photo plain_env "u" batch empty_state), Ok tt)) as Hrun.
  { rewrite (surjective_pairing (upload_photo _ _ _ _)) at 1. f_equal. }
  destruct (upload_photo_report plain_env "u" batch empty_state _ Hrun)
    as (faces & rows & Hflashed & Hrows & Hlen & _).
  split; [reflexivity|]. split; [reflexivity|].
  rewrite Hrows, length_app, Hlen. reflexivity.
Defined.

(** ** Faces at the edge: no embedding, and the zero vector *)

Section EdgeFaces.
Local Open Scope float_scope.
Variable env : Env.

Lemma face_loop_without_embeddings u path fn pid faces seen attached st :
  Forall (fun f => default [] (face_embedding f) = []) faces →
  face_loop env u path fn pid faces seen attached st = (st, Ok attached).
Proof.
  induction 1 as [|f faces Hf _ IH]; [done|]. simpl. by rewrite Hf.
Qed.

(** X15. When the detector reports faces and none of them carries an
    embedding, the upload is recorded and filed nowhere: the photo row is
    added, the faces are counted, and no group, no membership link and no
    file is added. *)
Theorem upload_of_faces_without_embedding (u path fn : string) (st : State)
  (b : Bytes) (faces : list face) :
  read_file st (in_root u path) = Some b →
  deepface_represent env b = Ok faces →
  faces ≠ [] →
  Forall (fun f => default [] (face_embedding f) = []) faces →
  let pid := uuid_str env (uuid_drawn st) in
  process_uploaded_image env u path fn st
  = (set_photos (fun l => l ++ [Photo pid u fn fn]) (set_uuid_drawn S st),
     Ok (Result fn (List.length faces) [] pid deepface)).
Proof.
  intros Hfile Hfaces Hne Hnone. cbv zeta.
  unfold process_uploaded_image. rewrite bind_unfold. unfold uuid4_str at 1.
  rewrite bind_modify, bind_unfold.
  set (st1 := set_photos _ _).
  assert (extract_embeddings env u path st1 = (st1, Ok faces)) as ->.
  { unfold extract_embeddings, gets.
    change (read_file st1 (in_root u path)) with (read_file st (in_root u path)).
    by rewrite Hfile, Hfaces. }
  destruct faces as [|f fs]; [done|].
  by rewrite bind_unfold, face_loop_without_embeddings.
Qed.

(** *** The zero vector *)

Lemma is_nan_true x : is_nan x = true ↔ Prim2SF x = S754_nan.
Proof.
  unfold is_nan. rewrite negb_true_iff, FloatAxioms.eqb_spec. unfold SFeqb.
  destruct (SFcompare_self (Prim2SF x)) as [E|E]; rewrite E.
  - split; [|done]. intros _.
    destruct (Prim2SF x) as [s|s| |s m e]; try done; destruct s; discriminate.
  - split; [done|]. intros Hx. rewrite Hx in E. discriminate.
Qed.

Lemma eqb_zero_cases x : (x =? 0) = true → x = 0 ∨ x = -0.
Proof.
  rewrite FloatAxioms.eqb_spec. intros H.
  assert (Prim2SF x = S754_zero false ∨ Prim2SF x = S754_zero true) as [E|E].
  { destruct (Prim2SF x) as [[]|[]| |[]]; try discriminate; auto. }
  - left. apply FloatAxioms.Prim2SF_inj. by rewrite E.
  - right. apply FloatAxioms.Prim2SF_inj. by rewrite E.
Qed.

Lemma sum_products_zero e :
  Forall (fun x => (x =? 0) = true) e → sum_products e e = 0.
Proof.
  unfold sum_products. induction 1 as [|x e Hx _ IH]; [done|]. simpl.
  by destruct (eqb_zero_cases x Hx) as [-> | ->].
Qed.

(** Zero times anything is a zero or not a number. *)
Lemma zero_mul n : (0 * n =? 0) = true ∨ is_nan (0 * n) = true.
Proof.
  rewrite FloatAxioms.eqb_spec, is_nan_true, FloatAxioms.mul_spec.
  change (Prim2SF 0) with (S754_zero false).
  destruct (Prim2SF n) as [s|s| |s m e]; simpl; auto; destruct s; auto.
Qed.

Lemma eqb_nan x y : is_nan x = true → (x =? y) = false.
Proof. rewrite is_nan_true, FloatAxioms.eqb_spec. by intros ->. Qed.

Lemma div_nan x y : is_nan y = true → is_nan (x / y) = true.
Proof.
  rewrite !is_nan_true, FloatAxioms.div_spec. intros ->.
  by destruct (Prim2SF x) as [s|s| |s m e].
Qed.

Lemma leb_nan x y : is_nan y = true → (x <=? y) = false.
Proof.
  rewrite is_nan_true, FloatAxioms.leb_spec. intros ->.
  by destruct (Prim2SF x) as [s|s| |s m e].
Qed.

(** The similarity of a zero vector with a vector of its dimension is
    zero or not a number: below the threshold in both cases. *)
Lemma cosine_similarity_zero e v :
  Forall (fun x => (x =? 0) = true) e → List.length e = List.length v →
  ∃ t, cosine_similarity e v = Ok t ∧ (thresh <=? t) = false.
Proof.
  intros Hzero Hlen. unfold cosine_similarity, np_linalg_norm, np_dot.
  rewrite (sum_products_zero e Hzero).
  change (PrimFloat.sqrt 0) with 0.
  destruct (zero_mul (PrimFloat.sqrt (sum_products v v))) as [Hz|Hnan].
  - rewrite Hz. by exists 0.
  - rewrite (eqb_nan _ _ Hnan), Hlen, Nat.eqb_refl. eexists. split; [reflexivity|].
    by apply leb_nan, div_nan.
Qed.

(** X16. A face whose embedding is all zeros is never taken for a stored
    group, whatever the stored vectors of its dimension: a zero norm makes
    the similarity zero, not a division by zero, and a new group is
    founded. *)
Theorem zero_embedding_founds_a_group (u : string) (e : list float) (st : State) :
  Forall (fun x => (x =? 0) = true) e →
  same_dimension e (persons_of st u) →
  ∃ st', resolve_person env u e st
         = (st', Ok (new_face_person (uuid_str env (uuid_drawn st)) u e)) ∧
         persons st' = persons st ++ [new_face_person (uuid_str env (uuid_drawn st)) u e].
Proof.
  intros Hzero Hdim.
  assert (∀ q t, q ∈ persons_of st u → similarity_of e q t → (thresh <=? t) = false)
    as Hbelow.
  { intros q t Hq (v & Hv & Ht).
    destruct (cosine_similarity_zero e v Hzero) as (t' & Ht' & Hlow).
    - symmetry. by eapply Hdim.
    - congruence. }
  pose proof (resolve_person_cases env u e st) as Hcases.
  destruct (best_match (persons_of st u) e) as [[p|]|err].
  - destruct Hcases as (_ & Hp & s & Hsim & Hth & _).
    by rewrite (Hbelow p s Hp Hsim) in Hth.
  - destruct Hcases as (_ & st' & Hrun & Hpersons & _). by exists st'.
  - destruct Hcases as (_ & _ & q & v & Hq & Hv & Hlen).
    by rewrite (Hdim q v Hq Hv) in Hlen.
Qed.

End EdgeFaces.

(** A picture in which the detector sees one face without an embedding. *)
Lemma upload_of_faces_without_embedding_witness :
  let env := demo_env [Face None] (Ok "") (fun _ => true) in
  let st := with_upload "x.jpg" empty_state in
  let run := process_uploaded_image env "u" "x.jpg" "x.jpg" st in
  r_faces_detected <$> (match snd run with Ok r => Some r | Raise _ => None end) = Some 1 ∧
  List.length (photos (fst run)) = 1 ∧ photo_persons (fst run) = [] ∧
  persons (fst run) = [] ∧ folders (fst run) = ∅.
Proof.
  cbv zeta.
  rewrite (upload_of_faces_without_embedding
             (demo_env [Face None] (Ok "") (fun _ => true)) "u" "x.jpg" "x.jpg"
             (with_upload "x.jpg" empty_state) png_bytes [Face None]);
    [|reflexivity|reflexivity|discriminate|by repeat constructor].
  simpl. done.
Defined.

(** A zero vector against Alice and Bob. *)
Lemma zero_embedding_founds_a_group_witness :
  let st := album_state in
  same_dimension [0; -0]%float (persons_of st "u") ∧
  ∃ st', resolve_person plain_env "u" [0; -0]%float st
         = (st', Ok (new_face_person (demo_uuid_str 0) "u" [0; -0]%float)) ∧
         List.length (persons st') = 3.
Proof.
  cbv zeta.
  assert (same_dimension [0; -0]%float (persons_of album_state "u")) as Hdim.
  { intros p v Hp Hv. vm_compute in Hp.
    repeat (apply elem_of_cons in Hp as [->|Hp]); try (by injection Hv as <-).
    by apply elem_of_nil in Hp. }
  split; [exact Hdim|].
  destruct (zero_embedding_founds_a_group plain_env "u" [0; -0]%float album_state)
    as (st' & Hrun & Hpersons); [by repeat constructor|exact Hdim|].
  exists st'. split; [exact Hrun|]. by rewrite Hpersons.
Defined.

(** ** Moving a photo to another folder and back *)

Section MoveBack.
Variable env : Env.

Lemma elem_of_ensure_link pid g (l : list photo_person) r :
  r ∈ ensure_link pid g l ↔ r ∈ l ∨ r = PhotoPerson pid g.
Proof.
  unfold ensure_link.
  destruct (filter _ l) as [|x xs] eqn:E.
  - rewrite elem_of_app, list_elem_of_singleton. done.
  - split; [by left|]. intros [H| ->]; [done|].
    assert (x ∈ filter (fun r => pp_photo_id r = pid ∧ pp_person_id r = g) l)
      as [[Hp Hg] Hin]%list_elem_of_filter by (rewrite E; by left).
    destruct x as [xp xg]. simpl in *. by subst.
Qed.

Lemma elem_of_remove_link pid g (l : list photo_person) r :
  r ∈ remove_link pid g l ↔ r ∈ l ∧ r ≠ PhotoPerson pid g.
Proof.
  unfold remove_link. rewrite list_elem_of_filter. split.
  - intros [Hn Hin]. split; [done|]. intros ->. by apply Hn.
  - intros [Hin Hne]. split; [|done]. intros [Hp Hg]. apply Hne.
    destruct r as [rp rg]. simpl in *. by subst.
Qed.

(** X17. Moving a photo from one folder of the owner to another and back,
    without keeping copies, on a disk that accepts it: every folder holds
    the files it held, provided the other folder had no file of that name
    (it would have been overwritten, then removed); the rows of groups
    and photos are untouched; and the membership links are the same ones,
    provided the photo was linked to the first group and not to the
    other. *)
Theorem move_there_and_back (u s d fn : string) (st : State) (src dest : person) (b : Bytes) :
  head (filter (fun p => p_id p = s ∧ p_user_id p = u) (persons st)) = Some src →
  head (filter (fun p => p_id p = d ∧ p_user_id p = u) (persons st)) = Some dest →
  p_folder_name src ≠ p_folder_name dest →
  read_file st (in_folder u (p_folder_name src) fn) = Some b →
  read_file st (in_folder u (p_folder_name dest) fn) = None →
  (∀ p, may_write env p = true ∧ may_remove env p = true) →
  (∀ ph, head (filter (fun ph => ph_user_id ph = u ∧ ph_filename ph = fn) (photos st))
         = Some ph →
         PhotoPerson (ph_id ph) s ∈ photo_persons st ∧
         PhotoPerson (ph_id ph) d ∉ photo_persons st) →
  ∃ st1 st2,
    move_photo_to_folder env u s d fn false st = (st1, Ok true) ∧
    move_photo_to_folder env u d s fn false st1 = (st2, Ok true) ∧
    (∀ u' f', dir_of st2 u' f' = dir_of st u' f') ∧
    root_files st2 = root_files st ∧
    persons st2 = persons st ∧ photos st2 = photos st ∧
    ∀ r, r ∈ photo_persons st2 ↔ r ∈ photo_persons st.
Proof.
  intros [rs Hs]%head_filter_cons [rd Hd]%head_filter_cons Nfold Hb Hnone Hdisk Hlinked.
  assert (s ≠ d) as Hsd.
  { intros ->. rewrite Hs in Hd. by injection Hd as -> _. }
  destruct (move_photo_to_folder_spec env u s d fn false st)
    as (st1 & out1 & Hrun1 & Hp1 & Hph1 & Hr1 & Hcases1).
  rewrite Hs, Hd in Hcases1. cbv zeta in Hcases1.
  rewrite Hb, decide_False, (proj1 (Hdisk _)), (proj2 (Hdisk _)) in Hcases1 by done.
  cbn [orb negb] in Hcases1. destruct Hcases1 as (Hdir1 & -> & Hl1).
  destruct (move_photo_to_folder_spec env u d s fn false st1)
    as (st2 & out2 & Hrun2 & Hp2 & Hph2 & Hr2 & Hcases2).
  rewrite Hp1, Hs, Hd in Hcases2. cbv zeta in Hcases2.
  assert (read_file st1 (in_folder u (p_folder_name dest) fn) = Some b) as Hb1.
  { simpl. rewrite Hdir1, decide_False, decide_True by congruence.
    by rewrite lookup_insert_eq. }
  rewrite Hb1, decide_False, (proj1 (Hdisk _)), (proj2 (Hdisk _)) in Hcases2 by done.
  cbn [orb negb] in Hcases2. destruct Hcases2 as (Hdir2 & -> & Hl2).
  exists st1, st2. split_and!; try done; try congruence.
  - intros u' f'. rewrite Hdir2, !Hdir1.
    destruct (decide ((u, p_folder_name dest) = (u', f'))) as [Ed|Nd].
    + rewrite decide_False by congruence.
      rewrite delete_insert_eq. apply delete_id.
      simpl in Hnone. by injection Ed as <- <-.
    + destruct (decide ((u, p_folder_name src) = (u', f'))) as [Es|Ns]; [|done].
      injection Es as <- <-. apply insert_delete_id. exact Hb.
  - intros r. rewrite Hl2. unfold moved_links. rewrite Hph1.
    rewrite Hl1. unfold moved_links.
    destruct (filter (fun ph => ph_user_id ph = u ∧ ph_filename ph = fn) (photos st))
      as [|ph rest] eqn:Hsel; [done|].
    destruct (Hlinked ph) as [Hin Hout]; [done|].
    rewrite elem_of_remove_link, elem_of_ensure_link, elem_of_remove_link,
      elem_of_ensure_link.
    split.
    + intros [[[[Hr|Hr] Hne]|Hr] Hne']; [done|congruence|by subst].
    + intros Hr. split.
      * destruct (decide (r = PhotoPerson (ph_id ph) s)) as [->|Hne]; [by right|].
        left. split; [by left|done].
      * intros ->. done.
Qed.

End MoveBack.

Lemma move_there_and_back_witness :
  ∃ st1 st2,
    move_photo_to_folder plain_env "u" "g-alice" "g-bob" "a.jpg" false album_state
    = (st1, Ok true) ∧
    move_photo_to_folder plain_env "u" "g-bob" "g-alice" "a.jpg" false st1 = (st2, Ok true) ∧
    (∀ u' f', dir_of st2 u' f' = dir_of album_state u' f') ∧
    ∀ r, r ∈ photo_persons st2 ↔ r ∈ photo_persons album_state.
Proof.
  destruct (move_there_and_back plain_env "u" "g-alice" "g-bob" "a.jpg" album_state
              alice bob png_bytes)
    as (st1 & st2 & H1 & H2 & Hdir & _ & _ & _ & Hlinks);
    try reflexivity; try discriminate.
  - done.
  - intros ph [= <-]. split; [left|].
    intros Hin. repeat (apply elem_of_cons in Hin as [[=]|Hin]). by apply elem_of_nil in Hin.
  - by exists st1, st2.
Defined.

(** ** The assistant *)

#[global] Instance same_files_reflexive : Reflexive same_files.
Proof. by intros st. Qed.

#[global] Instance same_files_transitive : Transitive same_files.
Proof.
  intros st1 st2 st3 [R12 D12] [R23 D23]. split; [congruence|].
  intros u f. by rewrite D23, D12.
Qed.

#[global] Instance same_index_reflexive : Reflexive same_index.
Proof. by intros st. Qed.

#[global] Instance same_index_transitive : Transitive same_index.
Proof.
  intros st1 st2 st3 [(?&?&?) F12] [(?&?&?) F23].
  split; [unfold same_tables; split_and!; congruence|by etrans].
Qed.

#[global] Instance only_renamed_reflexive u : Reflexive (only_renamed u).
Proof.
  intros st. unfold only_renamed. split_and!; try done.
  by apply Forall_Forall2_diag, Forall_forall.
Qed.

#[global] Instance only_renamed_transitive u : Transitive (only_renamed u).
Proof.
  intros st1 st2 st3 (Hph12 & Hl12 & Hf12 & Hp12) (Hph23 & Hl23 & Hf23 & Hp23).
  unfold only_renamed. split_and!; [congruence|congruence|by etrans|].
  revert Hp23. generalize (persons st3). clear -Hp12.
  induction Hp12 as [|p p' l l' (Hi & Hu & Hk & He & Hn) _ IH]; intros l3 H3;
    inversion H3 as [|q q' ? ? (Hi' & Hu' & Hk' & He' & Hn') Hrest]; subst; constructor.
  - split_and!; try congruence. intros Hne. rewrite Hn', Hn; [done|done|congruence].
  - by apply IH.
Qed.

Lemma keeps_weaken {A : Type} (R R' : State → State → Prop) (m : M A) :
  (∀ st st', R st st' → R' st st') → keeps R m → keeps R' m.
Proof. intros HR Hm st. apply HR, Hm. Qed.

Lemma same_index_only_renamed u st st' : same_index st st' → only_renamed u st st'.
Proof.
  intros [(Hp & Hph & Hl) Hf]. unfold only_renamed. split_and!; try done.
  rewrite Hp. by apply Forall_Forall2_diag, Forall_forall.
Qed.

Lemma made_directories_same_index st st' : made_directories st st' → same_index st st'.
Proof.
  intros H. split; [|by apply made_directories_same_files].
  destruct H as (?&?&?&_). by split_and!.
Qed.

Section Assistant.
Variable env : Env.
Variable clock : Clock.
Variable assistant : Assistant.

Lemma get_all_persons_made u st :
  ∃ st' cards, get_all_persons clock u st = (st', Ok cards) ∧ made_directories st st'.
Proof.
  unfold get_all_persons. rewrite bind_gets.
  destruct (fill_cards_spec u (sort_on (fun p => created_at clock (p_id p))
                                       (filter (fun p => p_user_id p = u) (persons st))) st)
    as (st' & -> & Hm & _).
  by eexists _, _.
Qed.

Lemma get_all_persons_keeps u : keeps made_directories (get_all_persons clock u).
Proof. intros st. by destruct (get_all_persons_made u st) as (st' & cards & -> & Hm). Qed.

Lemma get_person_photos_keeps pid u : keeps made_directories (get_person_photos pid u).
Proof.
  intros st. pose proof (get_person_photos_spec pid u st) as H.
  destruct (filter _ (persons st)) as [|p rest].
  - rewrite H. apply made_directories_refl.
  - by destruct H as (st' & -> & Hm & _).
Qed.

Lemma folder_disk_keeps u f : keeps made_directories (folder_disk u f).
Proof. intros st. by destruct (folder_disk_made u f st) as (st' & -> & Hm & _). Qed.

Lemma send_photos_by_email_keeps u pid recipient custom :
  keeps same_index (send_photos_by_email env u pid recipient custom).
Proof.
  unfold send_photos_by_email. keeps_bind res; [keeps_step|].
  destruct res as [|person rest]; [keeps_step|].
  keeps_bind x.
  { eapply keeps_weaken; [apply made_directories_same_index|apply folder_disk_keeps]. }
  keeps_bind files; [keeps_step|]. destruct files as [|f fs]; [keeps_step|].
  keeps_bind attached; [keeps_step|]. destruct attached as [msg n].
  destruct (smtp_sendmail env msg).
  - keeps_bind y; [by apply keeps_modify|].
    keeps_bind z; [by apply keeps_modify|keeps_step].
  - keeps_bind y; [by apply keeps_modify|keeps_step].
Qed.

Lemma rename_person_keeps pid u new : keeps (only_renamed u) (rename_person pid u new).
Proof.
  intros st. unfold rename_person. rewrite bind_gets, bind_modify. simpl.
  unfold only_renamed. simpl. split_and!; try done.
  apply Forall2_fmap_r, Forall_Forall2_diag, Forall_forall. intros p _.
  unfold compose. destruct (decide (p_id p = pid ∧ p_user_id p = u)) as [[_ Hu]|_]; [|done].
  simpl. split_and!; done.
Qed.

Lemma _find_person_by_name_keeps u name R `{!Reflexive R} :
  keeps R (_find_person_by_name assistant u name).
Proof.
  unfold _find_person_by_name. destruct (String.eqb name ""); intros st; simpl; reflexivity.
Qed.

Lemma run_action_keeps u action_data plain :
  keeps (only_renamed u) (run_action env clock assistant u action_data plain).
Proof.
  assert (∀ A (m : M A), keeps made_directories m → keeps (only_renamed u) m) as Hmade.
  { intros A m. apply keeps_weaken. intros st st' H.
    by apply same_index_only_renamed, made_directories_same_index. }
  unfold run_action. cbv zeta. repeat case_decide.
  - keeps_bind person; [apply _find_person_by_name_keeps; tc_solve|].
    destruct person as [p|]; [|keeps_step].
    keeps_bind photos; [apply Hmade, get_person_photos_keeps|keeps_step].
  - keeps_bind persons; [apply Hmade, get_all_persons_keeps|keeps_step].
  - keeps_bind person; [apply _find_person_by_name_keeps; tc_solve|].
    destruct person as [p|]; [|keeps_step].
    destruct (String.eqb _ ""); [keeps_step|].
    keeps_bind r; [|keeps_step].
    eapply keeps_weaken; [apply same_index_only_renamed|apply send_photos_by_email_keeps].
  - keeps_bind person; [apply _find_person_by_name_keeps; tc_solve|].
    destruct person as [p|]; [|keeps_step].
    destruct (String.eqb _ ""); [keeps_step|].
    keeps_bind x; [apply rename_person_keeps|keeps_step].
  - keeps_step.
Qed.

(** X18. Whatever the language model replies and whatever the parser makes
    of it, the assistant answers, it never raises; it adds and removes no
    group, no photo, no membership link and no file, and changes no row of
    another owner: all it can change is the display name of groups of the
    asking owner (besides sending mail and creating missing folders).
    When its answer carries no action, nothing changed but folders
    created empty, and the answer shows no photo and no folder. *)
Theorem assistant_only_renames (u user_message : string) (history : list message)
  (st : State) :
  ∃ st' resp,
    chat_with_assistant env clock assistant u user_message history st = (st', Ok resp) ∧
    only_renamed u st st' ∧
    (cr_action resp = None →
     made_directories st st' ∧ cr_photos resp = [] ∧ cr_folders resp = []).
Proof.
  unfold chat_with_assistant, _build_system_prompt. rewrite bind_unfold, bind_unfold.
  destruct (get_all_persons_made u st) as (st1 & cards & -> & Hm).
  cbv beta iota. unfold mret at 1, M_ret at 1. cbv beta iota.
  assert (only_renamed u st st1) as Hr
    by (by apply same_index_only_renamed, made_directories_same_index).
  destruct (groq_chat assistant _) as [content|e]; [|by eexists _, _].
  cbv zeta. destruct (rfind _ _) as [last|]; [|by eexists _, _].
  destruct (rfind _ _) as [first|]; [|by eexists _, _].
  destruct (json_loads assistant _) as [action_data|e]; [|by eexists _, _].
  rewrite bind_unfold. unfold try_except.
  set (plain := or_str _ _).
  pose proof (run_action_keeps u action_data plain st1) as Hrun.
  destruct (run_action env clock assistant u action_data plain st1)
    as [st2 [[[photos folders] plain']|e]]; simpl in Hrun.
  - eexists _, _. split; [reflexivity|]. split; [by etrans|done].
  - eexists _, _. split; [reflexivity|]. split; [by etrans|done].
Qed.

End Assistant.

(** The model asks to rename Alice: the row is renamed, and nothing else
    changes. *)
Example assistant_renames_alice :
  let action := list_to_map [("action", "rename_person"); ("old_name", "ali");
                             ("new_name", "Alicia")] in
  let run := chat_with_assistant plain_env still_clock
               (demo_assistant "Done. {...}" (Ok action)) "u" "call her Alicia" []
               album_state in
  (cr_reply <$> match snd run with Ok r => Some r | Raise _ => None end)
  = Some "✅ Renamed to **Alicia**!" ∧
  map p_name (persons (fst run)) = ["Alicia"; "Bob"] ∧
  photos (fst run) = photos album_state ∧
  photo_persons (fst run) = photo_persons album_state.
Proof. vm_compute. done. Qed.

(** A reply without braces is passed on as it is. *)
Example assistant_plain_reply :
  snd (chat_with_assistant plain_env still_clock
         (demo_assistant "  Hello there!  " (Raise ValueError)) "u" "hi" [] album_state)
  = Ok (ChatResponse "Hello there!" None [] []).
Proof. vm_compute. done. Qed.

(** ** When the models fail *)

Section FailingModels.
Variable env : Env.

(** X19. A failure of the face detector is taken for a picture without a
    face, and a failure of the scene labeller for the label
    "uncategorised": when both fail, on a disk that accepts the copy, the
    upload still succeeds, and the picture is filed in the owner's
    "uncategorised" folder and linked to that group. *)
Theorem upload_survives_failing_models (u path fn : string) (st : State) (b : Bytes)
  (e1 e2 : exn) :
  read_file st (in_root u path) = Some b →
  deepface_represent env b = Raise e1 →
  groq_reply env b = Raise e2 →
  may_write env (in_folder u "uncategorised" fn) = true →
  ∃ st' r g,
    process_uploaded_image env u path fn st = (st', Ok r) ∧
    r_method r = groq_vision ∧ r_faces_detected r = 0 ∧ r_persons r = [person_ref_of g] ∧
    g ∈ persons st' ∧ p_user_id g = u ∧ p_folder_name g = "uncategorised" ∧
    isfile st' (in_folder u "uncategorised" fn) = true ∧
    photo_persons st' = photo_persons st ++ [PhotoPerson (r_photo_id r) (p_id g)].
Proof.
  intros Hfile Hdeep Hgroq Hwrite.
  unfold process_uploaded_image. rewrite bind_unfold. unfold uuid4_str at 1.
  rewrite bind_unfold. unfold modify at 1. rewrite bind_unfold.
  set (pid := uuid_str env (uuid_drawn st)).
  set (st1 := set_photos _ _).
  assert (root_files st1 = root_files st) as Hroot by done.
  rewrite (extract_embeddings_frame env u path st st1 Hroot).
  assert (snd (extract_embeddings env u path st) = Ok []) as ->
    by (unfold extract_embeddings, gets; simpl in *; by rewrite Hfile, Hdeep).
  rewrite bind_unfold, (groq_describe_for_folder_frame env u path st st1 Hroot).
  assert (snd (groq_describe_for_folder env u path st) = Ok "uncategorised") as ->
    by (unfold groq_describe_for_folder, gets; simpl in *; by rewrite Hfile, Hgroq).
  rewrite bind_unfold.
  destruct (_find_or_create_scene_person_spec env u "uncategorised" st1)
    as (st2 & g & -> & Hgu & Hgf & Hgin & Hph2 & Hl2 & [Hr2 Hd2] & _).
  rewrite bind_unfold.
  destruct (_copy_to_folder_spec env u (p_folder_name g) path fn st2)
    as (st3 & out3 & -> & (Hp3 & Hph3 & Hl3) & _ & _ & Hpresent & Hok3 & Habsent).
  assert (out3 = Ok tt) as ->.
  { destruct (isfile st2 (in_folder u (p_folder_name g) fn)) eqn:Hthere.
    - by destruct (Hpresent eq_refl).
    - specialize (Habsent eq_refl).
      assert (read_file st2 (in_root u path) = Some b) as Hsrc.
      { simpl in *. by rewrite Hr2. }
      rewrite Hsrc, Hgf, Hwrite in Habsent. by destruct Habsent. }
  rewrite bind_unfold. unfold _link at 1, modify at 1.
  eexists _, _, g. split; [reflexivity|]. simpl.
  split_and!; try done.
  - by rewrite Hp3.
  - rewrite <- Hgf. exact (Hok3 eq_refl).
  - by rewrite Hl3, Hl2.
Qed.

End FailingModels.

Lemma upload_survives_failing_models_witness :
  let env := MkEnv demo_uuid_str demo_uuid_hex (fun _ => Raise ValueError)
                   (fun _ => Raise OSError) (fun name => name) (fun _ => true)
                   (fun _ => true) (fun _ => true) (fun _ => Ok tt) in
  let run := process_uploaded_image env "u" "x.jpg" "x.jpg" (with_upload "x.jpg" empty_state) in
  (r_method <$> match snd run with Ok r => Some r | Raise _ => None end) = Some groq_vision ∧
  list_images (fst run) "u" "uncategorised" = ["x.jpg"].
Proof.
  cbv zeta.
  set (env := MkEnv _ _ _ _ _ _ _ _ _).
  destruct (upload_survives_failing_models env "u" "x.jpg" "x.jpg"
              (with_upload "x.jpg" empty_state) png_bytes ValueError OSError)
    as (st' & r & g & Hrun & Hm & _); try reflexivity.
  rewrite Hrun. simpl. rewrite Hm. split; [reflexivity|].
  replace st' with (fst (process_uploaded_image env "u" "x.jpg" "x.jpg"
                           (with_upload "x.jpg" empty_state))) by (by rewrite Hrun).
  reflexivity.
Defined.

(** ** Listings and the groups of scene labels *)

Section Listing.
Variable env : Env.

#[local] Instance leb_total_order : Total (fun a b : string => Is_true (String.leb a b)).
Proof.
  intros a b. destruct (String.leb_total a b) as [H|H]; rewrite H; [by left|by right].
Qed.

(** X20. The listing of a folder is in ascending order of the names, shows
    no name twice, and shows exactly the files of the folder whose name
    ends, case put aside, with an accepted extension; a folder that does
    not exist lists nothing. *)
Theorem listing_is_sorted_and_exact (st : State) (u f : string) :
  Sorted (fun a b => Is_true (String.leb a b)) (list_images st u f) ∧
  NoDup (list_images st u f) ∧
  (∀ x, x ∈ list_images st u f ↔
        is_image_name x = true ∧ is_Some (read_file st (in_folder u f x))) ∧
  (folders st !! (u, f) = None → list_images st u f = []).
Proof.
  split_and!.
  - unfold list_images. apply Sorted_merge_sort. apply _.
  - apply list_images_NoDup.
  - intros x. apply elem_of_list_images.
  - intros Hnone. unfold list_images, dir_of. rewrite Hnone. simpl.
    by rewrite map_to_list_empty.
Qed.

(** X21. Looking up the group of a scene label is idempotent: a second
    call returns the row of the first and changes nothing. *)
Theorem scene_group_lookup_is_idempotent (u slug : string) (st : State) :
  ∃ st' g,
    _find_or_create_scene_person env u slug st = (st', Ok g) ∧
    _find_or_create_scene_person env u slug st' = (st', Ok g).
Proof.
  destruct (_find_or_create_scene_person_spec env u slug st)
    as (st' & g & Hrun & Hu & Hf & Hin & _ & _ & _ & Hsel).
  exists st', g. split; [exact Hrun|].
  destruct (_find_or_create_scene_person_spec env u slug st')
    as (st2 & g2 & Hrun2 & _ & _ & _ & _ & _ & _ & Hsel2).
  rewrite Hrun2.
  destruct (filter (fun p => p_user_id p = u ∧ p_folder_name p = slug) (persons st))
    as [|g0 rest] eqn:E.
  - destruct Hsel as [_ Hp]. rewrite Hp, filter_app, E in Hsel2.
    rewrite filter_cons_True in Hsel2 by done. simpl in Hsel2.
    by destruct Hsel2 as [-> ->].
  - destruct Hsel as [-> ->]. rewrite E in Hsel2. by destruct Hsel2 as [-> ->].
Qed.

(** X22. After an upload that succeeded, the file is in the listing of
    every group the result names, provided its name is an image name. *)
Theorem uploaded_file_is_listed (u path fn : string) (st st' : State) (r : result) :
  process_uploaded_image env u path fn st = (st', Ok r) →
  is_image_name fn = true →
  Forall (fun ref => fn ∈ list_images st' u (ref_folder ref)) (r_persons r).
Proof.
  intros Hrun Himg.
  destruct (process_uploaded_image_spec env u path fn st)
    as (st2 & out & gs & Hrun2 & _ & _ & _ & Hall & _ & _ & Hout & _).
  rewrite Hrun in Hrun2. injection Hrun2 as <- <-.
  destruct Hout as (-> & _). apply Forall_map.
  eapply Forall_impl; [exact Hall|]. intros g (_ & _ & Hfile). simpl.
  apply elem_of_list_images. split; [done|].
  by apply bool_decide_eq_true in Hfile.
Qed.

End Listing.

Lemma uploaded_file_is_listed_witness :
  let run := process_uploaded_image plain_env "u" "x.jpg" "x.jpg"
               (with_upload "x.jpg" empty_state) in
  ∃ r, snd run = Ok r ∧ map ref_folder (r_persons r) = ["holiday"] ∧
       Forall (fun ref => "x.jpg" ∈ list_images (fst run) "u" (ref_folder ref)) (r_persons r).
Proof.
  cbv zeta.
  set (run := process_uploaded_image plain_env "u" "x.jpg" "x.jpg"
                (with_upload "x.jpg" empty_state)).
  set (r := Result "x.jpg" 0 [PersonRef "Holiday" "holiday" (demo_uuid_str 1)]
                   (demo_uuid_str 0) groq_vision).
  assert (run = (fst run, Ok r)) as Hrun.
  { rewrite (surjective_pairing run) at 1. f_equal. }
  exists r. split; [by rewrite Hrun|]. split; [reflexivity|].
  apply (uploaded_file_is_listed plain_env "u" "x.jpg" "x.jpg" _ _ r Hrun). reflexivity.
Defined.
